(** * Error-recovery and fix-approval pipeline

    A shallow embedding of the error handler ([analyzeError], [generateFix],
    [handleError]), of the fix executor ([executeProposedFix]) and of the
    review procedures ([approveFix], [rejectFix]), with the properties the
    specification states about them.

    Modelling conventions.
    - JavaScript numbers are IEEE-754 doubles: [spec_float] with the
      comparison [SFltb]; the literals 0.7 and 0.8 are the doubles nearest to
      them.
    - The Prisma store is a record of tables.  Tables looked up by key are
      finite maps; the conversation is a list in creation order.  A [create]
      throws when a value does not fit its column, and succeeds otherwise
      (outages and foreign keys are outside the model).
    - The reasoning backend, [JSON.parse]/[JSON.stringify], the id generator
      and the sandbox are external collaborators: they are the fields of
      [Collaborators], and every theorem holds whatever they do.
    - What [JSON.parse] returns is a JSON value of any shape ([json]).  The
      handler reads its members as JavaScript does: a missing member is
      [undefined], reading a member of [null] throws, and whatever is thrown
      inside the [try] block of [handleError] ends in its [catch].
      [Diagnosis] and [FixDraft] are the shapes of a well-formed answer.
      The payload of a fix alone is kept at one shape ([FixData]), in a
      draft as in the store.
    - An [async] procedure that several callers may run at once is a [Proc]:
      a sequence of awaited store operations, each of them atomic. *)

From Stdlib Require Import ZArith String Ascii List Bool Lia DecimalString.
From Stdlib Require Import Floats.SpecFloat.
From Stdlib Require Import Sorting.Sorted Sorting.Permutation.
From stdpp Require Import base option gmap strings.
Import ListNotations.
Local Open Scope string_scope.

(** ** Enumerations of the schema *)

Inductive ErrorSeverity := LOW | MEDIUM | HIGH | CRITICAL.
Inductive ErrorCategory :=
  COMPILATION | DEPENDENCY | SYNTAX | LOGIC | INFRASTRUCTURE | USER_INPUT.
Inductive ApprovalStatus := PENDING | APPROVED | REJECTED | AUTO_FIXED.
Inductive MessageRole := USER | ASSISTANT.
Inductive MessageType := RESULT | ERROR | APPROVAL_REQUEST.

Definition severity_name (s : ErrorSeverity) : string :=
  match s with
  | LOW => "LOW" | MEDIUM => "MEDIUM" | HIGH => "HIGH" | CRITICAL => "CRITICAL"
  end.

Definition category_name (c : ErrorCategory) : string :=
  match c with
  | COMPILATION => "COMPILATION" | DEPENDENCY => "DEPENDENCY"
  | SYNTAX => "SYNTAX" | LOGIC => "LOGIC"
  | INFRASTRUCTURE => "INFRASTRUCTURE" | USER_INPUT => "USER_INPUT"
  end.

(** [severity === "LOW"] *)
Definition is_LOW (s : ErrorSeverity) : bool :=
  match s with LOW => true | _ => false end.

(** [status !== "PENDING"] *)
Definition not_PENDING (s : ApprovalStatus) : bool :=
  match s with PENDING => false | _ => true end.

(** ** JavaScript values *)

Abbreviation number := spec_float.

(** The double written [0.7]. *)
Definition c0_7 : number := S754_finite false 6305039478318694 (-53).
(** The double written [0.8]. *)
Definition c0_8 : number := S754_finite false 7205759403792794 (-53).
(** The double written [0.0]. *)
Definition c0_0 : number := S754_zero false.
(** The double 1, the number of [true]. *)
Definition c1_0 : number := S754_finite false 4503599627370496 (-52).

(** [x > y] on numbers; false as soon as one side is NaN. *)
Definition gt (x y : number) : bool := SFltb y x.
(** [x <= y] on numbers. *)
Definition le (x y : number) : bool := SFleb x y.

(** Truthiness of a string: every string but the empty one. *)
Definition truthy (s : string) : bool :=
  match s with EmptyString => false | String _ _ => true end.

(** [s.split('.')[0]]: the part of [s] before its first dot. *)
Fixpoint split_dot_head (s : string) : string :=
  match s with
  | EmptyString => EmptyString
  | String c r => if Ascii.eqb c "." then EmptyString else String c (split_dot_head r)
  end.

#[local] Unset Elimination Schemes.
Inductive json :=
| JNull
| JBool (b : bool)
| JNum (x : number)
| JStr (s : string)
| JArr (items : list json)
| JObj (fields : list (string * json)).
#[local] Set Elimination Schemes.

(** *** Members, truthiness, equality

    A value is a [json], or [undefined]: [None] in an [option json]. *)

(** The property [k] among the properties of an object. *)
Fixpoint own_property (k : string) (fields : list (string * json)) : option json :=
  match fields with
  | [] => None
  | (k', v) :: rest => if String.eqb k' k then Some v else own_property k rest
  end.

(** [v.k] for the member names the handler reads, none of which is a
    property of a string, a number, a boolean or an array: the property of
    an object, and [undefined] for any other value.  On [null] the read
    throws; the one read that can meet [null] is in [errorLog_columns]. *)
Definition member (k : string) (v : json) : option json :=
  match v with
  | JObj fields => own_property k fields
  | _ => None
  end.

(** Truthiness of a value: [undefined], [null], [false], zero, NaN and the
    empty string are falsy. *)
Definition js_truthy (v : option json) : bool :=
  match v with
  | None => false
  | Some JNull => false
  | Some (JBool b) => b
  | Some (JNum x) => match x with S754_zero _ | S754_nan => false | _ => true end
  | Some (JStr s) => truthy s
  | Some (JArr _) => true
  | Some (JObj _) => true
  end.

(** [v === s] for a string [s]. *)
Definition is_string (s : string) (v : option json) : bool :=
  match v with
  | Some (JStr t) => String.eqb t s
  | _ => false
  end.

(** *** What the store accepts

    A required column takes a value of its type and nothing else, an enum
    column the name of one of its values: [None] when the value is refused. *)

Definition as_string (v : option json) : option string :=
  match v with
  | Some (JStr s) => Some s
  | _ => None
  end.

Definition as_number (v : option json) : option number :=
  match v with
  | Some (JNum x) => Some x
  | _ => None
  end.

Definition as_category (v : option json) : option ErrorCategory :=
  match v with
  | Some (JStr s) =>
      List.find (fun c => String.eqb (category_name c) s)
        [COMPILATION; DEPENDENCY; SYNTAX; LOGIC; INFRASTRUCTURE; USER_INPUT]
  | _ => None
  end.

Definition as_severity (v : option json) : option ErrorSeverity :=
  match v with
  | Some (JStr s) =>
      List.find (fun c => String.eqb (severity_name c) s) [LOW; MEDIUM; HIGH; CRITICAL]
  | _ => None
  end.

(** ** Records of the data model *)

Record FileEntry := { path : string; file_content : string }.

(** The fix payload, a JSON object: [type] and the optional members
    [commands] and [files]. *)
Record FixData := {
  fixType : string;
  commands : option (list string);
  files : option (list FileEntry) }.

Record Diagnosis := {
  category : ErrorCategory;
  severity : ErrorSeverity;
  diagnostic : string;
  canAutoFix : bool;
  confidence : number;
  suggestedActions : list string }.

Record FixDraft := {
  draft_description : string;
  draft_fixData : FixData;
  draft_reasoning : string;
  draft_confidence : number }.

(** What [generateFix] returns: the value [JSON.parse] made of the backend's
    output, or [null].  The member [fixData] is kept apart from the value, at
    the shape the store and the executor give to a payload; [draft_payload]
    is [None] when the value has no member [fixData], or a [null] one. *)
Record DraftValue := { draft_value : json; draft_payload : option FixData }.

(** A diagnosis and a draft as the backend is asked to write them: the JSON
    objects with the members of [Diagnosis] and of [FixDraft]. *)
Definition diagnosis_json (d : Diagnosis) : json :=
  JObj [("category", JStr (category_name (category d)));
        ("severity", JStr (severity_name (severity d)));
        ("diagnostic", JStr (diagnostic d));
        ("canAutoFix", JBool (canAutoFix d));
        ("confidence", JNum (confidence d));
        ("suggestedActions", JArr (map JStr (suggestedActions d)))].

Definition draft_object (draft : FixDraft) : DraftValue :=
  {| draft_value := JObj [("description", JStr (draft_description draft));
                          ("reasoning", JStr (draft_reasoning draft));
                          ("confidence", JNum (draft_confidence draft))];
     draft_payload := Some (draft_fixData draft) |}.

Record Project := { project_id : string; userId : string }.

Record Message := {
  msg_id : string;
  projectId : string;
  content : string;
  role : MessageRole;
  msg_type : MessageType }.

Record Fragment := { fragment_messageId : string; sandboxUrl : string }.

Record ErrorLog := {
  log_id : string;
  messageId : string;
  log_category : ErrorCategory;
  log_severity : ErrorSeverity;
  errorData : json;
  log_diagnostic : string }.

Record ProposedFix := {
  fix_id : string;
  errorLogId : string;
  description : string;
  fixData : FixData;
  reasoning : string;
  fix_confidence : number;
  status : ApprovalStatus;
  reviewedBy : option string;
  reviewedAt : option Z;
  feedback : option string }.

(** ** The world: the store, and the logs of the two outside services *)

Record AgentCall := { agent : string; agent_input : string }.

Inductive SandboxOp :=
| OpRun (sandboxId command : string)
| OpWrite (sandboxId file_path contents : string).

Record World := {
  projects : gmap string Project;
  messages : list Message;
  fragments : gmap string Fragment;
  errorLogs : gmap string ErrorLog;
  proposedFixes : gmap string ProposedFix;
  nextId : nat;
  agentCalls : list AgentCall;
  sandboxOps : list SandboxOp }.

Definition set_messages (ms : list Message) (w : World) : World :=
  {| projects := projects w; messages := ms; fragments := fragments w;
     errorLogs := errorLogs w; proposedFixes := proposedFixes w;
     nextId := nextId w; agentCalls := agentCalls w; sandboxOps := sandboxOps w |}.

Definition set_errorLogs (ls : gmap string ErrorLog) (w : World) : World :=
  {| projects := projects w; messages := messages w; fragments := fragments w;
     errorLogs := ls; proposedFixes := proposedFixes w;
     nextId := nextId w; agentCalls := agentCalls w; sandboxOps := sandboxOps w |}.

Definition set_proposedFixes (fs : gmap string ProposedFix) (w : World) : World :=
  {| projects := projects w; messages := messages w; fragments := fragments w;
     errorLogs := errorLogs w; proposedFixes := fs;
     nextId := nextId w; agentCalls := agentCalls w; sandboxOps := sandboxOps w |}.

Definition set_nextId (n : nat) (w : World) : World :=
  {| projects := projects w; messages := messages w; fragments := fragments w;
     errorLogs := errorLogs w; proposedFixes := proposedFixes w;
     nextId := n; agentCalls := agentCalls w; sandboxOps := sandboxOps w |}.

Definition set_agentCalls (cs : list AgentCall) (w : World) : World :=
  {| projects := projects w; messages := messages w; fragments := fragments w;
     errorLogs := errorLogs w; proposedFixes := proposedFixes w;
     nextId := nextId w; agentCalls := cs; sandboxOps := sandboxOps w |}.

Definition set_sandboxOps (ops : list SandboxOp) (w : World) : World :=
  {| projects := projects w; messages := messages w; fragments := fragments w;
     errorLogs := errorLogs w; proposedFixes := proposedFixes w;
     nextId := nextId w; agentCalls := agentCalls w; sandboxOps := ops |}.

(** ** State passing *)

Definition M (A : Type) : Type := World -> A * World.

Definition ret {A} (a : A) : M A := fun w => (a, w).

Definition bind {A B} (m : M A) (k : A -> M B) : M B :=
  fun w => let (a, w') := m w in k a w'.

Notation "x <- m ;; k" := (bind m (fun x => k))
  (at level 90, m at next level, right associativity).
Notation "m ;;; k" := (bind m (fun _ => k))
  (at level 90, right associativity).

(** ** Asynchronous procedures

    A procedure is a sequence of awaited operations.  Each operation is
    atomic on the world; between two of them another procedure may run. *)

#[local] Unset Elimination Schemes.
Inductive Proc (A : Type) : Type :=
| Done (a : A)
| Await {X : Type} (op : M X) (k : X -> Proc A).
#[local] Set Elimination Schemes.
Arguments Done {A} a.
Arguments Await {A X} op k.

Notation "x <~ op ;; k" := (Await op (fun x => k))
  (at level 90, op at next level, right associativity).

(** Running a procedure alone, from its first operation to its result. *)
Fixpoint run {A} (p : Proc A) : M A :=
  match p with
  | Done a => ret a
  | Await op k => fun w => let (x, w') := op w in run (k x) w'
  end.

(** One operation of a procedure. *)
Definition step {A} (p : Proc A) (w : World) : Proc A * World :=
  match p with
  | Done a => (Done a, w)
  | Await op k => let (x, w') := op w in (k x, w')
  end.

(** Two procedures sharing the world; the schedule says who moves next
    ([true]: the first one). *)
Fixpoint interleave {A B} (schedule : list bool) (p : Proc A) (q : Proc B) (w : World)
  : Proc A * Proc B * World :=
  match schedule with
  | [] => (p, q, w)
  | true :: rest => let (p', w') := step p w in interleave rest p' q w'
  | false :: rest => let (q', w') := step q w in interleave rest p q' w'
  end.

(** ** Results of the review procedures *)

Inductive TRPC_CODE :=
  NOT_FOUND | FORBIDDEN | BAD_REQUEST | CONFLICT | INTERNAL_SERVER_ERROR.

(** What a procedure call can fail with: a [TRPCError] thrown by the
    procedure, an input refused by its zod schema, or any other exception. *)
Inductive Failure :=
| TRPCError (code : TRPC_CODE) (message : string)
| InputRejected
| Uncaught (e : string).

(** The code the caller receives. *)
Definition failure_code (e : Failure) : TRPC_CODE :=
  match e with
  | TRPCError code _ => code
  | InputRejected => BAD_REQUEST
  | Uncaught _ => INTERNAL_SERVER_ERROR
  end.

Inductive Outcome (A : Type) :=
| Returned (a : A)
| Threw (e : Failure).
Arguments Returned {A} a.
Arguments Threw {A} e.

Definition returned {A} (o : Outcome A) : bool :=
  match o with Returned _ => true | Threw _ => false end.

Record ExecResult := { success : bool; exec_error : option string }.

Record ApproveInput := { proposedFixId : string; approve_feedback : option string }.
Record RejectInput := { reject_proposedFixId : string; reject_feedback : string }.

Record ApproveReply := {
  reply_success : bool;
  reply_proposedFix : ProposedFix;
  executionError : option string }.

(** The relations loaded with a fix: its error log, the log's message, the
    message's project and, when there is one, the message's fragment. *)
Record Included := {
  inc_errorLog : ErrorLog;
  inc_message : Message;
  inc_project : Project;
  inc_fragment : option Fragment }.

(** The row [f] after an update of its four review fields. *)
Definition reviewed (f : ProposedFix) (st : ApprovalStatus) (reviewer : string)
    (now : Z) (fb : string) : ProposedFix :=
  {| fix_id := fix_id f; errorLogId := errorLogId f;
     description := description f; fixData := fixData f;
     reasoning := reasoning f; fix_confidence := fix_confidence f;
     status := st; reviewedBy := Some reviewer;
     reviewedAt := Some now; feedback := Some fb |}.

(** [input.feedback || fallback] *)
Definition or_else (fb : option string) (fallback : string) : string :=
  match fb with
  | Some s => if truthy s then s else fallback
  | None => fallback
  end.

(** ** The collaborators

    What the pipeline reaches outside of itself.  Nothing is assumed of them:
    the theorems hold for every [Collaborators]. *)

Class Collaborators := {
  (** The id generator of the store: the id given to the [n]-th record. *)
  cuid : nat -> string;
  (** The reasoning backend, [agent.run(input)] of the agent called [name]
      with system prompt [system]: [None] when the call rejects. *)
  agent_run : forall (name system input : string), option string;
  (** The two prompts, constants of a module that is not part of the
      sources. *)
  ERROR_ANALYSIS_PROMPT : string;
  FIX_GENERATION_PROMPT : string;
  (** [JSON.stringify]. *)
  JSON_stringify : json -> string;
  (** [JSON.parse]: the value, [None] when it throws. *)
  JSON_parse : string -> option json;
  (** The member [fixData] of the value [JSON.parse] returns, as a fix
      payload: [None] when there is none. *)
  JSON_parse_fixData : string -> option FixData;
  (** The conversion of a string, an array or an object to a number, as a
      comparison makes it: [None] when it throws. *)
  ToNumber : json -> option number;
  (** The sandbox.  [getSandbox_fault id] is the error [getSandbox] throws,
      if any; [run_fault] and [write_fault] are the errors a command and a
      file write throw, if any, given everything done on the sandbox so
      far. *)
  getSandbox_fault : string -> option string;
  run_fault : list SandboxOp -> string -> string -> option string;
  write_fault : list SandboxOp -> string -> string -> string -> option string }.

(** ** Sample data

    Concrete collaborators and records, used by the examples that follow the
    theorems. *)

Module Sample.

Definition numbered (n : nat) : string :=
  "id_" ++ DecimalString.NilEmpty.string_of_uint (Nat.to_uint n).

(** A backend that is unreachable. *)
Definition agent_down (name system input : string) : option string := None.

(** A backend that answers; its output names the agent that produced it. *)
Definition agent_up (name system input : string) : option string := Some name.

(** Reading the output [key] as the value [v]; anything else does not parse. *)
Definition parse_as {A} (key : string) (v : A) (output : string) : option A :=
  if String.eqb output key then Some v else None.

(** Reading the output of the error analyzer as [analysis] and the output of
    the fix generator as [draft], when there is one; anything else does not
    parse. *)
Definition parse (analysis draft : option json) (output : string) : option json :=
  if String.eqb output "error-analyzer" then analysis
  else if String.eqb output "fix-generator" then draft
  else None.

(** No string, array or object of the examples is compared with a number. *)
Definition not_a_number (v : json) : option number := Some S754_nan.

Definition quote : string := String (ascii_of_nat 34) EmptyString.

Definition show_number (x : number) : string :=
  match x with
  | S754_zero _ => "0"
  | S754_infinity _ | S754_nan => "null"
  | S754_finite s m e =>
      (if s then "-" else "")
      ++ DecimalString.NilEmpty.string_of_uint (Pos.to_uint m) ++ "p"
      ++ DecimalString.NilEmpty.string_of_int (Z.to_int e)
  end.

(** A stand-in for [JSON.stringify]: no escaping, numbers as mantissa and
    binary exponent. *)
Fixpoint stringify (j : json) : string :=
  match j with
  | JNull => "null"
  | JBool b => if b then "true" else "false"
  | JNum x => show_number x
  | JStr s => quote ++ s ++ quote
  | JArr items =>
      "[" ++ (fix go (l : list json) : string :=
                match l with
                | [] => ""
                | [x] => stringify x
                | x :: r => stringify x ++ "," ++ go r
                end) items ++ "]"
  | JObj fields =>
      "{" ++ (fix go (l : list (string * json)) : string :=
                match l with
                | [] => ""
                | [(k, v)] => quote ++ k ++ quote ++ ":" ++ stringify v
                | (k, v) :: r => quote ++ k ++ quote ++ ":" ++ stringify v ++ "," ++ go r
                end) fields ++ "}"
  end.

(** A sandbox where everything works. *)
Definition no_fault1 (sid : string) : option string := None.
Definition no_fault3 (log : list SandboxOp) (sid command : string) : option string := None.
Definition no_fault4 (log : list SandboxOp) (sid p c : string) : option string := None.

(** A sandbox where the command [bad] exits with an error. *)
Definition fault_on (bad : string) (log : list SandboxOp) (sid command : string)
  : option string :=
  if String.eqb command bad then Some "Error: exit status 1" else None.

(** The doubles written 0.9, 0.85 and 0.5. *)
Definition c0_9 : number := S754_finite false 8106479329266893 (-53).
Definition c0_85 : number := S754_finite false 7656119366529843 (-53).
Definition c0_5 : number := S754_finite false 4503599627370496 (-53).

Definition diagnosis : Diagnosis :=
  {| category := SYNTAX; severity := LOW; diagnostic := "Unexpected token";
     canAutoFix := true; confidence := c0_9;
     suggestedActions := ["Fix the syntax error"] |}.

Definition hesitant : Diagnosis :=
  {| category := LOGIC; severity := MEDIUM; diagnostic := "Unclear failure";
     canAutoFix := true; confidence := c0_7;
     suggestedActions := [] |}.

Definition install : FixData :=
  {| fixType := "command"; commands := Some ["npm install"]; files := None |}.

Definition scaffold : FixData :=
  {| fixType := "multiStep";
     commands := Some ["mkdir -p lib"; "npm run gen"; "npm test"];
     files := Some [ {| path := "lib/a.ts"; file_content := "export {}" |} ] |}.

Definition draft (conf : number) : FixDraft :=
  {| draft_description := "Install dependencies"; draft_fixData := install;
     draft_reasoning := "node_modules is missing"; draft_confidence := conf |}.

Definition empty_world : World :=
  {| projects := ∅; messages := []; fragments := ∅; errorLogs := ∅;
     proposedFixes := ∅; nextId := 0; agentCalls := []; sandboxOps := [] |}.

Definition proposed (data : FixData) (st : ApprovalStatus) : ProposedFix :=
  {| fix_id := "fix_1"; errorLogId := "log_1"; description := "Install dependencies";
     fixData := data; reasoning := "node_modules is missing";
     fix_confidence := c0_5; status := st;
     reviewedBy := None; reviewedAt := None; feedback := None |}.

Definition project : Project := {| project_id := "proj_1"; userId := "user_1" |}.

Definition failure : Message :=
  {| msg_id := "msg_1"; projectId := "proj_1";
     content := "Error occurred: Error: build failed";
     role := ASSISTANT; msg_type := ERROR |}.

Definition log : ErrorLog :=
  {| log_id := "log_1"; messageId := "msg_1";
     log_category := DEPENDENCY; log_severity := MEDIUM;
     errorData := JNull; log_diagnostic := "Missing dependency" |}.

Definition fragment (url : string) : Fragment :=
  {| fragment_messageId := "msg_1"; sandboxUrl := url |}.

(** A project of [user_1] holding one failed attempt, its error log and a
    proposed fix with payload [data] and status [st]; [url] is the sandbox
    URL of the attempt's fragment, if it has a fragment. *)
Definition world (data : FixData) (st : ApprovalStatus) (url : option string) : World :=
  {| projects := {[ "proj_1" := project ]};
     messages := [ failure ];
     fragments :=
       match url with
       | Some u => {[ "msg_1" := fragment u ]}
       | None => ∅
       end;
     errorLogs := {[ "log_1" := log ]};
     proposedFixes := {[ "fix_1" := proposed data st ]};
     nextId := 3; agentCalls := []; sandboxOps := [] |}.

(** What [findUnique] loads with the fix of [world]. *)
Definition included (url : option string) : Included :=
  {| inc_errorLog := log; inc_message := failure; inc_project := project;
     inc_fragment := option_map fragment url |}.

(** Collaborators: a backend, the readings of its two outputs, and the
    errors of sandbox commands.  Connecting to the sandbox and writing
    files always work. *)
Definition collaborators
    (backend : string -> string -> string -> option string)
    (value_of : string -> option json)
    (payload_of : string -> option FixData)
    (command_fault : list SandboxOp -> string -> string -> option string)
  : Collaborators :=
  {| cuid := numbered; agent_run := backend;
     ERROR_ANALYSIS_PROMPT := "Classify the error.";
     FIX_GENERATION_PROMPT := "Propose a fix.";
     JSON_stringify := stringify;
     JSON_parse := value_of;
     JSON_parse_fixData := payload_of;
     ToNumber := not_a_number;
     getSandbox_fault := no_fault1;
     run_fault := command_fault;
     write_fault := no_fault4 |}.

(** The backend answers with [d] and with a draft of confidence [conf]. *)
Definition answering (d : Diagnosis) (conf : number) : Collaborators :=
  collaborators agent_up
    (parse (Some (diagnosis_json d)) (Some (draft_value (draft_object (draft conf)))))
    (parse_as "fix-generator" (draft_fixData (draft conf))) no_fault3.

(** The backend answers with the values [analysis] and [draft], of any
    shape; the draft has no payload. *)
Definition saying (analysis draft : json) : Collaborators :=
  collaborators agent_up (parse (Some analysis) (Some draft)) (fun _ => None) no_fault3.

(** The backend is unreachable. *)
Definition unreachable : Collaborators :=
  collaborators agent_down (fun _ => None) (fun _ => None) no_fault3.

(** Reviews: the backend plays no part; the command [bad] fails. *)
Definition reviewing (bad : string) : Collaborators :=
  collaborators agent_down (fun _ => None) (fun _ => None) (fault_on bad).

Definition approve : ApproveInput :=
  {| proposedFixId := "fix_1"; approve_feedback := None |}.

Definition reject : RejectInput :=
  {| reject_proposedFixId := "fix_1"; reject_feedback := "Not needed" |}.

End Sample.

(** ** The store operations used by the handler and the procedures *)

Section Pipeline.

Context {env : Collaborators}.

Definition fresh_id : M string :=
  fun w => (cuid (nextId w), set_nextId (S (nextId w)) w).

(** [prisma.message.create] *)
Definition message_create (pid text : string) (r : MessageRole) (t : MessageType)
  : M Message :=
  id <- fresh_id ;;
  let m := {| msg_id := id; projectId := pid; content := text;
              role := r; msg_type := t |} in
  fun w => (m, set_messages (messages w ++ [m]) w).

(** [prisma.errorLog.create] *)
Definition errorLog_create (mid : string) (c : ErrorCategory) (s : ErrorSeverity)
    (data : json) (diag : string) : M ErrorLog :=
  id <- fresh_id ;;
  let l := {| log_id := id; messageId := mid; log_category := c;
              log_severity := s; errorData := data; log_diagnostic := diag |} in
  fun w => (l, set_errorLogs (<[id := l]> (errorLogs w)) w).

(** [prisma.proposedFix.create]: the review fields start empty. *)
Definition proposedFix_create (lid desc : string) (data : FixData) (why : string)
    (conf : number) (st : ApprovalStatus) : M ProposedFix :=
  id <- fresh_id ;;
  let f := {| fix_id := id; errorLogId := lid; description := desc;
              fixData := data; reasoning := why; fix_confidence := conf;
              status := st; reviewedBy := None; reviewedAt := None;
              feedback := None |} in
  fun w => (f, set_proposedFixes (<[id := f]> (proposedFixes w)) w).

(** [agent.run(input)], recorded in the log of backend calls. *)
Definition agent_call (name system input : string) : M (option string) :=
  fun w => (agent_run name system input,
            set_agentCalls (agentCalls w ++ [{| agent := name; agent_input := input |}]) w).

(** ** The error handler *)

(** The object the [catch] of [analyzeError] returns. *)
Definition fallbackAnalysis : json :=
  JObj [("category", JStr "INFRASTRUCTURE");
        ("severity", JStr "HIGH");
        ("diagnostic", JStr "Failed to analyze error");
        ("canAutoFix", JBool false);
        ("confidence", JNum c0_0);
        ("suggestedActions", JArr [JStr "Manual review required"])].

(** [analyzeError]: the [try] block returns what [JSON.parse] made of the
    output, whatever its shape; any throw of the call or of [JSON.parse]
    lands in the [catch]. *)
Definition analyzeError (errData : json) : M json :=
  result <- agent_call "error-analyzer" ERROR_ANALYSIS_PROMPT (JSON_stringify errData) ;;
  match result with
  | Some output =>
      match JSON_parse output with
      | Some analysis => ret analysis
      | None => ret fallbackAnalysis
      end
  | None => ret fallbackAnalysis
  end.

(** [null], as a draft. *)
Definition null_draft : DraftValue := {| draft_value := JNull; draft_payload := None |}.

(** [generateFix]: what [JSON.parse] made of the output, whatever its shape;
    [null] when the call or [JSON.parse] throws. *)
Definition generateFix (errorAnalysis : json) (errData : json) : M DraftValue :=
  let context :=
    JObj [("errorAnalysis", errorAnalysis);
          ("errorData", errData);
          ("environment", JStr "Next.js 15.3.3 with TypeScript")] in
  result <- agent_call "fix-generator" FIX_GENERATION_PROMPT (JSON_stringify context) ;;
  match result with
  | Some output =>
      match JSON_parse output with
      | Some value =>
          ret {| draft_value := value; draft_payload := JSON_parse_fixData output |}
      | None => ret null_draft
      end
  | None => ret null_draft
  end.

(** The payload of an approval request, before [JSON.stringify]. *)
Definition approval_request (lid desc why : string) (conf : number) : json :=
  JObj [("type", JStr "approval_request");
        ("errorLogId", JStr lid);
        ("description", JStr desc);
        ("reasoning", JStr why);
        ("confidence", JNum conf)].

(** The number a value is compared as: NaN for [undefined], 0 for [null],
    0 or 1 for a boolean; [None] when the conversion throws. *)
Definition to_number (v : option json) : option number :=
  match v with
  | None => Some S754_nan
  | Some JNull => Some c0_0
  | Some (JBool b) => Some (if b then c1_0 else c0_0)
  | Some (JNum x) => Some x
  | Some (JStr s) => ToNumber (JStr s)
  | Some (JArr items) => ToNumber (JArr items)
  | Some (JObj fields) => ToNumber (JObj fields)
  end.

(** [v > c] for a number [c]: [None] when the conversion of [v] throws. *)
Definition js_gt (v : option json) (c : number) : option bool :=
  match to_number v with
  | Some x => Some (gt x c)
  | None => None
  end.

(** [errorAnalysis.canAutoFix && errorAnalysis.confidence > 0.7] *)
Definition confident (errorAnalysis : json) : option bool :=
  if js_truthy (member "canAutoFix" errorAnalysis)
  then js_gt (member "confidence" errorAnalysis) c0_7
  else Some false.

(** [errorAnalysis.severity === "LOW" && proposedFix.confidence > 0.8] *)
Definition auto_apply (errorAnalysis : json) (proposedFix : DraftValue) : option bool :=
  if is_string "LOW" (member "severity" errorAnalysis)
  then js_gt (member "confidence" (draft_value proposedFix)) c0_8
  else Some false.

(** The columns [category], [severity] and [diagnostic] of the error log, as
    [handleError] takes them from the diagnosis: [None] when reading them
    throws (the diagnosis is [null]) or the store refuses them. *)
Definition errorLog_columns (errorAnalysis : json)
  : option (ErrorCategory * ErrorSeverity * string) :=
  match errorAnalysis with
  | JNull => None
  | _ =>
      match as_category (member "category" errorAnalysis),
            as_severity (member "severity" errorAnalysis),
            as_string (member "diagnostic" errorAnalysis) with
      | Some c, Some s, Some diag => Some (c, s, diag)
      | _, _, _ => None
      end
  end.

(** The columns [description], [fixData], [reasoning] and [confidence] of the
    proposed fix, as [handleError] takes them from a truthy draft: [None]
    when the store refuses them. *)
Definition proposedFix_columns (proposedFix : DraftValue) : option FixDraft :=
  match as_string (member "description" (draft_value proposedFix)),
        draft_payload proposedFix,
        as_string (member "reasoning" (draft_value proposedFix)),
        as_number (member "confidence" (draft_value proposedFix)) with
  | Some desc, Some data, Some why, Some conf =>
      Some {| draft_description := desc; draft_fixData := data;
              draft_reasoning := why; draft_confidence := conf |}
  | _, _, _, _ => None
  end.

(** The [try] block of [handleError]: the entry it returns, [None] when
    something in it throws.  [error] is [error.toString()] and [timestamp] is
    [new Date().toISOString()]. *)
Definition handle_steps (error : string) (context : json) (pid timestamp : string)
  : M (option Message) :=
  (* Create error message first *)
  errorMessage <- message_create pid ("Error occurred: " ++ error) ASSISTANT ERROR ;;
  (* Analyze the error *)
  errorAnalysis <- analyzeError
    (JObj [("error", JStr error); ("context", context); ("timestamp", JStr timestamp)]) ;;
  (* Create error log *)
  match errorLog_columns errorAnalysis with
  | None => ret None
  | Some (c, s, diag) =>
      errorLog <- errorLog_create (msg_id errorMessage) c s
        (JObj [("error", JStr error); ("context", context);
               ("analysis", errorAnalysis)])
        diag ;;
      (* Generate fix if error can be auto-fixed *)
      match confident errorAnalysis with
      | None => ret None
      | Some false => ret (Some errorMessage)
      | Some true =>
          proposedFix <- generateFix errorAnalysis
            (JObj [("error", JStr error); ("context", context)]) ;;
          if js_truthy (Some (draft_value proposedFix)) then
            match auto_apply errorAnalysis proposedFix with
            | None => ret None
            | Some auto =>
                match proposedFix_columns proposedFix with
                | None => ret None
                | Some draft =>
                    proposedFix_create (log_id errorLog)
                      (draft_description draft) (draft_fixData draft)
                      (draft_reasoning draft) (draft_confidence draft)
                      (if auto then AUTO_FIXED else PENDING) ;;;
                    if auto
                    then ret (Some errorMessage)
                         (* console.log only.  TODO: Implement auto-fix execution *)
                    else
                      (* Create approval request message *)
                      message_create pid
                        (JSON_stringify
                           (approval_request (log_id errorLog) (draft_description draft)
                              (draft_reasoning draft) (draft_confidence draft)))
                        ASSISTANT APPROVAL_REQUEST ;;;
                      ret (Some errorMessage)
                end
            end
          else ret (Some errorMessage)
      end
  end.

(** [handleError error context projectId]: the [try] block, and the [catch]
    with its generic entry. *)
Definition handleError (error : string) (context : json) (pid timestamp : string)
  : M Message :=
  attempt <- handle_steps error context pid timestamp ;;
  match attempt with
  | Some errorMessage => ret errorMessage
  | None =>
      (* Fallback to simple error message *)
      message_create pid "Something went wrong. Please try again." ASSISTANT ERROR
  end.


(** ** The fix executor *)

(** [sandbox.commands.run(command)], recorded in the sandbox log. *)
Definition sandbox_run (sid command : string) : M (option string) :=
  fun w => (run_fault (sandboxOps w) sid command,
            set_sandboxOps (sandboxOps w ++ [OpRun sid command]) w).

(** [sandbox.files.write(path, content)], recorded in the sandbox log. *)
Definition sandbox_write (sid : string) (f : FileEntry) : M (option string) :=
  fun w => (write_fault (sandboxOps w) sid (path f) (file_content f),
            set_sandboxOps (sandboxOps w ++ [OpWrite sid (path f) (file_content f)]) w).

(** [for (const command of cs) await sandbox.commands.run(command)]: the
    error thrown, if any. *)
Fixpoint run_commands (sid : string) (cs : list string) : M (option string) :=
  match cs with
  | [] => ret None
  | command :: rest =>
      thrown <- sandbox_run sid command ;;
      match thrown with
      | Some e => ret (Some e)
      | None => run_commands sid rest
      end
  end.

(** [for (const file of fs) await sandbox.files.write(file.path, file.content)] *)
Fixpoint write_files (sid : string) (fs : list FileEntry) : M (option string) :=
  match fs with
  | [] => ret None
  | file :: rest =>
      thrown <- sandbox_write sid file ;;
      match thrown with
      | Some e => ret (Some e)
      | None => write_files sid rest
      end
  end.

(** The guard [if (!sandboxId) throw ...] followed by [getSandbox]. *)
Definition with_sandbox (sandboxId : option string) (purpose : string)
    (body : string -> M (option string)) : M (option string) :=
  match sandboxId with
  | Some sid =>
      if truthy sid then
        match getSandbox_fault sid with
        | Some e => ret (Some e)
        | None => body sid
        end
      else ret (Some ("Error: Sandbox ID required for " ++ purpose))
  | None => ret (Some ("Error: Sandbox ID required for " ++ purpose))
  end.

(** Iterating over a missing member throws. *)
Definition not_iterable (member : string) : string :=
  "TypeError: fixData." ++ member ++ " is not iterable".

(** The [try] block of [executeProposedFix]: the error thrown, if any. *)
Definition execute_steps (data : FixData) (sandboxId : option string) : M (option string) :=
  if String.eqb (fixType data) "command" then
    with_sandbox sandboxId "command execution" (fun sid =>
      match commands data with
      | Some cs => run_commands sid cs
      | None => ret (Some (not_iterable "commands"))
      end)
  else if String.eqb (fixType data) "fileChange" then
    with_sandbox sandboxId "file changes" (fun sid =>
      match files data with
      | Some fs => write_files sid fs
      | None => ret (Some (not_iterable "files"))
      end)
  else if String.eqb (fixType data) "multiStep" then
    with_sandbox sandboxId "multi-step fixes" (fun sid =>
      (* Execute commands first *)
      thrown <- match commands data with
                | Some cs => run_commands sid cs
                | None => ret None
                end ;;
      match thrown with
      | Some e => ret (Some e)
      | None =>
          (* Then update files *)
          match files data with
          | Some fs => write_files sid fs
          | None => ret None
          end
      end)
  else ret None.

(** [executeProposedFix]: the [catch] turns any throw into a result. *)
Definition executeProposedFix (proposedFix : ProposedFix) (sandboxId : option string)
  : M ExecResult :=
  thrown <- execute_steps (fixData proposedFix) sandboxId ;;
  match thrown with
  | None => ret {| success := true; exec_error := None |}
  | Some e => ret {| success := false; exec_error := Some e |}
  end.

(** ** The review procedures *)

(** [prisma.proposedFix.findUnique] with its [include]: [None] when there is
    no such fix.  The relations are required by the schema; a store that
    lacks one yields no [Included]. *)
Definition proposedFix_findUnique (id : string) : M (option (ProposedFix * option Included)) :=
  fun w =>
    (match proposedFixes w !! id with
     | None => None
     | Some f =>
         Some (f,
           match errorLogs w !! errorLogId f with
           | None => None
           | Some l =>
               match List.find (fun m => String.eqb (msg_id m) (messageId l)) (messages w) with
               | None => None
               | Some m =>
                   match projects w !! projectId m with
                   | None => None
                   | Some p =>
                       Some {| inc_errorLog := l; inc_message := m; inc_project := p;
                               inc_fragment := fragments w !! msg_id m |}
                   end
               end
           end)
     end, w).

(** [prisma.proposedFix.update({ where: { id }, data })]: the row with this
    id, whatever its status, gets the four fields; [None] when there is no
    such row (the call throws). *)
Definition proposedFix_update (id : string) (st : ApprovalStatus) (reviewer : string)
    (now : Z) (fb : string) : M (option ProposedFix) :=
  fun w =>
    match proposedFixes w !! id with
    | None => (None, w)
    | Some f =>
        let f' := reviewed f st reviewer now fb in
        (Some f', set_proposedFixes (<[id := f']> (proposedFixes w)) w)
    end.

(** The three checks both procedures make on what [findUnique] returned. *)
Definition check_reviewable (ctxUserId : string)
    (found : option (ProposedFix * option Included)) : Outcome (ProposedFix * Included) :=
  match found with
  | None => Threw (TRPCError NOT_FOUND "Proposed fix not found")
  | Some (_, None) => Threw (Uncaught "TypeError: Cannot read properties of null")
  | Some (proposedFix, Some inc) =>
      if negb (String.eqb (userId (inc_project inc)) ctxUserId) then
        Threw (TRPCError FORBIDDEN "Not authorized")
      else if not_PENDING (status proposedFix) then
        Threw (TRPCError BAD_REQUEST "Fix already processed")
      else Returned (proposedFix, inc)
  end.

(** [fragment?.sandboxUrl], when truthy. *)
Definition fragment_sandboxUrl (fragment : option Fragment) : option string :=
  match fragment with
  | Some fr => if truthy (sandboxUrl fr) then Some (sandboxUrl fr) else None
  | None => None
  end.

Definition approve_feedback_text (ok : bool) : string :=
  "Fix " ++ (if ok then "applied successfully" else "failed to apply").

Definition approve_message (proposedFix : ProposedFix) (r : ExecResult) : string :=
  if success r then "✅ Fix applied: " ++ description proposedFix
  else "❌ Fix failed: " ++ description proposedFix ++ ". Error: "
         ++ match exec_error r with Some e => e | None => "undefined" end.

(** The tail of [approveFix], from the update on. *)
Definition approve_record (input : ApproveInput) (ctxUserId : string) (now : Z)
    (proposedFix : ProposedFix) (inc : Included) (executionResult : ExecResult)
  : Proc (Outcome ApproveReply) :=
  updated <~ proposedFix_update (proposedFixId input)
               (if success executionResult then APPROVED else PENDING)
               ctxUserId now
               (or_else (approve_feedback input)
                  (approve_feedback_text (success executionResult))) ;;
  match updated with
  | None => Done (Threw (Uncaught "Record to update not found"))
  | Some updatedFix =>
      _ <~ message_create (projectId (inc_message inc))
             (approve_message proposedFix executionResult) ASSISTANT RESULT ;;
      Done (Returned {| reply_success := success executionResult;
                        reply_proposedFix := updatedFix;
                        executionError := exec_error executionResult |})
  end.

(** [approveFix]; [ctxUserId] is [ctx.auth.userId] and [now] is [new Date()].
    The executor's sandbox calls are taken as one operation. *)
Definition approveFix (input : ApproveInput) (ctxUserId : string) (now : Z)
  : Proc (Outcome ApproveReply) :=
  if negb (truthy (proposedFixId input)) then Done (Threw InputRejected) else
  found <~ proposedFix_findUnique (proposedFixId input) ;;
  match check_reviewable ctxUserId found with
  | Threw e => Done (Threw e)
  | Returned (proposedFix, inc) =>
      (* Execute the fix if there's a sandbox available *)
      match fragment_sandboxUrl (inc_fragment inc) with
      | Some url =>
          executionResult <~ executeProposedFix proposedFix (Some (split_dot_head url)) ;;
          approve_record input ctxUserId now proposedFix inc executionResult
      | None =>
          approve_record input ctxUserId now proposedFix inc
            {| success := true; exec_error := None |}
      end
  end.

(** [rejectFix] *)
Definition rejectFix (input : RejectInput) (ctxUserId : string) (now : Z)
  : Proc (Outcome ProposedFix) :=
  if negb (truthy (reject_proposedFixId input) && truthy (reject_feedback input))
  then Done (Threw InputRejected) else
  found <~ proposedFix_findUnique (reject_proposedFixId input) ;;
  match check_reviewable ctxUserId found with
  | Threw e => Done (Threw e)
  | Returned (proposedFix, inc) =>
      updated <~ proposedFix_update (reject_proposedFixId input) REJECTED
                   ctxUserId now (reject_feedback input) ;;
      match updated with
      | None => Done (Threw (Uncaught "Record to update not found"))
      | Some updatedFix =>
          _ <~ message_create (projectId (inc_message inc))
                 ("❌ Fix rejected: " ++ description proposedFix ++ ". Reason: "
                    ++ reject_feedback input) ASSISTANT RESULT ;;
          Done (Returned updatedFix)
      end
  end.

(** ** Vocabulary of the statements *)

(** The objects [handleError] passes to [analyzeError] and [generateFix]. *)
Definition analysis_input (error : string) (context : json) (timestamp : string) : json :=
  JObj [("error", JStr error); ("context", context); ("timestamp", JStr timestamp)].

Definition fix_input (error : string) (context : json) : json :=
  JObj [("error", JStr error); ("context", context)].

(** The diagnosis call fails: the backend rejects, or its output does not
    parse. *)
Definition backend_fails (errData : json) : Prop :=
  match agent_run "error-analyzer" ERROR_ANALYSIS_PROMPT (JSON_stringify errData) with
  | None => True
  | Some output => JSON_parse output = None
  end.

(** What [analyzeError] and [generateFix] return; neither depends on the
    world. *)
Definition analysis_of (errData : json) : json :=
  fst (analyzeError errData Sample.empty_world).

Definition draft_of (errorAnalysis : json) (errData : json) : DraftValue :=
  fst (generateFix errorAnalysis errData Sample.empty_world).

(** The value [a] is a well-formed diagnosis, [d]: an object whose members
    [category], [severity], [diagnostic], [canAutoFix] and [confidence] are
    those of [d], in any order and among any others. *)
Definition is_diagnosis (a : json) (d : Diagnosis) : Prop :=
  member "category" a = Some (JStr (category_name (category d)))
  /\ member "severity" a = Some (JStr (severity_name (severity d)))
  /\ member "diagnostic" a = Some (JStr (diagnostic d))
  /\ member "canAutoFix" a = Some (JBool (canAutoFix d))
  /\ member "confidence" a = Some (JNum (confidence d)).

(** The value [p] is a well-formed draft, [draft]: an object whose members
    [description], [reasoning] and [confidence] are those of [draft], with
    the payload of [draft] as its member [fixData]. *)
Definition is_draft (p : DraftValue) (draft : FixDraft) : Prop :=
  member "description" (draft_value p) = Some (JStr (draft_description draft))
  /\ member "reasoning" (draft_value p) = Some (JStr (draft_reasoning draft))
  /\ member "confidence" (draft_value p) = Some (JNum (draft_confidence draft))
  /\ draft_payload p = Some (draft_fixData draft).

(** The entry [agent_call] adds to the log of backend calls. *)
Definition analysis_call (errData : json) : AgentCall :=
  {| agent := "error-analyzer"; agent_input := JSON_stringify errData |}.

Definition fix_call (errorAnalysis : json) (errData : json) : AgentCall :=
  {| agent := "fix-generator";
     agent_input :=
       JSON_stringify
         (JObj [("errorAnalysis", errorAnalysis);
                ("errorData", errData);
                ("environment", JStr "Next.js 15.3.3 with TypeScript")]) |}.

(** The commands [cs] all run without error, starting from the log [log]. *)
Fixpoint all_run (log : list SandboxOp) (sid : string) (cs : list string) : bool :=
  match cs with
  | [] => true
  | command :: rest =>
      match run_fault log sid command with
      | None => all_run (log ++ [OpRun sid command]) sid rest
      | Some _ => false
      end
  end.

Definition op_write (sid : string) (f : FileEntry) : SandboxOp :=
  OpWrite sid (path f) (file_content f).

(** Exactly one of two calls returns and the other one is refused with
    [CONFLICT]. *)
Definition single_shot {A B} (first : Outcome A) (second : Outcome B) : Prop :=
  match first, second with
  | Returned _, Threw e => failure_code e = CONFLICT
  | Threw e, Returned _ => failure_code e = CONFLICT
  | _, _ => False
  end.

(** Both procedures have finished, with these results. *)
Definition finished {A B} (state : Proc A * Proc B * World) : option (A * B) :=
  match state with
  | (Done a, Done b, _) => Some (a, b)
  | _ => None
  end.

(** The records [handleError] creates from the world [w]. *)
Definition errorMessage_at (w : World) (error pid : string) : Message :=
  {| msg_id := cuid (nextId w); projectId := pid;
     content := "Error occurred: " ++ error; role := ASSISTANT; msg_type := ERROR |}.

Definition errorLog_at (w : World) (error : string) (context analysis : json)
    (c : ErrorCategory) (s : ErrorSeverity) (diag : string) : ErrorLog :=
  {| log_id := cuid (S (nextId w)); messageId := cuid (nextId w);
     log_category := c; log_severity := s;
     errorData := JObj [("error", JStr error); ("context", context);
                        ("analysis", analysis)];
     log_diagnostic := diag |}.

(** The generic entry of the [catch], created as the [n]-th record after
    those of [w]. *)
Definition fallbackMessage_at (w : World) (n : nat) (pid : string) : Message :=
  {| msg_id := cuid (n + nextId w); projectId := pid;
     content := "Something went wrong. Please try again.";
     role := ASSISTANT; msg_type := ERROR |}.

(** The world [w] after the handler added the entries [entries] and the
    backend calls [calls], left the tables of error logs and of proposed
    fixes as [logs] and [fixes], and created [n] records. *)
Definition handled (w : World) (entries : list Message) (logs : gmap string ErrorLog)
    (fixes : gmap string ProposedFix) (n : nat) (calls : list AgentCall) : World :=
  {| projects := projects w;
     messages := messages w ++ entries;
     fragments := fragments w;
     errorLogs := logs;
     proposedFixes := fixes;
     nextId := n + nextId w;
     agentCalls := agentCalls w ++ calls;
     sandboxOps := sandboxOps w |}.

Definition proposedFix_at (w : World) (draft : FixDraft) (st : ApprovalStatus)
  : ProposedFix :=
  {| fix_id := cuid (S (S (nextId w))); errorLogId := cuid (S (nextId w));
     description := draft_description draft; fixData := draft_fixData draft;
     reasoning := draft_reasoning draft; fix_confidence := draft_confidence draft;
     status := st; reviewedBy := None; reviewedAt := None; feedback := None |}.

Definition request_at (w : World) (pid : string) (draft : FixDraft) : Message :=
  {| msg_id := cuid (S (S (S (nextId w)))); projectId := pid;
     content := JSON_stringify
                  (JObj [("type", JStr "approval_request");
                         ("errorLogId", JStr (cuid (S (nextId w))));
                         ("description", JStr (draft_description draft));
                         ("reasoning", JStr (draft_reasoning draft));
                         ("confidence", JNum (draft_confidence draft))]);
     role := ASSISTANT; msg_type := APPROVAL_REQUEST |}.

(** [w'] differs from [w] by operations added to the sandbox log only. *)
Definition only_sandbox (w w' : World) : Prop :=
  exists ops, w' = set_sandboxOps (sandboxOps w ++ ops) w.

(** A computation that changes nothing but the sandbox log. *)
Definition frames {A} (m : M A) : Prop := forall w, only_sandbox w (snd (m w)).

(** The entry a review procedure adds to the conversation of project [pid]. *)
Definition result_message (w : World) (pid text : string) : Message :=
  {| msg_id := cuid (nextId w); projectId := pid; content := text;
     role := ASSISTANT; msg_type := RESULT |}.

(** The world after a review wrote the row [f'] under [id] and added the
    conversation entry [text]. *)
Definition after_review (w : World) (id : string) (f' : ProposedFix) (pid text : string)
  : World :=
  set_messages (messages w ++ [result_message w pid text])
    (set_nextId (S (nextId w))
       (set_proposedFixes (<[id := f']> (proposedFixes w)) w)).

Definition already_processed {A} : Outcome A :=
  Threw (TRPCError BAD_REQUEST "Fix already processed").

(** In the world [w], every further call on the fix [id] by [reviewer] is
    refused with BAD_REQUEST and leaves the world as it is. *)
Definition refuses_review (w : World) (id reviewer : string) : Prop :=
  forall (fb : option string) (reason : string) (now : Z),
    truthy reason = true ->
    run (approveFix {| proposedFixId := id; approve_feedback := fb |} reviewer now) w
    = (already_processed, w)
    /\ run (rejectFix {| reject_proposedFixId := id; reject_feedback := reason |}
              reviewer now) w
       = (already_processed, w).

End Pipeline.

(** ** The rest of the review surface

    The read-only procedures of the router, the statistics shown with them,
    and the history the agent function loads.  [createdAt] is the column of
    that name, which the records of this model do not carry: the creation
    time of the fix with a given id. *)

(** A row of [findMany] with [include: { errorLog: { include: { message } } }]. *)
Record Approval := {
  approval_fix : ProposedFix;
  approval_errorLog : ErrorLog;
  approval_message : Message }.

(** The [where] clause on the relations of a fix: its error log's message
    belongs to the project [pid], and that project to the user [uid]. *)
Definition approval_row (w : World) (pid uid : string) (f : ProposedFix) : option Approval :=
  match errorLogs w !! errorLogId f with
  | None => None
  | Some l =>
      match List.find (fun m => String.eqb (msg_id m) (messageId l)) (messages w) with
      | None => None
      | Some m =>
          if String.eqb (projectId m) pid then
            match projects w !! projectId m with
            | Some p =>
                if String.eqb (userId p) uid
                then Some {| approval_fix := f; approval_errorLog := l;
                             approval_message := m |}
                else None
            | None => None
            end
          else None
      end
  end.

(** [orderBy: { createdAt: "desc" }], as an insertion sort. *)
Definition created (createdAt : string -> Z) (a : Approval) : Z :=
  createdAt (fix_id (approval_fix a)).

Fixpoint insert_newest (createdAt : string -> Z) (a : Approval) (l : list Approval)
  : list Approval :=
  match l with
  | [] => [a]
  | b :: rest =>
      if (created createdAt b <=? created createdAt a)%Z
      then a :: b :: rest
      else b :: insert_newest createdAt a rest
  end.

Definition newest_first (createdAt : string -> Z) (l : list Approval) : list Approval :=
  fold_right (insert_newest createdAt) [] l.

(** [status: "PENDING"] *)
Definition is_PENDING (f : ProposedFix) : bool := negb (not_PENDING (status f)).

(** The rows of the table that pass the [where] clause, [keep] being its
    condition on the status. *)
Definition where_approvals (keep : ProposedFix -> bool) (pid uid : string) (w : World)
  : list Approval :=
  omap (fun row : string * ProposedFix =>
          if keep (snd row) then approval_row w pid uid (snd row) else None)
       (map_to_list (proposedFixes w)).

(** [getPendingApprovals]; [uid] is [ctx.auth.userId]. *)
Definition getPendingApprovals (createdAt : string -> Z) (pid uid : string) (w : World)
  : Outcome (list Approval) :=
  if negb (truthy pid) then Threw InputRejected
  else Returned (newest_first createdAt (where_approvals is_PENDING pid uid w)).

(** [getAllApprovals] *)
Definition getAllApprovals (createdAt : string -> Z) (pid uid : string) (w : World)
  : Outcome (list Approval) :=
  if negb (truthy pid) then Threw InputRejected
  else Returned (newest_first createdAt (where_approvals (fun _ => true) pid uid w)).

Definition status_eqb (a b : ApprovalStatus) : bool :=
  match a, b with
  | PENDING, PENDING | APPROVED, APPROVED | REJECTED, REJECTED
  | AUTO_FIXED, AUTO_FIXED => true
  | _, _ => false
  end.

Definition category_eqb (a b : ErrorCategory) : bool :=
  String.eqb (category_name a) (category_name b).

Definition severity_eqb (a b : ErrorSeverity) : bool :=
  String.eqb (severity_name a) (severity_name b).

(** The error logs that pass the [where] clause of [getErrorStats]. *)
Definition where_errorLogs (pid uid : string) (w : World) : list ErrorLog :=
  omap (fun row : string * ErrorLog =>
          match List.find (fun m => String.eqb (msg_id m) (messageId (snd row)))
                  (messages w) with
          | None => None
          | Some m =>
              if String.eqb (projectId m) pid then
                match projects w !! projectId m with
                | Some p => if String.eqb (userId p) uid then Some (snd row) else None
                | None => None
                end
              else None
          end)
       (map_to_list (errorLogs w)).

(** [groupBy] with [_count]: one group per value that occurs, with the number
    of its rows.  The groups come in the order of the enumerations. *)
Definition groupBy_status (rows : list Approval) : list (ApprovalStatus * nat) :=
  List.filter (fun g => negb (Nat.eqb (snd g) 0))
    (map (fun st =>
            (st, length (List.filter
                           (fun a => status_eqb (status (approval_fix a)) st) rows)))
         [PENDING; APPROVED; REJECTED; AUTO_FIXED]).

Definition groupBy_category_severity (logs : list ErrorLog)
  : list (ErrorCategory * ErrorSeverity * nat) :=
  List.filter (fun g => negb (Nat.eqb (snd g) 0))
    (map (fun cs : ErrorCategory * ErrorSeverity =>
            (cs, length (List.filter
                           (fun l => category_eqb (log_category l) (fst cs)
                                     && severity_eqb (log_severity l) (snd cs)) logs)))
         (list_prod [COMPILATION; DEPENDENCY; SYNTAX; LOGIC; INFRASTRUCTURE; USER_INPUT]
                    [LOW; MEDIUM; HIGH; CRITICAL])).

Record ErrorStats := {
  errorsByCategory : list (ErrorCategory * ErrorSeverity * nat);
  fixesByStatus : list (ApprovalStatus * nat) }.

(** [getErrorStats] *)
Definition getErrorStats (pid uid : string) (w : World) : Outcome ErrorStats :=
  if negb (truthy pid) then Threw InputRejected
  else Returned
         {| errorsByCategory := groupBy_category_severity (where_errorLogs pid uid w);
            fixesByStatus := groupBy_status (where_approvals (fun _ => true) pid uid w) |}.

(** [fixesByStatus.find(s => s.status === st)?._count.id || 0], the figure the
    approvals section shows for a status. *)
Definition shown_count (st : ApprovalStatus) (groups : list (ApprovalStatus * nat)) : nat :=
  match List.find (fun g => status_eqb (fst g) st) groups with
  | Some g => snd g
  | None => 0
  end.

(** The history the agent function loads: the five newest messages of the
    project ([orderBy createdAt desc], [take: 5]), formatted one by one, then
    reversed. *)
Record TextMessage := { text_type : string; text_role : string; text_content : string }.

Definition format_message (m : Message) : TextMessage :=
  {| text_type := "text";
     text_role := match role m with ASSISTANT => "assistant" | USER => "user" end;
     text_content := content m |}.

Definition previousMessages (pid : string) (w : World) : list TextMessage :=
  rev (map format_message
         (firstn 5 (rev (List.filter (fun m => String.eqb (projectId m) pid)
                                     (messages w))))).

(** ** Vocabulary of the further statements *)

(** The sandbox an operation was sent to. *)
Definition op_sandbox (op : SandboxOp) : string :=
  match op with
  | OpRun sid _ => sid
  | OpWrite sid _ _ => sid
  end.

Definition is_write (op : SandboxOp) : bool :=
  match op with OpWrite _ _ _ => true | OpRun _ _ => false end.

(** What the executor says it needs the sandbox for. *)
Definition sandbox_purpose (fix_type : string) : string :=
  if String.eqb fix_type "command" then "command execution"
  else if String.eqb fix_type "fileChange" then "file changes"
  else "multi-step fixes".

Definition known_fixType (fix_type : string) : bool :=
  String.eqb fix_type "command" || String.eqb fix_type "fileChange"
  || String.eqb fix_type "multiStep".

(** [!sandboxId] *)
Definition no_sandboxId (sandboxId : option string) : bool :=
  match sandboxId with
  | Some sid => negb (truthy sid)
  | None => true
  end.

(** A string without dot. *)
Fixpoint dotless (s : string) : bool :=
  match s with
  | EmptyString => true
  | String c r => negb (Ascii.eqb c ".") && dotless r
  end.

(** Newest first. *)
Definition newer_or_same (createdAt : string -> Z) (a b : Approval) : Prop :=
  (created createdAt b <= created createdAt a)%Z.

(** The fix [f] with the payload [data]. *)
Definition with_fixData (f : ProposedFix) (data : FixData) : ProposedFix :=
  {| fix_id := fix_id f; errorLogId := errorLogId f; description := description f;
     fixData := data; reasoning := reasoning f; fix_confidence := fix_confidence f;
     status := status f; reviewedBy := reviewedBy f; reviewedAt := reviewedAt f;
     feedback := feedback f |}.

(** The row [a] is a fix of the store joined with its error log and the
    log's message, of the project [pid], which belongs to [uid]. *)
Definition approval_of (w : World) (pid uid : string) (a : Approval) : Prop :=
  (exists id, proposedFixes w !! id = Some (approval_fix a))
  /\ errorLogs w !! errorLogId (approval_fix a) = Some (approval_errorLog a)
  /\ List.find (fun m => String.eqb (msg_id m) (messageId (approval_errorLog a)))
       (messages w) = Some (approval_message a)
  /\ projectId (approval_message a) = pid
  /\ exists p, projects w !! pid = Some p /\ userId p = uid.

(** The constraints of the schema on proposed fixes: the primary key is the
    id, and the foreign keys to the error log and to its message resolve. *)
Definition consistent (w : World) : Prop :=
  forall id f,
    proposedFixes w !! id = Some f ->
    fix_id f = id
    /\ exists l m,
         errorLogs w !! errorLogId f = Some l
         /\ List.find (fun m => String.eqb (msg_id m) (messageId l)) (messages w) = Some m.

(** The messages of a project, oldest first. *)
Definition project_messages (pid : string) (w : World) : list Message :=
  List.filter (fun m => String.eqb (projectId m) pid) (messages w).

Section Surface.

Context {env : Collaborators}.

(** The files [fs] are all written without error, starting from the log
    [log]. *)
Fixpoint all_written (log : list SandboxOp) (sid : string) (fs : list FileEntry) : bool :=
  match fs with
  | [] => true
  | f :: rest =>
      match write_fault log sid (path f) (file_content f) with
      | None => all_written (log ++ [op_write sid f]) sid rest
      | Some _ => false
      end
  end.

End Surface.

(** Further sample data. *)

Module Scenario.

(** A second project, of another user, with a fix of its own; and a second,
    older fix in the project of [user_1]. *)
Definition world : World :=
  {| projects := {[ "proj_1" := Sample.project;
                    "proj_2" := {| project_id := "proj_2"; userId := "user_2" |} ]};
     messages := [ Sample.failure;
                   {| msg_id := "msg_2"; projectId := "proj_2";
                      content := "Error occurred: Error: lint failed";
                      role := ASSISTANT; msg_type := ERROR |};
                   {| msg_id := "msg_3"; projectId := "proj_1";
                      content := "Error occurred: Error: test failed";
                      role := ASSISTANT; msg_type := ERROR |} ];
     fragments := ∅;
     errorLogs := {[ "log_1" := Sample.log;
                     "log_2" := {| log_id := "log_2"; messageId := "msg_2";
                                   log_category := SYNTAX; log_severity := LOW;
                                   errorData := JNull;
                                   log_diagnostic := "Lint error" |};
                     "log_3" := {| log_id := "log_3"; messageId := "msg_3";
                                   log_category := LOGIC; log_severity := HIGH;
                                   errorData := JNull;
                                   log_diagnostic := "Failing test" |} ]};
     proposedFixes :=
       {[ "fix_1" := Sample.proposed Sample.install PENDING;
          "fix_2" := {| fix_id := "fix_2"; errorLogId := "log_2";
                        description := "Run the formatter";
                        fixData := Sample.install; reasoning := "Style only";
                        fix_confidence := Sample.c0_9; status := PENDING;
                        reviewedBy := None; reviewedAt := None; feedback := None |};
          "fix_3" := {| fix_id := "fix_3"; errorLogId := "log_3";
                        description := "Fix the assertion";
                        fixData := Sample.install; reasoning := "Off by one";
                        fix_confidence := Sample.c0_5; status := APPROVED;
                        reviewedBy := Some "user_1"; reviewedAt := Some 500%Z;
                        feedback := Some "Fix applied successfully" |} ]};
     nextId := 9; agentCalls := []; sandboxOps := [] |}.

(** Creation times: [fix_3] is the newest. *)
Definition createdAt (id : string) : Z :=
  if String.eqb id "fix_1" then 100
  else if String.eqb id "fix_2" then 200
  else 300.

(** A conversation of seven messages in one project. *)
Definition chat (n : nat) : Message :=
  {| msg_id := Sample.numbered n; projectId := "proj_1";
     content := Sample.numbered n;
     role := if Nat.even n then USER else ASSISTANT; msg_type := RESULT |}.

Definition long_conversation : World :=
  {| projects := {[ "proj_1" := Sample.project ]};
     messages := map chat [1; 2; 3; 4; 5; 6; 7];
     fragments := ∅; errorLogs := ∅; proposedFixes := ∅;
     nextId := 8; agentCalls := []; sandboxOps := [] |}.

Definition write_all : FixData :=
  {| fixType := "fileChange"; commands := None;
     files := Some [ {| path := "a.ts"; file_content := "export const a = 1" |};
                     {| path := "b.ts"; file_content := "export const b = 2" |} ] |}.

Definition mystery : FixData :=
  {| fixType := "patch"; commands := Some ["rm -rf node_modules"]; files := None |}.

(** The sandbox cannot be reached. *)
Definition offline : Collaborators :=
  {| cuid := Sample.numbered; agent_run := Sample.agent_down;
     ERROR_ANALYSIS_PROMPT := "Classify the error.";
     FIX_GENERATION_PROMPT := "Propose a fix.";
     JSON_stringify := Sample.stringify;
     JSON_parse := fun _ => None;
     JSON_parse_fixData := fun _ => None;
     ToNumber := Sample.not_a_number;
     getSandbox_fault := fun _ => Some "Error: sandbox not found";
     run_fault := Sample.no_fault3;
     write_fault := Sample.no_fault4 |}.

(** The backend answers the diagnosis, but its fix draft does not parse. *)
Definition without_draft : Collaborators :=
  Sample.collaborators Sample.agent_up
    (Sample.parse (Some (diagnosis_json Sample.diagnosis)) None) (fun _ => None)
    Sample.no_fault3.

(** The row of the fix of [Sample.world] in the lists. *)
Definition row (data : FixData) (st : ApprovalStatus) : Approval :=
  {| approval_fix := Sample.proposed data st; approval_errorLog := Sample.log;
     approval_message := Sample.failure |}.

End Scenario.

Section Properties.

Context {env : Collaborators}.

(** ** The error handler: properties *)

Lemma analyzeError_run errData w :
  analyzeError errData w
  = (analysis_of errData, set_agentCalls (agentCalls w ++ [analysis_call errData]) w).
Proof.
  unfold analysis_of, analyzeError, agent_call, bind, analysis_call.
  destruct (agent_run _ _ _) as [output|]; [|reflexivity].
  destruct (JSON_parse output); reflexivity.
Qed.

Lemma generateFix_run errorAnalysis errData w :
  generateFix errorAnalysis errData w
  = (draft_of errorAnalysis errData,
     set_agentCalls (agentCalls w ++ [fix_call errorAnalysis errData]) w).
Proof.
  unfold draft_of, generateFix, agent_call, bind, fix_call.
  destruct (agent_run _ _ _) as [output|]; [|reflexivity].
  destruct (JSON_parse output); reflexivity.
Qed.

Lemma backend_fails_fallback errData :
  backend_fails errData -> analysis_of errData = fallbackAnalysis.
Proof.
  unfold backend_fails, analysis_of, analyzeError, agent_call, bind.
  destruct (agent_run _ _ _) as [output|]; [|reflexivity].
  intros ->. reflexivity.
Qed.

Ltac fold_inputs :=
  repeat match goal with
    | |- context [JObj [("error", JStr ?e); ("context", ?c); ("timestamp", JStr ?t)]] =>
        change (JObj [("error", JStr e); ("context", c); ("timestamp", JStr t)])
          with (analysis_input e c t)
    | |- context [JObj [("error", JStr ?e); ("context", ?c)]] =>
        change (JObj [("error", JStr e); ("context", c)]) with (fix_input e c)
    end.

(** Every run of [handleError], by what the backend answered: the entry
    returned and the world left. *)
Lemma handleError_run error context pid timestamp w :
  let input := analysis_input error context timestamp in
  let a := analysis_of input in
  let p := draft_of a (fix_input error context) in
  let entry := errorMessage_at w error pid in
  handleError error context pid timestamp w
  = match errorLog_columns a with
    | None =>
        (fallbackMessage_at w 1 pid,
         handled w [entry; fallbackMessage_at w 1 pid] (errorLogs w) (proposedFixes w) 2
           [analysis_call input])
    | Some (c, s, diag) =>
        let logs :=
          <[cuid (S (nextId w)) := errorLog_at w error context a c s diag]> (errorLogs w) in
        let caught (calls : list AgentCall) :=
          (fallbackMessage_at w 2 pid,
           handled w [entry; fallbackMessage_at w 2 pid] logs (proposedFixes w) 3 calls) in
        match confident a with
        | None => caught [analysis_call input]
        | Some false =>
            (entry, handled w [entry] logs (proposedFixes w) 2 [analysis_call input])
        | Some true =>
            let calls := [analysis_call input; fix_call a (fix_input error context)] in
            if js_truthy (Some (draft_value p)) then
              match auto_apply a p, proposedFix_columns p with
              | Some true, Some draft =>
                  (entry,
                   handled w [entry] logs
                     (<[cuid (S (S (nextId w))) := proposedFix_at w draft AUTO_FIXED]>
                        (proposedFixes w))
                     3 calls)
              | Some false, Some draft =>
                  (entry,
                   handled w [entry; request_at w pid draft] logs
                     (<[cuid (S (S (nextId w))) := proposedFix_at w draft PENDING]>
                        (proposedFixes w))
                     4 calls)
              | _, _ => caught calls
              end
            else (entry, handled w [entry] logs (proposedFixes w) 2 calls)
        end
    end.
Proof.
  intros input a p entry.
  cbv beta iota zeta delta
    [handleError handle_steps bind message_create errorLog_create proposedFix_create
     fresh_id ret].
  rewrite analyzeError_run. cbv beta iota zeta. fold_inputs. fold input. fold a.
  destruct (errorLog_columns a) as [[[c s] diag]|]; cbv beta iota zeta;
    [|unfold handled; cbn; rewrite <- !app_assoc; reflexivity].
  destruct (confident a) as [[|]|]; cbv beta iota zeta;
    [|unfold handled; cbn; rewrite <- ?app_assoc; reflexivity..].
  rewrite generateFix_run. cbv beta iota zeta. fold p.
  destruct (js_truthy (Some (draft_value p)));
    [|unfold handled; cbn; rewrite <- ?app_assoc; reflexivity].
  destruct (auto_apply a p) as [[|]|], (proposedFix_columns p) as [draft|];
    cbv beta iota zeta; unfold handled; cbn; rewrite <- ?app_assoc; reflexivity.
Qed.

Lemma as_category_name c : as_category (Some (JStr (category_name c))) = Some c.
Proof. destruct c; reflexivity. Qed.

Lemma as_severity_name s : as_severity (Some (JStr (severity_name s))) = Some s.
Proof. destruct s; reflexivity. Qed.

Lemma is_LOW_name s : is_string "LOW" (Some (JStr (severity_name s))) = is_LOW s.
Proof. destruct s; reflexivity. Qed.

(** What the handler reads from a well-formed diagnosis. *)
Lemma is_diagnosis_reads a d :
  is_diagnosis a d ->
  errorLog_columns a = Some (category d, severity d, diagnostic d)
  /\ confident a = Some (canAutoFix d && gt (confidence d) c0_7)
  /\ is_string "LOW" (member "severity" a) = is_LOW (severity d).
Proof.
  intros (Hc & Hs & Hd & Hf & Hn).
  unfold errorLog_columns, confident. rewrite Hc, Hs, Hd, Hf, Hn.
  rewrite as_category_name, as_severity_name, is_LOW_name.
  destruct a; try discriminate Hc. cbn.
  split; [reflexivity|]. split; [|reflexivity].
  destruct (canAutoFix d); reflexivity.
Qed.

(** What the handler reads from a well-formed draft. *)
Lemma is_draft_reads a p draft :
  is_draft p draft ->
  js_truthy (Some (draft_value p)) = true
  /\ proposedFix_columns p = Some draft
  /\ auto_apply a p
     = Some (is_string "LOW" (member "severity" a) && gt (draft_confidence draft) c0_8).
Proof.
  intros (Hd & Hr & Hn & Hp).
  unfold proposedFix_columns, auto_apply. rewrite Hd, Hr, Hn, Hp. cbn.
  split; [destruct (draft_value p); try discriminate Hd; reflexivity|].
  split; [destruct draft; reflexivity|].
  destruct (is_string "LOW" (member "severity" a)); reflexivity.
Qed.

Lemma handleError_declined error context pid timestamp w d :
  let input := analysis_input error context timestamp in
  let a := analysis_of input in
  is_diagnosis a d ->
  canAutoFix d && gt (confidence d) c0_7 = false ->
  handleError error context pid timestamp w
  = (errorMessage_at w error pid,
     handled w [errorMessage_at w error pid]
       (<[cuid (S (nextId w)) :=
            errorLog_at w error context a (category d) (severity d) (diagnostic d)]>
          (errorLogs w))
       (proposedFixes w) 2 [analysis_call input]).
Proof.
  intros input a Hd Hgate. rewrite handleError_run. fold input. fold a.
  destruct (is_diagnosis_reads a d Hd) as (-> & -> & _). rewrite Hgate. reflexivity.
Qed.

Lemma handleError_no_draft error context pid timestamp w d :
  let input := analysis_input error context timestamp in
  let a := analysis_of input in
  is_diagnosis a d ->
  canAutoFix d && gt (confidence d) c0_7 = true ->
  js_truthy (Some (draft_value (draft_of a (fix_input error context)))) = false ->
  handleError error context pid timestamp w
  = (errorMessage_at w error pid,
     handled w [errorMessage_at w error pid]
       (<[cuid (S (nextId w)) :=
            errorLog_at w error context a (category d) (severity d) (diagnostic d)]>
          (errorLogs w))
       (proposedFixes w) 2 [analysis_call input; fix_call a (fix_input error context)]).
Proof.
  intros input a Hd Hgate Hdraft. rewrite handleError_run. fold input. fold a.
  destruct (is_diagnosis_reads a d Hd) as (-> & -> & _). rewrite Hgate.
  cbv beta iota zeta. rewrite Hdraft. reflexivity.
Qed.

Lemma handleError_drafted error context pid timestamp w d draft :
  let input := analysis_input error context timestamp in
  let a := analysis_of input in
  let auto := is_LOW (severity d) && gt (draft_confidence draft) c0_8 in
  is_diagnosis a d ->
  canAutoFix d && gt (confidence d) c0_7 = true ->
  is_draft (draft_of a (fix_input error context)) draft ->
  handleError error context pid timestamp w
  = (errorMessage_at w error pid,
     handled w
       (if auto then [errorMessage_at w error pid]
        else [errorMessage_at w error pid; request_at w pid draft])
       (<[cuid (S (nextId w)) :=
            errorLog_at w error context a (category d) (severity d) (diagnostic d)]>
          (errorLogs w))
       (<[cuid (S (S (nextId w))) :=
            proposedFix_at w draft (if auto then AUTO_FIXED else PENDING)]>
          (proposedFixes w))
       (if auto then 3 else 4)
       [analysis_call input; fix_call a (fix_input error context)]).
Proof.
  intros input a auto Hd Hgate Hdraft. rewrite handleError_run. fold input. fold a.
  destruct (is_diagnosis_reads a d Hd) as (-> & -> & Hlow). rewrite Hgate.
  cbv beta iota zeta.
  destruct (is_draft_reads a _ draft Hdraft) as (-> & -> & ->). rewrite Hlow.
  fold auto. destruct auto; reflexivity.
Qed.

(** [x <= y] excludes [y < x], NaN included. *)
Lemma le_not_gt (x y : number) : le x y = true -> gt x y = false.
Proof.
  unfold le, gt, SFleb, SFltb.
  destruct x as [sx|sx| |sx mx ex], y as [sy|sy| |sy my ey]; cbn;
    try destruct sx; try destruct sy; try reflexivity; try discriminate;
    pose proof (Z.compare_antisym ex ey) as HZ;
    pose proof (Pos.compare_cont_antisym mx my Eq) as HP; cbn in HP;
    destruct (ex ?= ey)%Z, (ey ?= ex)%Z,
      (Pos.compare_cont Eq mx my), (Pos.compare_cont Eq my mx);
    cbn in *; congruence.
Qed.

Lemma is_LOW_spec (s : ErrorSeverity) : is_LOW s = true <-> s = LOW.
Proof. destruct s; cbn; split; congruence. Qed.

(** The handler never touches the sandbox. *)
Lemma handleError_leaves_sandbox error context pid timestamp w :
  sandboxOps (snd (handleError error context pid timestamp w)) = sandboxOps w.
Proof.
  rewrite handleError_run. cbv zeta.
  destruct (errorLog_columns _) as [[[c s] diag]|]; [|reflexivity].
  destruct (confident _) as [[|]|]; try reflexivity.
  destruct (js_truthy _); [|reflexivity].
  destruct (auto_apply _ _) as [[|]|]; [destruct (proposedFix_columns _)..|]; reflexivity.
Qed.

(** C2. For every well-formed fix draft that was generated, the proposed fix
    is created with status AUTO_FIXED exactly when the diagnosed severity is
    LOW and the draft's own confidence is strictly greater than 0.8; in every
    other case it is created with status PENDING. *)
Theorem created_fix_status error context pid timestamp w d draft :
  let a := analysis_of (analysis_input error context timestamp) in
  is_diagnosis a d ->
  canAutoFix d && gt (confidence d) c0_7 = true ->
  is_draft (draft_of a (fix_input error context)) draft ->
  exists f,
    proposedFixes (snd (handleError error context pid timestamp w))
      = <[fix_id f := f]> (proposedFixes w)
    /\ description f = draft_description draft
    /\ fixData f = draft_fixData draft
    /\ reasoning f = draft_reasoning draft
    /\ fix_confidence f = draft_confidence draft
    /\ (status f = AUTO_FIXED
        <-> severity d = LOW /\ gt (draft_confidence draft) c0_8 = true)
    /\ (status f = PENDING
        <-> ~ (severity d = LOW /\ gt (draft_confidence draft) c0_8 = true)).
Proof.
  intros a Hd Hgate Hdraft.
  rewrite (handleError_drafted _ _ _ _ _ d draft Hd Hgate Hdraft).
  cbn [snd proposedFixes handled].
  eexists (proposedFix_at w draft _). cbn.
  split; [reflexivity|]. repeat (split; [reflexivity|]).
  rewrite <- is_LOW_spec, <- andb_true_iff.
  destruct (is_LOW (severity d) && gt (draft_confidence draft) c0_8);
    split; split; intros; try congruence; try reflexivity.
Qed.

(** C4. When the diagnosis has canAutoFix false, or a confidence of at most
    0.7, fix generation is not invoked (the only backend call is the
    diagnosis) and no proposed fix is created.  This holds for a well-formed
    diagnosis, and as well for a value of any other shape whose member
    canAutoFix is falsy or whose member confidence is a number of at most
    0.7, whether the handler then ends in its [catch] or not. *)
Theorem no_fix_without_confident_diagnosis error context pid timestamp w :
  let a := analysis_of (analysis_input error context timestamp) in
  let w' := snd (handleError error context pid timestamp w) in
  let declined :=
    proposedFixes w' = proposedFixes w
    /\ exists calls : list AgentCall,
         agentCalls w' = (agentCalls w ++ calls)%list
         /\ Forall (fun c => agent c = "error-analyzer") calls in
  (forall d,
     is_diagnosis a d ->
     canAutoFix d = false \/ le (confidence d) c0_7 = true ->
     declined)
  /\ (js_truthy (member "canAutoFix" a) = false
      \/ (exists x, member "confidence" a = Some (JNum x) /\ le x c0_7 = true) ->
      declined).
Proof.
  intros a w' declined.
  assert (js_truthy (member "canAutoFix" a) = false
          \/ (exists x, member "confidence" a = Some (JNum x) /\ le x c0_7 = true) ->
          declined) as Hany.
  { intros Hor.
    assert (confident a = Some false) as Hgate.
    { unfold confident. destruct Hor as [->|(x & -> & Hle)]; [reflexivity|].
      cbn. rewrite (le_not_gt _ _ Hle). destruct (js_truthy _); reflexivity. }
    subst declined w'. rewrite handleError_run. cbv zeta. fold a.
    destruct (errorLog_columns a) as [[[c s] diag]|]; [rewrite Hgate|]; cbn;
      (split; [reflexivity|]); (eexists; split; [reflexivity|]);
      (constructor; [reflexivity|constructor]). }
  split; [|exact Hany].
  intros d (_ & _ & _ & Hf & Hn) Hor. apply Hany.
  destruct Hor as [Hfalse|Hle].
  - left. rewrite Hf, Hfalse. reflexivity.
  - right. exists (confidence d). split; [exact Hn|exact Hle].
Qed.

(** C8. When the diagnosis call fails (the backend rejects or its output does
    not parse), [analyzeError] returns the fixed fallback instead of
    throwing, and the error log is created with category INFRASTRUCTURE and
    severity HIGH. *)
Theorem analysis_failure_fallback error context pid timestamp w :
  backend_fails (analysis_input error context timestamp) ->
  fst (analyzeError (analysis_input error context timestamp) w)
  = JObj [("category", JStr "INFRASTRUCTURE");
          ("severity", JStr "HIGH");
          ("diagnostic", JStr "Failed to analyze error");
          ("canAutoFix", JBool false);
          ("confidence", JNum (S754_zero false));
          ("suggestedActions", JArr [JStr "Manual review required"])]
  /\ exists l,
       errorLogs (snd (handleError error context pid timestamp w))
         = <[log_id l := l]> (errorLogs w)
       /\ messageId l = msg_id (fst (handleError error context pid timestamp w))
       /\ log_category l = INFRASTRUCTURE
       /\ log_severity l = HIGH
       /\ log_diagnostic l = "Failed to analyze error"
       /\ proposedFixes (snd (handleError error context pid timestamp w))
          = proposedFixes w.
Proof.
  intros Hfail. pose proof (backend_fails_fallback _ Hfail) as Ha.
  rewrite analyzeError_run, Ha. split; [reflexivity|].
  rewrite handleError_run, Ha. cbv zeta.
  change (errorLog_columns fallbackAnalysis)
    with (Some (INFRASTRUCTURE, HIGH, "Failed to analyze error")).
  change (confident fallbackAnalysis) with (Some false).
  eexists (errorLog_at w error context fallbackAnalysis INFRASTRUCTURE HIGH
             "Failed to analyze error").
  cbn. repeat (split; [reflexivity|]). reflexivity.
Qed.

(** C9. Whenever the proposed fix is created with status PENDING, the
    handler also creates a conversation entry of type APPROVAL_REQUEST whose
    content is the serialized payload [{type: "approval_request", errorLogId,
    description, reasoning, confidence}], with the id of the error log and
    the fix's description, rationale and confidence. *)
Theorem pending_fix_has_approval_request error context pid timestamp w d draft :
  let a := analysis_of (analysis_input error context timestamp) in
  let w' := snd (handleError error context pid timestamp w) in
  is_diagnosis a d ->
  canAutoFix d && gt (confidence d) c0_7 = true ->
  is_draft (draft_of a (fix_input error context)) draft ->
  is_LOW (severity d) && gt (draft_confidence draft) c0_8 = false ->
  exists (f : ProposedFix) (l : ErrorLog) (request : Message),
    proposedFixes w' = <[fix_id f := f]> (proposedFixes w)
    /\ status f = PENDING
    /\ errorLogs w' = <[log_id l := l]> (errorLogs w)
    /\ errorLogId f = log_id l
    /\ messages w'
       = ((messages w ++ [fst (handleError error context pid timestamp w)]) ++ [request])%list
    /\ msg_type request = APPROVAL_REQUEST
    /\ role request = ASSISTANT
    /\ projectId request = pid
    /\ content request
       = JSON_stringify
           (JObj [("type", JStr "approval_request");
                  ("errorLogId", JStr (log_id l));
                  ("description", JStr (description f));
                  ("reasoning", JStr (reasoning f));
                  ("confidence", JNum (fix_confidence f))]).
Proof.
  intros a w' Hd Hgate Hdraft Hpolicy. subst w'.
  rewrite (handleError_drafted _ _ _ _ _ d draft Hd Hgate Hdraft).
  rewrite Hpolicy. cbn [fst snd proposedFixes errorLogs messages handled].
  exists (proposedFix_at w draft PENDING),
         (errorLog_at w error context a (category d) (severity d) (diagnostic d)),
         (request_at w pid draft).
  cbn. rewrite <- app_assoc. repeat (split; [reflexivity|]). reflexivity.
Qed.


(** ** The fix executor: properties *)

Lemma set_sandboxOps_id w : set_sandboxOps (sandboxOps w) w = w.
Proof. destruct w; reflexivity. Qed.

Lemma only_sandbox_refl w : only_sandbox w w.
Proof. exists []. rewrite app_nil_r, set_sandboxOps_id. reflexivity. Qed.

Lemma only_sandbox_trans w1 w2 w3 :
  only_sandbox w1 w2 -> only_sandbox w2 w3 -> only_sandbox w1 w3.
Proof.
  intros [a ->] [b ->]. exists (a ++ b)%list. cbn. rewrite app_assoc. reflexivity.
Qed.

Lemma frames_ret {A} (a : A) : frames (ret a).
Proof. intros w. apply only_sandbox_refl. Qed.

Lemma frames_bind {A B} (m : M A) (k : A -> M B) :
  frames m -> (forall a, frames (k a)) -> frames (bind m k).
Proof.
  intros Hm Hk w. unfold bind. specialize (Hm w).
  destruct (m w) as [a w1]. eapply only_sandbox_trans; [exact Hm|apply Hk].
Qed.

(** A loop over commands runs a prefix of them, and all of them when nothing
    is thrown. *)
Lemma run_commands_shape sid cs w :
  exists n,
    snd (run_commands sid cs w)
    = set_sandboxOps (sandboxOps w ++ map (OpRun sid) (firstn n cs)) w
    /\ (fst (run_commands sid cs w) = None -> firstn n cs = cs).
Proof.
  revert w. induction cs as [|c rest IH]; intros w.
  - exists 0. cbn. rewrite app_nil_r, set_sandboxOps_id. auto.
  - cbn [run_commands]. unfold bind, sandbox_run.
    destruct (run_fault (sandboxOps w) sid c) as [e|].
    + exists 1. cbn. split; [reflexivity|discriminate].
    + destruct (IH (set_sandboxOps (sandboxOps w ++ [OpRun sid c]) w)) as (n & Hw & Hall).
      exists (S n). rewrite Hw. cbn. rewrite <- app_assoc. split; [reflexivity|].
      intros Hnone. rewrite (Hall Hnone). reflexivity.
Qed.

Lemma write_files_shape sid fs w :
  exists m,
    snd (write_files sid fs w)
    = set_sandboxOps (sandboxOps w ++ map (op_write sid) (firstn m fs)) w
    /\ (fst (write_files sid fs w) = None -> firstn m fs = fs).
Proof.
  revert w. induction fs as [|f rest IH]; intros w.
  - exists 0. cbn. rewrite app_nil_r, set_sandboxOps_id. auto.
  - cbn [write_files]. unfold bind, sandbox_write.
    destruct (write_fault (sandboxOps w) sid (path f) (file_content f)) as [e|].
    + exists 1. cbn. split; [reflexivity|discriminate].
    + destruct (IH (set_sandboxOps (sandboxOps w ++ [OpWrite sid (path f) (file_content f)]) w))
        as (m & Hw & Hall).
      exists (S m). rewrite Hw. cbn. rewrite <- app_assoc. split; [reflexivity|].
      intros Hnone. rewrite (Hall Hnone). reflexivity.
Qed.

Lemma frames_run_commands sid cs : frames (run_commands sid cs).
Proof. intros w. destruct (run_commands_shape sid cs w) as (n & -> & _). eexists; reflexivity. Qed.

Lemma frames_write_files sid fs : frames (write_files sid fs).
Proof. intros w. destruct (write_files_shape sid fs w) as (n & -> & _). eexists; reflexivity. Qed.

Ltac frames_tac :=
  repeat first
    [ apply frames_ret
    | apply frames_run_commands
    | apply frames_write_files
    | apply frames_bind; [|intros ?]
    | match goal with
      | |- frames (if ?b then _ else _) => destruct b
      | |- frames (match ?o with Some _ => _ | None => _ end) => destruct o
      end ].

(** The executor changes nothing but the sandbox log. *)
Lemma frames_executeProposedFix proposedFix sandboxId :
  frames (executeProposedFix proposedFix sandboxId).
Proof.
  unfold executeProposedFix, execute_steps, with_sandbox. frames_tac.
Qed.

(** The loop stops at the first command that throws. *)
Lemma run_commands_fault sid pre c post e w :
  all_run (sandboxOps w) sid pre = true ->
  run_fault (sandboxOps w ++ map (OpRun sid) pre) sid c = Some e ->
  run_commands sid (pre ++ c :: post) w
  = (Some e, set_sandboxOps (sandboxOps w ++ map (OpRun sid) pre ++ [OpRun sid c]) w).
Proof.
  revert w. induction pre as [|p pre IH]; intros w Hpre Hc.
  - cbn in *. rewrite app_nil_r in Hc. unfold bind, sandbox_run. rewrite Hc. reflexivity.
  - cbn in Hpre. cbn [app run_commands]. unfold bind at 1, sandbox_run at 1.
    destruct (run_fault (sandboxOps w) sid p); [discriminate|].
    rewrite IH.
    + cbn. rewrite <- app_assoc. reflexivity.
    + exact Hpre.
    + cbn. rewrite <- app_assoc. exact Hc.
Qed.

Lemma run_commands_none sid cs w :
  fst (run_commands sid cs w) = None <-> all_run (sandboxOps w) sid cs = true.
Proof.
  revert w. induction cs as [|c rest IH]; intros w; cbn [run_commands all_run].
  - cbn. split; intros _; reflexivity.
  - unfold bind, sandbox_run.
    destruct (run_fault (sandboxOps w) sid c) as [e|]; cbn.
    + split; discriminate.
    + apply (IH (set_sandboxOps (sandboxOps w ++ [OpRun sid c]) w)).
Qed.

Lemma write_files_none sid fs w :
  fst (write_files sid fs w) = None <-> all_written (sandboxOps w) sid fs = true.
Proof.
  revert w. induction fs as [|f rest IH]; intros w; cbn [write_files all_written].
  - cbn. split; intros _; reflexivity.
  - unfold bind, sandbox_write.
    destruct (write_fault (sandboxOps w) sid (path f) (file_content f)) as [e|]; cbn.
    + split; discriminate.
    + apply (IH (set_sandboxOps (sandboxOps w ++ [OpWrite sid (path f) (file_content f)]) w)).
Qed.

Lemma write_files_fault sid pre f post e w :
  all_written (sandboxOps w) sid pre = true ->
  write_fault (sandboxOps w ++ map (op_write sid) pre) sid (path f) (file_content f)
  = Some e ->
  write_files sid (pre ++ f :: post) w
  = (Some e, set_sandboxOps (sandboxOps w ++ map (op_write sid) pre ++ [op_write sid f]) w).
Proof.
  revert w. induction pre as [|p pre IH]; intros w Hpre Hf.
  - cbn in *. rewrite app_nil_r in Hf. unfold bind, sandbox_write. rewrite Hf. reflexivity.
  - cbn in Hpre. cbn [app write_files]. unfold bind at 1, sandbox_write at 1.
    destruct (write_fault (sandboxOps w) sid (path p) (file_content p)); [discriminate|].
    rewrite IH.
    + cbn. rewrite <- app_assoc. reflexivity.
    + exact Hpre.
    + cbn. rewrite <- app_assoc. exact Hf.
Qed.

(** C6. For a multiStep payload with both commands and files, the executor
    runs the commands in their listed order and only then writes files: the
    sandbox sees a prefix of the commands followed by a prefix of the writes,
    and a write only after every command has run without error.  When a
    command throws, the commands after it are skipped, no file is written,
    and the executor returns a failure result carrying the error.  On a
    sandbox that can be reached, the execution succeeds exactly when every
    command and then every write goes through, and the sandbox has then seen
    all the commands, in their order, followed by all the files, in theirs;
    as soon as the commands pass, all of them have run before the first
    write, and at the first write that throws the later files are left
    unwritten and the error is returned. *)
Theorem multiStep_commands_before_files proposedFix sandboxId w cs fs :
  fixType (fixData proposedFix) = "multiStep" ->
  commands (fixData proposedFix) = Some cs ->
  files (fixData proposedFix) = Some fs ->
  let r := fst (executeProposedFix proposedFix sandboxId w) in
  let w' := snd (executeProposedFix proposedFix sandboxId w) in
  (exists sid n m,
     w' = set_sandboxOps
            (sandboxOps w ++ map (OpRun sid) (firstn n cs)
                          ++ map (op_write sid) (firstn m fs)) w
     /\ (firstn m fs <> [] ->
         firstn n cs = cs /\ all_run (sandboxOps w) sid cs = true)
     /\ (success r = true -> firstn n cs = cs /\ firstn m fs = fs))
  /\ (forall sid pre c post e,
        sandboxId = Some sid -> truthy sid = true -> getSandbox_fault sid = None ->
        cs = (pre ++ c :: post)%list ->
        all_run (sandboxOps w) sid pre = true ->
        run_fault (sandboxOps w ++ map (OpRun sid) pre) sid c = Some e ->
        r = {| success := false; exec_error := Some e |}
        /\ w' = set_sandboxOps (sandboxOps w ++ map (OpRun sid) pre ++ [OpRun sid c]) w)
  /\ (forall sid,
        sandboxId = Some sid -> truthy sid = true -> getSandbox_fault sid = None ->
        (success r = true
         <-> all_run (sandboxOps w) sid cs = true
             /\ all_written (sandboxOps w ++ map (OpRun sid) cs) sid fs = true)
        /\ (success r = true ->
            r = {| success := true; exec_error := None |}
            /\ w' = set_sandboxOps
                      (sandboxOps w ++ map (OpRun sid) cs ++ map (op_write sid) fs) w)
        /\ (all_run (sandboxOps w) sid cs = true ->
            exists m,
              w' = set_sandboxOps
                     (sandboxOps w ++ map (OpRun sid) cs
                                   ++ map (op_write sid) (firstn m fs)) w)
        /\ (forall pre f post e,
              fs = (pre ++ f :: post)%list ->
              all_run (sandboxOps w) sid cs = true ->
              all_written (sandboxOps w ++ map (OpRun sid) cs) sid pre = true ->
              write_fault (sandboxOps w ++ map (OpRun sid) cs ++ map (op_write sid) pre)
                sid (path f) (file_content f) = Some e ->
              r = {| success := false; exec_error := Some e |}
              /\ w' = set_sandboxOps
                        (sandboxOps w ++ map (OpRun sid) cs ++ map (op_write sid) pre
                                      ++ [op_write sid f]) w)).
Proof.
  intros Htype Hcs Hfs r w'. subst r w'.
  unfold executeProposedFix, execute_steps. rewrite Htype, Hcs, Hfs.
  cbn [String.eqb Ascii.eqb Bool.eqb]. unfold with_sandbox.
  assert (forall thrown : string,
            exists (sid : string) (n m : nat),
              snd (bind (ret (Some thrown))
                     (fun t => match t with
                               | Some e => ret {| success := false; exec_error := Some e |}
                               | None => ret {| success := true; exec_error := None |}
                               end) w)
              = set_sandboxOps
                  (sandboxOps w ++ map (OpRun sid) (firstn n cs)
                                ++ map (op_write sid) (firstn m fs)) w
              /\ (firstn m fs <> [] ->
                  firstn n cs = cs /\ all_run (sandboxOps w) sid cs = true)
              /\ (success
                    (fst (bind (ret (Some thrown))
                            (fun t => match t with
                                      | Some e => ret {| success := false; exec_error := Some e |}
                                      | None => ret {| success := true; exec_error := None |}
                                      end) w)) = true ->
                  firstn n cs = cs /\ firstn m fs = fs)) as Hidle.
  { intros thrown. exists "", 0, 0. cbn.
    rewrite app_nil_r, set_sandboxOps_id.
    split; [reflexivity|].
    split; [intros H; exfalso; apply H; reflexivity|discriminate]. }
  split; [|split].
  - destruct sandboxId as [sid|]; [|apply Hidle].
    destruct (truthy sid); [|apply Hidle].
    destruct (getSandbox_fault sid) as [e0|]; [apply Hidle|].
    exists sid. unfold bind.
    destruct (run_commands_shape sid cs w) as (n & Hw1 & Hn).
    pose proof (run_commands_none sid cs w) as Hall.
    destruct (run_commands sid cs w) as [[e|] w1]; cbn [fst snd] in *.
    + exists n, 0. cbn. rewrite app_nil_r.
      split; [exact Hw1|].
      split; [intros H; exfalso; apply H; reflexivity|discriminate].
    + destruct (write_files_shape sid fs w1) as (m & Hw2 & Hm).
      exists n, m.
      destruct (write_files sid fs w1) as [[e|] w2]; cbn [fst snd] in *;
        subst w2 w1; cbn; rewrite (Hn eq_refl), <- app_assoc;
        (split; [reflexivity|]); (split; [intros _; split; [reflexivity|apply Hall; reflexivity]|]);
        [discriminate|auto].
  - intros sid pre c post e -> Hsid Hconn -> Hpre Hc.
    rewrite Hsid, Hconn. unfold bind.
    rewrite (run_commands_fault sid pre c post e w Hpre Hc). cbn. auto.
  - intros sid -> Hsid Hconn. rewrite Hsid, Hconn. unfold bind.
    destruct (run_commands_shape sid cs w) as (n & Hw1 & Hn).
    pose proof (run_commands_none sid cs w) as Hall.
    destruct (run_commands sid cs w) as [[e|] w1]; cbn [fst snd] in *.
    + assert (all_run (sandboxOps w) sid cs = true -> False) as Hnot.
      { intros H. apply Hall in H. discriminate H. }
      cbn [fst snd success ret].
      split; [split; [discriminate|intros [H _]; destruct (Hnot H)]|].
      split; [discriminate|].
      split; [intros H; destruct (Hnot H)|].
      intros pre f post e' _ H. destruct (Hnot H).
    + rewrite (Hn eq_refl) in Hw1. subst w1.
      set (w1 := set_sandboxOps (sandboxOps w ++ map (OpRun sid) cs) w).
      assert (sandboxOps w1 = (sandboxOps w ++ map (OpRun sid) cs)%list) as Hops1
          by reflexivity.
      assert (forall ops, set_sandboxOps (sandboxOps w1 ++ ops) w1
                          = set_sandboxOps (sandboxOps w ++ map (OpRun sid) cs ++ ops) w)
        as Hset.
      { intros ops. subst w1. cbn. rewrite <- app_assoc. reflexivity. }
      destruct (write_files_shape sid fs w1) as (m & Hw2 & Hm).
      pose proof (write_files_none sid fs w1) as Hallw. rewrite Hops1 in Hallw.
      split; [|split; [|split]].
      * destruct (write_files sid fs w1) as [[e|] w2]; cbn [fst snd success ret] in *.
        -- split; [discriminate|]. intros [_ H]. apply Hallw in H. discriminate H.
        -- split; [intros _; split; [apply Hall|apply Hallw]; reflexivity|reflexivity].
      * destruct (write_files sid fs w1) as [[e|] w2]; cbn [fst snd success ret] in *.
        -- discriminate.
        -- intros _. split; [reflexivity|].
           rewrite Hw2, (Hm eq_refl). apply Hset.
      * intros _. exists m.
        destruct (write_files sid fs w1) as [[e|] w2]; cbn [fst snd] in *;
          rewrite Hw2; apply Hset.
      * intros pre f post e -> _ Hpre Hf.
        rewrite (write_files_fault sid pre f post e w1).
        -- cbn [fst snd ret]. split; [reflexivity|]. apply Hset.
        -- rewrite Hops1. exact Hpre.
        -- rewrite Hops1, <- app_assoc. exact Hf.
Qed.


(** ** The review procedures: properties *)

Lemma findUnique_world id w : snd (proposedFix_findUnique id w) = w.
Proof. reflexivity. Qed.

Lemma findUnique_row id w f inc :
  fst (proposedFix_findUnique id w) = Some (f, inc) -> proposedFixes w !! id = Some f.
Proof.
  unfold proposedFix_findUnique. cbn [fst].
  destruct (proposedFixes w !! id) as [f0|]; [|discriminate].
  intros [= <- _]. reflexivity.
Qed.

Lemma find_app_found {A} (p : A -> bool) (l l' : list A) (x : A) :
  List.find p l = Some x -> List.find p (l ++ l') = Some x.
Proof.
  induction l as [|a l IH]; cbn; [discriminate|].
  destruct (p a); [trivial|exact IH].
Qed.

(** What [findUnique] loads with a fix survives any change that keeps the
    other tables and only extends the conversation. *)
Lemma findUnique_stable id w w' f f' inc new :
  fst (proposedFix_findUnique id w) = Some (f, Some inc) ->
  proposedFixes w' !! id = Some f' ->
  errorLogId f' = errorLogId f ->
  errorLogs w' = errorLogs w ->
  projects w' = projects w ->
  fragments w' = fragments w ->
  messages w' = (messages w ++ new)%list ->
  fst (proposedFix_findUnique id w') = Some (f', Some inc).
Proof.
  unfold proposedFix_findUnique. cbn [fst].
  intros Hfound Hrow Hlog -> -> -> ->. rewrite Hrow, Hlog.
  destruct (proposedFixes w !! id) as [f0|]; [|discriminate].
  injection Hfound as -> Hinc.
  destruct (errorLogs w !! errorLogId f) as [l|]; [|discriminate].
  destruct (List.find _ (messages w)) as [m|] eqn:Hm; [|discriminate].
  rewrite (find_app_found _ _ new _ Hm).
  destruct (projects w !! projectId m); [|discriminate].
  exact (f_equal (fun i => Some (f', i)) Hinc).
Qed.

(** Once the row is not PENDING, both procedures stop at the status check. *)
Lemma refused_when_processed id u w f inc :
  truthy id = true ->
  fst (proposedFix_findUnique id w) = Some (f, Some inc) ->
  userId (inc_project inc) = u ->
  status f <> PENDING ->
  refuses_review w id u.
Proof.
  intros Hid Hfound Howner Hstatus fb reason now Hreason.
  assert (check_reviewable u (Some (f, Some inc)) = already_processed) as Hcheck.
  { unfold check_reviewable. rewrite Howner, String.eqb_refl. cbn.
    destruct (status f); [congruence|reflexivity..]. }
  unfold approveFix, rejectFix. cbn [proposedFixId reject_proposedFixId reject_feedback].
  rewrite Hid, Hreason. cbn [negb andb run].
  rewrite (surjective_pairing (proposedFix_findUnique id w)), Hfound, findUnique_world, Hcheck.
  split; reflexivity.
Qed.

Lemma run_approve_record input u now f inc r w f0 :
  proposedFixes w !! proposedFixId input = Some f0 ->
  let f' := reviewed f0 (if success r then APPROVED else PENDING) u now
              (or_else (approve_feedback input) (approve_feedback_text (success r))) in
  run (approve_record input u now f inc r) w
  = (Returned {| reply_success := success r; reply_proposedFix := f';
                 executionError := exec_error r |},
     after_review w (proposedFixId input) f'
       (projectId (inc_message inc)) (approve_message f r)).
Proof.
  intros Hrow f'. unfold approve_record, proposedFix_update. cbn [run].
  rewrite Hrow. reflexivity.
Qed.

Lemma check_reviewable_pending u f inc :
  userId (inc_project inc) = u ->
  status f = PENDING ->
  check_reviewable u (Some (f, Some inc)) = Returned (f, inc).
Proof.
  intros Howner Hstatus. unfold check_reviewable.
  rewrite Howner, String.eqb_refl, Hstatus. reflexivity.
Qed.

Lemma executeProposedFix_error proposedFix sandboxId w :
  success (fst (executeProposedFix proposedFix sandboxId w)) = false ->
  exists e, fst (executeProposedFix proposedFix sandboxId w)
            = {| success := false; exec_error := Some e |}.
Proof.
  unfold executeProposedFix, bind.
  destruct (execute_steps (fixData proposedFix) sandboxId w) as [[e|] w1]; cbn.
  - intros _. exists e. reflexivity.
  - discriminate.
Qed.

(** C5 (as the code has it). Approving or rejecting a fix whose status is not
    PENDING fails with BAD_REQUEST, message "Fix already processed", and
    changes nothing: the world after the call is the world before it, so the
    fix record is unchanged and no conversation entry is added. *)
Theorem processed_fix_is_refused id u w f inc :
  truthy id = true ->
  fst (proposedFix_findUnique id w) = Some (f, Some inc) ->
  userId (inc_project inc) = u ->
  status f <> PENDING ->
  forall (fb : option string) (reason : string) (now : Z),
    truthy reason = true ->
    run (approveFix {| proposedFixId := id; approve_feedback := fb |} u now) w
    = (Threw (TRPCError BAD_REQUEST "Fix already processed"), w)
    /\ run (rejectFix {| reject_proposedFixId := id; reject_feedback := reason |} u now) w
       = (Threw (TRPCError BAD_REQUEST "Fix already processed"), w).
Proof.
  intros Hid Hfound Howner Hstatus.
  exact (refused_when_processed id u w f inc Hid Hfound Howner Hstatus).
Qed.

(** C7. When approval triggers the execution of the fix and the execution
    fails, the fix is written back with status PENDING, together with the
    reviewer, the time of the review and a feedback text (the caller's, or
    "Fix failed to apply" when there is none), and a conversation entry
    describing the failure is appended. *)
Theorem failed_execution_keeps_fix_pending input u now w f inc url :
  truthy (proposedFixId input) = true ->
  fst (proposedFix_findUnique (proposedFixId input) w) = Some (f, Some inc) ->
  userId (inc_project inc) = u ->
  status f = PENDING ->
  fragment_sandboxUrl (inc_fragment inc) = Some url ->
  success (fst (executeProposedFix f (Some (split_dot_head url)) w)) = false ->
  exists (e : string) (updated : ProposedFix) (entry : Message) (w' : World),
    run (approveFix input u now) w
    = (Returned {| reply_success := false; reply_proposedFix := updated;
                   executionError := Some e |}, w')
    /\ exec_error (fst (executeProposedFix f (Some (split_dot_head url)) w)) = Some e
    /\ proposedFixes w' = <[proposedFixId input := updated]> (proposedFixes w)
    /\ status updated = PENDING
    /\ reviewedBy updated = Some u
    /\ reviewedAt updated = Some now
    /\ feedback updated = Some (or_else (approve_feedback input) "Fix failed to apply")
    /\ (approve_feedback input = None -> feedback updated = Some "Fix failed to apply")
    /\ description updated = description f /\ fixData updated = fixData f
    /\ messages w' = (messages w ++ [entry])%list
    /\ content entry = "❌ Fix failed: " ++ description f ++ ". Error: " ++ e
    /\ role entry = ASSISTANT
    /\ msg_type entry = RESULT
    /\ projectId entry = projectId (inc_message inc).
Proof.
  intros Hid Hfound Howner Hstatus Hurl Hfail.
  destruct (executeProposedFix_error _ _ _ Hfail) as [e He].
  destruct (frames_executeProposedFix f (Some (split_dot_head url)) w) as [ops Hw1].
  pose proof (findUnique_row _ _ _ _ Hfound) as Hrow.
  unfold approveFix. rewrite Hid. cbn [negb run].
  rewrite (surjective_pairing (proposedFix_findUnique (proposedFixId input) w)),
    Hfound, findUnique_world, (check_reviewable_pending u f inc Howner Hstatus), Hurl.
  cbn [run].
  rewrite (surjective_pairing (executeProposedFix f (Some (split_dot_head url)) w)),
    He, Hw1.
  rewrite (run_approve_record input u now f inc _
             (set_sandboxOps (sandboxOps w ++ ops) w) f Hrow).
  cbn [success exec_error].
  eexists e, _, _, _. split; [reflexivity|].
  split; [reflexivity|].
  cbn. repeat (split; [reflexivity|]).
  split; [intros ->; reflexivity|].
  repeat (split; [reflexivity|]). reflexivity.
Qed.

(** C10. When the message of the fix has no fragment, or a fragment without
    sandbox URL, approval does not execute anything: the sandbox is left
    untouched, the fix is marked APPROVED with the caller's feedback or "Fix
    applied successfully", and the success entry is appended. *)
Theorem approval_without_sandbox_succeeds input u now w f inc :
  truthy (proposedFixId input) = true ->
  fst (proposedFix_findUnique (proposedFixId input) w) = Some (f, Some inc) ->
  userId (inc_project inc) = u ->
  status f = PENDING ->
  inc_fragment inc = None
  \/ (exists fr, inc_fragment inc = Some fr /\ sandboxUrl fr = "") ->
  exists (updated : ProposedFix) (entry : Message) (w' : World),
    run (approveFix input u now) w
    = (Returned {| reply_success := true; reply_proposedFix := updated;
                   executionError := None |}, w')
    /\ sandboxOps w' = sandboxOps w
    /\ proposedFixes w' = <[proposedFixId input := updated]> (proposedFixes w)
    /\ status updated = APPROVED
    /\ reviewedBy updated = Some u
    /\ reviewedAt updated = Some now
    /\ feedback updated = Some (or_else (approve_feedback input) "Fix applied successfully")
    /\ (approve_feedback input = None -> feedback updated = Some "Fix applied successfully")
    /\ messages w' = (messages w ++ [entry])%list
    /\ content entry = "✅ Fix applied: " ++ description f
    /\ role entry = ASSISTANT
    /\ msg_type entry = RESULT.
Proof.
  intros Hid Hfound Howner Hstatus Hnone.
  assert (fragment_sandboxUrl (inc_fragment inc) = None) as Hurl.
  { destruct Hnone as [->|(fr & -> & Hempty)]; [reflexivity|].
    unfold fragment_sandboxUrl. rewrite Hempty. reflexivity. }
  pose proof (findUnique_row _ _ _ _ Hfound) as Hrow.
  unfold approveFix. rewrite Hid. cbn [negb run].
  rewrite (surjective_pairing (proposedFix_findUnique (proposedFixId input) w)),
    Hfound, findUnique_world, (check_reviewable_pending u f inc Howner Hstatus), Hurl.
  rewrite (run_approve_record input u now f inc _ _ f Hrow).
  cbn [success exec_error].
  eexists _, _, _. split; [reflexivity|].
  cbn. repeat (split; [reflexivity|]).
  split; [intros ->; reflexivity|].
  repeat (split; [reflexivity|]). reflexivity.
Qed.

Lemma run_rejectFix_pending id reason u now w f inc :
  truthy id = true ->
  truthy reason = true ->
  fst (proposedFix_findUnique id w) = Some (f, Some inc) ->
  userId (inc_project inc) = u ->
  status f = PENDING ->
  run (rejectFix {| reject_proposedFixId := id; reject_feedback := reason |} u now) w
  = (Returned (reviewed f REJECTED u now reason),
     after_review w id (reviewed f REJECTED u now reason) (projectId (inc_message inc))
       ("❌ Fix rejected: " ++ description f ++ ". Reason: " ++ reason)).
Proof.
  intros Hid Hreason Hfound Howner Hstatus.
  pose proof (findUnique_row _ _ _ _ Hfound) as Hrow.
  unfold rejectFix. cbn [reject_proposedFixId reject_feedback].
  rewrite Hid, Hreason. cbn [negb andb run].
  rewrite (surjective_pairing (proposedFix_findUnique id w)),
    Hfound, findUnique_world, (check_reviewable_pending u f inc Howner Hstatus).
  unfold proposedFix_update. cbn [run]. rewrite Hrow. reflexivity.
Qed.

Lemma run_approveFix_pending id fb u now w f inc :
  truthy id = true ->
  fst (proposedFix_findUnique id w) = Some (f, Some inc) ->
  userId (inc_project inc) = u ->
  status f = PENDING ->
  exists (r : ExecResult) (ops : list SandboxOp),
    let f' := reviewed f (if success r then APPROVED else PENDING) u now
                (or_else fb (approve_feedback_text (success r))) in
    run (approveFix {| proposedFixId := id; approve_feedback := fb |} u now) w
    = (Returned {| reply_success := success r; reply_proposedFix := f';
                   executionError := exec_error r |},
       after_review (set_sandboxOps (sandboxOps w ++ ops) w) id f'
         (projectId (inc_message inc)) (approve_message f r)).
Proof.
  intros Hid Hfound Howner Hstatus.
  pose proof (findUnique_row _ _ _ _ Hfound) as Hrow.
  unfold approveFix. cbn [proposedFixId]. rewrite Hid. cbn [negb run].
  rewrite (surjective_pairing (proposedFix_findUnique id w)),
    Hfound, findUnique_world, (check_reviewable_pending u f inc Howner Hstatus).
  destruct (fragment_sandboxUrl (inc_fragment inc)) as [url|].
  - cbn [run].
    destruct (frames_executeProposedFix f (Some (split_dot_head url)) w) as [ops Hw1].
    rewrite (surjective_pairing (executeProposedFix f (Some (split_dot_head url)) w)), Hw1.
    exists (fst (executeProposedFix f (Some (split_dot_head url)) w)), ops.
    exact (run_approve_record {| proposedFixId := id; approve_feedback := fb |} u now f inc _
             (set_sandboxOps (sandboxOps w ++ ops) w) f Hrow).
  - exists {| success := true; exec_error := None |}, [].
    rewrite app_nil_r, set_sandboxOps_id.
    exact (run_approve_record {| proposedFixId := id; approve_feedback := fb |} u now f inc _
             w f Hrow).
Qed.

Lemma refuses_after_review id u w f inc ops st reviewer now fb pid text :
  truthy id = true ->
  fst (proposedFix_findUnique id w) = Some (f, Some inc) ->
  userId (inc_project inc) = u ->
  st <> PENDING ->
  refuses_review
    (after_review (set_sandboxOps (sandboxOps w ++ ops) w) id
       (reviewed f st reviewer now fb) pid text) id u.
Proof.
  intros Hid Hfound Howner Hst.
  apply (refused_when_processed id u _ (reviewed f st reviewer now fb) inc Hid);
    [|exact Howner|exact Hst].
  eapply (findUnique_stable id w _ f); try reflexivity; [exact Hfound|].
  cbn. apply lookup_insert_eq.
Qed.

(** C1 (as the code has it). Run one after the other, calls on the same
    PENDING fix are single-shot: once a reject, or an approve whose execution
    succeeded, has run to its end, every later approve or reject on that fix
    is refused with BAD_REQUEST ("Fix already processed") and changes
    nothing. *)
Theorem decision_is_single_shot_in_sequence id u w f inc :
  truthy id = true ->
  fst (proposedFix_findUnique id w) = Some (f, Some inc) ->
  userId (inc_project inc) = u ->
  status f = PENDING ->
  (forall (reason : string) (now : Z),
     truthy reason = true ->
     let first :=
       run (rejectFix {| reject_proposedFixId := id; reject_feedback := reason |} u now) w in
     returned (fst first) = true /\ refuses_review (snd first) id u)
  /\ (forall (fb : option string) (now : Z),
        let first :=
          run (approveFix {| proposedFixId := id; approve_feedback := fb |} u now) w in
        exists reply,
          fst first = Returned reply
          /\ (reply_success reply = true -> refuses_review (snd first) id u)).
Proof.
  intros Hid Hfound Howner Hstatus. split.
  - intros reason now Hreason first. subst first.
    rewrite (run_rejectFix_pending id reason u now w f inc Hid Hreason Hfound Howner Hstatus).
    split; [reflexivity|]. cbn [snd].
    rewrite <- (set_sandboxOps_id w) at 1. rewrite <- (app_nil_r (sandboxOps w)) at 1.
    apply (refuses_after_review id u w f inc); try assumption. discriminate.
  - intros fb now first. subst first.
    destruct (run_approveFix_pending id fb u now w f inc Hid Hfound Howner Hstatus)
      as (r & ops & Hrun).
    cbv zeta in Hrun. rewrite Hrun. eexists. split; [reflexivity|].
    cbn [fst snd reply_success]. intros Hok. rewrite Hok.
    apply (refuses_after_review id u w f inc); try assumption. discriminate.
Qed.

(** ** The fix executor: further properties *)

Lemma known_fixType_cases t :
  known_fixType t = true ->
  String.eqb t "command" = true
  \/ (String.eqb t "command" = false /\ String.eqb t "fileChange" = true)
  \/ (String.eqb t "command" = false /\ String.eqb t "fileChange" = false
      /\ String.eqb t "multiStep" = true).
Proof.
  unfold known_fixType.
  destruct (String.eqb t "command"), (String.eqb t "fileChange"),
    (String.eqb t "multiStep"); cbn; intros H; try discriminate H; auto.
Qed.

(** X1. A command, fileChange or multiStep fix executed without sandbox id
    (none, or the empty string) is not run at all: the executor returns the
    failure "Sandbox ID required for ..." and the world is unchanged. *)
Theorem executor_requires_sandbox proposedFix sandboxId w :
  known_fixType (fixType (fixData proposedFix)) = true ->
  no_sandboxId sandboxId = true ->
  executeProposedFix proposedFix sandboxId w
  = ({| success := false;
        exec_error := Some ("Error: Sandbox ID required for "
                            ++ sandbox_purpose (fixType (fixData proposedFix))) |}, w).
Proof.
  intros Hknown Hnone.
  assert (forall purpose body,
            with_sandbox sandboxId purpose body w
            = (Some ("Error: Sandbox ID required for " ++ purpose), w)) as Hguard.
  { intros purpose body. unfold with_sandbox.
    destruct sandboxId as [sid|]; [|reflexivity].
    cbn in Hnone. destruct (truthy sid); [discriminate|reflexivity]. }
  unfold executeProposedFix, execute_steps, sandbox_purpose, bind.
  destruct (known_fixType_cases _ Hknown) as [->|[[-> ->]|(-> & -> & ->)]];
    rewrite Hguard; reflexivity.
Qed.

(** X2. When the sandbox cannot be reached, the executor returns the error of
    [getSandbox] as a failure and runs nothing. *)
Theorem executor_reports_unreachable_sandbox proposedFix sid e w :
  known_fixType (fixType (fixData proposedFix)) = true ->
  truthy sid = true ->
  getSandbox_fault sid = Some e ->
  executeProposedFix proposedFix (Some sid) w
  = ({| success := false; exec_error := Some e |}, w).
Proof.
  intros Hknown Hsid Hfault.
  unfold executeProposedFix, execute_steps, with_sandbox, bind.
  rewrite Hsid, Hfault.
  destruct (known_fixType_cases _ Hknown) as [->|[[-> ->]|(-> & -> & ->)]];
    reflexivity.
Qed.

(** X3. A payload whose type is none of command, fileChange and multiStep is
    reported as a success although nothing is executed, with or without
    sandbox. *)
Theorem unknown_fix_type_is_a_silent_success proposedFix sandboxId w :
  known_fixType (fixType (fixData proposedFix)) = false ->
  executeProposedFix proposedFix sandboxId w
  = ({| success := true; exec_error := None |}, w).
Proof.
  unfold known_fixType, executeProposedFix, execute_steps, bind.
  destruct (String.eqb _ "command"), (String.eqb _ "fileChange"),
    (String.eqb _ "multiStep"); cbn; intros H; try discriminate H; reflexivity.
Qed.

(** X4. A command fix runs its commands on the sandbox in the listed order
    and writes no file.  It succeeds exactly when every command runs without
    error, and then all of them ran; at the first command that throws it
    stops, skips the rest and returns that error. *)
Theorem command_fix_stops_at_first_failure proposedFix sid w cs :
  fixType (fixData proposedFix) = "command" ->
  commands (fixData proposedFix) = Some cs ->
  truthy sid = true ->
  getSandbox_fault sid = None ->
  let r := fst (executeProposedFix proposedFix (Some sid) w) in
  let w' := snd (executeProposedFix proposedFix (Some sid) w) in
  (exists n, w' = set_sandboxOps (sandboxOps w ++ map (OpRun sid) (firstn n cs)) w
             /\ (success r = true -> firstn n cs = cs))
  /\ (success r = true <-> all_run (sandboxOps w) sid cs = true)
  /\ (forall pre c post e,
        cs = (pre ++ c :: post)%list ->
        all_run (sandboxOps w) sid pre = true ->
        run_fault (sandboxOps w ++ map (OpRun sid) pre) sid c = Some e ->
        r = {| success := false; exec_error := Some e |}
        /\ w' = set_sandboxOps (sandboxOps w ++ map (OpRun sid) pre ++ [OpRun sid c]) w).
Proof.
  intros Htype Hcs Hsid Hconn r w'. subst r w'.
  unfold executeProposedFix, execute_steps, with_sandbox, bind.
  rewrite Htype, Hcs, Hsid, Hconn. cbn [String.eqb Ascii.eqb Bool.eqb].
  destruct (run_commands_shape sid cs w) as (n & Hw1 & Hn).
  pose proof (run_commands_none sid cs w) as Hall.
  split; [|split].
  - exists n. destruct (run_commands sid cs w) as [[e|] w1]; cbn [fst snd] in *.
    + split; [exact Hw1|discriminate].
    + split; [exact Hw1|intros _; apply Hn; reflexivity].
  - destruct (run_commands sid cs w) as [[e|] w1]; cbn [fst snd] in *.
    + split; [discriminate|]. intros H. apply Hall in H. discriminate H.
    + split; [intros _; apply Hall; reflexivity|reflexivity].
  - intros pre c post e -> Hpre Hc.
    rewrite (run_commands_fault sid pre c post e w Hpre Hc). cbn. auto.
Qed.

(** X5. A fileChange fix writes its files in the listed order and runs no
    command.  It succeeds exactly when every write goes through; at the first
    write that throws it stops, leaves the later files unwritten and returns
    that error. *)
Theorem fileChange_fix_stops_at_first_failure proposedFix sid w fs :
  fixType (fixData proposedFix) = "fileChange" ->
  files (fixData proposedFix) = Some fs ->
  truthy sid = true ->
  getSandbox_fault sid = None ->
  let r := fst (executeProposedFix proposedFix (Some sid) w) in
  let w' := snd (executeProposedFix proposedFix (Some sid) w) in
  (exists m, w' = set_sandboxOps (sandboxOps w ++ map (op_write sid) (firstn m fs)) w
             /\ (success r = true -> firstn m fs = fs))
  /\ (success r = true <-> all_written (sandboxOps w) sid fs = true)
  /\ (forall pre f post e,
        fs = (pre ++ f :: post)%list ->
        all_written (sandboxOps w) sid pre = true ->
        write_fault (sandboxOps w ++ map (op_write sid) pre) sid (path f) (file_content f)
        = Some e ->
        r = {| success := false; exec_error := Some e |}
        /\ w' = set_sandboxOps
                  (sandboxOps w ++ map (op_write sid) pre ++ [op_write sid f]) w).
Proof.
  intros Htype Hfs Hsid Hconn r w'. subst r w'.
  unfold executeProposedFix, execute_steps, with_sandbox, bind.
  rewrite Htype, Hfs, Hsid, Hconn. cbn [String.eqb Ascii.eqb Bool.eqb].
  destruct (write_files_shape sid fs w) as (m & Hw1 & Hm).
  pose proof (write_files_none sid fs w) as Hall.
  split; [|split].
  - exists m. destruct (write_files sid fs w) as [[e|] w1]; cbn [fst snd] in *.
    + split; [exact Hw1|discriminate].
    + split; [exact Hw1|intros _; apply Hm; reflexivity].
  - destruct (write_files sid fs w) as [[e|] w1]; cbn [fst snd] in *.
    + split; [discriminate|]. intros H. apply Hall in H. discriminate H.
    + split; [intros _; apply Hall; reflexivity|reflexivity].
  - intros pre f post e -> Hpre Hf.
    rewrite (write_files_fault sid pre f post e w Hpre Hf). cbn. auto.
Qed.

Lemma run_commands_ops sid cs w :
  exists ops,
    snd (run_commands sid cs w) = set_sandboxOps (sandboxOps w ++ ops) w
    /\ Forall (fun op => op_sandbox op = sid /\ is_write op = false) ops.
Proof.
  destruct (run_commands_shape sid cs w) as (n & -> & _).
  eexists. split; [reflexivity|].
  apply List.Forall_map, Forall_true. intros c. split; reflexivity.
Qed.

Lemma write_files_ops sid fs w :
  exists ops,
    snd (write_files sid fs w) = set_sandboxOps (sandboxOps w ++ ops) w
    /\ Forall (fun op => op_sandbox op = sid /\ is_write op = true) ops.
Proof.
  destruct (write_files_shape sid fs w) as (n & -> & _).
  eexists. split; [reflexivity|].
  apply List.Forall_map, Forall_true. intros c. split; reflexivity.
Qed.

(** X6. Whatever the payload and the outcome, the executor changes nothing
    but the sandbox log (the store is never touched), and every operation it
    adds is addressed to the sandbox whose id it was given. *)
Theorem executor_only_uses_its_sandbox proposedFix sandboxId w :
  exists ops,
    snd (executeProposedFix proposedFix sandboxId w)
    = set_sandboxOps (sandboxOps w ++ ops) w
    /\ Forall (fun op => sandboxId = Some (op_sandbox op)) ops.
Proof.
  assert (exists ops,
             w = set_sandboxOps (sandboxOps w ++ ops) w
             /\ Forall (fun op => sandboxId = Some (op_sandbox op)) ops) as Hidle.
  { exists []. rewrite app_nil_r, set_sandboxOps_id. split; [reflexivity|constructor]. }
  assert (forall A (r : A) (ops : list SandboxOp) sid P,
             sandboxId = Some sid ->
             Forall (fun op => op_sandbox op = sid /\ P op) ops ->
             Forall (fun op => sandboxId = Some (op_sandbox op)) ops) as Hsame.
  { intros _ _ ops sid P -> Hops. eapply Forall_impl; [exact Hops|].
    cbn. intros op [-> _]. reflexivity. }
  unfold executeProposedFix, bind.
  destruct (execute_steps (fixData proposedFix) sandboxId w) as [thrown w1] eqn:Hsteps.
  assert (exists ops,
             w1 = set_sandboxOps (sandboxOps w ++ ops) w
             /\ Forall (fun op => sandboxId = Some (op_sandbox op)) ops) as Hw1.
  { replace w1 with (snd (execute_steps (fixData proposedFix) sandboxId w))
      by (rewrite Hsteps; reflexivity).
    clear Hsteps thrown w1. unfold execute_steps, with_sandbox.
    destruct (String.eqb _ "command");
      [|destruct (String.eqb _ "fileChange"); [|destruct (String.eqb _ "multiStep")]];
      try exact Hidle;
      (destruct sandboxId as [sid|] eqn:Hid; [|exact Hidle]);
      (destruct (truthy sid); [|exact Hidle]);
      (destruct (getSandbox_fault sid); [exact Hidle|]).
    - destruct (commands (fixData proposedFix)) as [cs|]; [|exact Hidle].
      destruct (run_commands_ops sid cs w) as (ops & -> & Hops).
      exists ops. split; [reflexivity|]. eapply (Hsame unit tt); [reflexivity|exact Hops].
    - destruct (files (fixData proposedFix)) as [fs|]; [|exact Hidle].
      destruct (write_files_ops sid fs w) as (ops & -> & Hops).
      exists ops. split; [reflexivity|]. eapply (Hsame unit tt); [reflexivity|exact Hops].
    - unfold bind.
      assert (exists ops1,
                 snd (match commands (fixData proposedFix) with
                      | Some cs => run_commands sid cs
                      | None => ret None
                      end w) = set_sandboxOps (sandboxOps w ++ ops1) w
                 /\ Forall (fun op => Some sid = Some (op_sandbox op)) ops1) as (ops1 & H1 & HF1).
      { destruct (commands (fixData proposedFix)) as [cs|]; [|exact Hidle].
        destruct (run_commands_ops sid cs w) as (ops & -> & Hops).
        exists ops. split; [reflexivity|]. eapply (Hsame unit tt); [reflexivity|exact Hops]. }
      destruct (match commands (fixData proposedFix) with
                | Some cs => run_commands sid cs
                | None => ret None
                end w) as [[e|] w2]; cbn [snd] in H1; subst w2.
      + exists ops1. split; [reflexivity|exact HF1].
      + destruct (files (fixData proposedFix)) as [fs|].
        * destruct (write_files_ops sid fs (set_sandboxOps (sandboxOps w ++ ops1) w))
            as (ops2 & -> & Hops2).
          exists (ops1 ++ ops2)%list. cbn. rewrite app_assoc. split; [reflexivity|].
          apply Forall_app. split; [exact HF1|].
          eapply (Hsame unit tt); [reflexivity|exact Hops2].
        * exists ops1. split; [reflexivity|exact HF1]. }
  destruct Hw1 as (ops & -> & Hops). exists ops.
  destruct thrown; split; try reflexivity; exact Hops.
Qed.

(** X7. The members of a multiStep payload are optional.  On a reachable
    sandbox, a multiStep fix without commands does what the fileChange fix
    with the same files does, one without files does what the command fix
    with the same commands does, and one with neither succeeds without doing
    anything. *)
Theorem multiStep_members_are_optional proposedFix sid w :
  truthy sid = true ->
  getSandbox_fault sid = None ->
  (forall fs cs',
     executeProposedFix
       (with_fixData proposedFix
          {| fixType := "multiStep"; commands := None; files := Some fs |}) (Some sid) w
     = executeProposedFix
         (with_fixData proposedFix
            {| fixType := "fileChange"; commands := cs'; files := Some fs |}) (Some sid) w)
  /\ (forall cs fs',
        executeProposedFix
          (with_fixData proposedFix
             {| fixType := "multiStep"; commands := Some cs; files := None |}) (Some sid) w
        = executeProposedFix
            (with_fixData proposedFix
               {| fixType := "command"; commands := Some cs; files := fs' |}) (Some sid) w)
  /\ executeProposedFix
       (with_fixData proposedFix
          {| fixType := "multiStep"; commands := None; files := None |}) (Some sid) w
     = ({| success := true; exec_error := None |}, w).
Proof.
  intros Hsid Hconn.
  unfold executeProposedFix, execute_steps, with_sandbox. cbn. rewrite Hsid, Hconn.
  split; [|split].
  - intros fs _. reflexivity.
  - intros cs _. unfold bind. destruct (run_commands sid cs w) as [[e|] w1]; reflexivity.
  - reflexivity.
Qed.

(** ** The review procedures: further properties *)

Lemma check_reviewable_returned u found f inc :
  check_reviewable u found = Returned (f, inc) ->
  found = Some (f, Some inc) /\ userId (inc_project inc) = u /\ status f = PENDING.
Proof.
  unfold check_reviewable.
  destruct found as [[f0 [inc0|]]|]; try discriminate.
  destruct (String.eqb (userId (inc_project inc0)) u) eqn:Howner; cbn; [|discriminate].
  destruct (status f0) eqn:Hstatus; cbn; try discriminate.
  intros [= <- <-]. apply String.eqb_eq in Howner. auto.
Qed.

(** Every call of [approveFix] either throws and leaves the world as it was,
    or went through the checks and recorded its outcome. *)
Lemma run_approveFix_cases input u now w :
  (exists e, run (approveFix input u now) w = (Threw e, w))
  \/ (exists f inc r ops,
        truthy (proposedFixId input) = true
        /\ fst (proposedFix_findUnique (proposedFixId input) w) = Some (f, Some inc)
        /\ userId (inc_project inc) = u
        /\ status f = PENDING
        /\ run (approveFix input u now) w
           = (Returned {| reply_success := success r;
                          reply_proposedFix :=
                            reviewed f (if success r then APPROVED else PENDING) u now
                              (or_else (approve_feedback input)
                                 (approve_feedback_text (success r)));
                          executionError := exec_error r |},
              after_review (set_sandboxOps (sandboxOps w ++ ops) w) (proposedFixId input)
                (reviewed f (if success r then APPROVED else PENDING) u now
                   (or_else (approve_feedback input) (approve_feedback_text (success r))))
                (projectId (inc_message inc)) (approve_message f r))).
Proof.
  destruct input as [id fb]. cbn [proposedFixId approve_feedback].
  destruct (truthy id) eqn:Hid.
  2:{ left. eexists. unfold approveFix. cbn [proposedFixId]. rewrite Hid. reflexivity. }
  destruct (check_reviewable u (fst (proposedFix_findUnique id w))) as [[f inc]|e] eqn:Hcheck.
  - right. apply check_reviewable_returned in Hcheck as (Hfound & Howner & Hstatus).
    destruct (run_approveFix_pending id fb u now w f inc Hid Hfound Howner Hstatus)
      as (r & ops & Hrun).
    exists f, inc, r, ops. auto.
  - left. exists e. unfold approveFix. cbn [proposedFixId]. rewrite Hid. cbn [negb run].
    rewrite (surjective_pairing (proposedFix_findUnique id w)), findUnique_world, Hcheck.
    reflexivity.
Qed.

Lemma run_rejectFix_cases input u now w :
  (exists e, run (rejectFix input u now) w = (Threw e, w))
  \/ (exists f inc,
        truthy (reject_proposedFixId input) = true
        /\ truthy (reject_feedback input) = true
        /\ fst (proposedFix_findUnique (reject_proposedFixId input) w) = Some (f, Some inc)
        /\ userId (inc_project inc) = u
        /\ status f = PENDING
        /\ run (rejectFix input u now) w
           = (Returned (reviewed f REJECTED u now (reject_feedback input)),
              after_review w (reject_proposedFixId input)
                (reviewed f REJECTED u now (reject_feedback input))
                (projectId (inc_message inc))
                ("❌ Fix rejected: " ++ description f ++ ". Reason: "
                   ++ reject_feedback input))).
Proof.
  destruct input as [id reason]. cbn [reject_proposedFixId reject_feedback].
  destruct (truthy id && truthy reason) eqn:Hvalid.
  2:{ left. eexists. unfold rejectFix. cbn [reject_proposedFixId reject_feedback].
      rewrite Hvalid. reflexivity. }
  apply andb_true_iff in Hvalid as [Hid Hreason].
  destruct (check_reviewable u (fst (proposedFix_findUnique id w))) as [[f inc]|e] eqn:Hcheck.
  - right. apply check_reviewable_returned in Hcheck as (Hfound & Howner & Hstatus).
    exists f, inc. repeat (split; [assumption|]).
    apply run_rejectFix_pending; assumption.
  - left. exists e. unfold rejectFix. cbn [reject_proposedFixId reject_feedback].
    rewrite Hid, Hreason. cbn [negb andb run].
    rewrite (surjective_pairing (proposedFix_findUnique id w)), findUnique_world, Hcheck.
    reflexivity.
Qed.

(** X8. A call that is refused, for whatever reason (invalid input, unknown
    fix, foreign project, fix already processed), has changed nothing: the
    world after a call that throws is the world before it. *)
Theorem refused_call_changes_nothing approveInput rejectInput u now w :
  (forall e w', run (approveFix approveInput u now) w = (Threw e, w') -> w' = w)
  /\ (forall e w', run (rejectFix rejectInput u now) w = (Threw e, w') -> w' = w).
Proof.
  split; intros e w' Hrun.
  - destruct (run_approveFix_cases approveInput u now w)
      as [[e0 H]|(f & inc & r & ops & _ & _ & _ & _ & H)];
      rewrite H in Hrun; [|discriminate Hrun].
    injection Hrun as _ <-. reflexivity.
  - destruct (run_rejectFix_cases rejectInput u now w)
      as [[e0 H]|(f & inc & _ & _ & _ & _ & _ & H)];
      rewrite H in Hrun; [|discriminate Hrun].
    injection Hrun as _ <-. reflexivity.
Qed.

(** X9. An unknown fix id is answered NOT_FOUND ("Proposed fix not found") by
    both procedures. *)
Theorem unknown_fix_is_not_found id u w :
  truthy id = true ->
  proposedFixes w !! id = None ->
  forall (fb : option string) (reason : string) (now : Z),
    truthy reason = true ->
    run (approveFix {| proposedFixId := id; approve_feedback := fb |} u now) w
    = (Threw (TRPCError NOT_FOUND "Proposed fix not found"), w)
    /\ run (rejectFix {| reject_proposedFixId := id; reject_feedback := reason |} u now) w
       = (Threw (TRPCError NOT_FOUND "Proposed fix not found"), w).
Proof.
  intros Hid Hrow fb reason now Hreason.
  unfold approveFix, rejectFix, proposedFix_findUnique.
  cbn [proposedFixId reject_proposedFixId reject_feedback].
  rewrite Hid, Hreason. cbn [negb andb run]. rewrite Hrow. split; reflexivity.
Qed.

(** X10. A caller who does not own the project of the fix is answered
    FORBIDDEN ("Not authorized") by both procedures, whatever the status of
    the fix: the ownership check comes before the status check. *)
Theorem foreign_fix_is_forbidden id u w f inc :
  truthy id = true ->
  fst (proposedFix_findUnique id w) = Some (f, Some inc) ->
  userId (inc_project inc) <> u ->
  forall (fb : option string) (reason : string) (now : Z),
    truthy reason = true ->
    run (approveFix {| proposedFixId := id; approve_feedback := fb |} u now) w
    = (Threw (TRPCError FORBIDDEN "Not authorized"), w)
    /\ run (rejectFix {| reject_proposedFixId := id; reject_feedback := reason |} u now) w
       = (Threw (TRPCError FORBIDDEN "Not authorized"), w).
Proof.
  intros Hid Hfound Howner fb reason now Hreason.
  assert (check_reviewable u (Some (f, Some inc))
          = Threw (TRPCError FORBIDDEN "Not authorized")) as Hcheck.
  { unfold check_reviewable. apply String.eqb_neq in Howner. rewrite Howner. reflexivity. }
  unfold approveFix, rejectFix.
  cbn [proposedFixId reject_proposedFixId reject_feedback].
  rewrite Hid, Hreason. cbn [negb andb run].
  rewrite (surjective_pairing (proposedFix_findUnique id w)), Hfound, findUnique_world, Hcheck.
  split; reflexivity.
Qed.

(** X11. An empty fix id, and for a rejection an empty feedback, is refused
    by the input schema with BAD_REQUEST before the store is read: this holds
    for fixes that exist and for fixes that do not, pending or not. *)
Theorem empty_input_is_rejected u now w :
  (forall fb,
     run (approveFix {| proposedFixId := ""; approve_feedback := fb |} u now) w
     = (Threw InputRejected, w))
  /\ (forall id reason,
        truthy id = false \/ truthy reason = false ->
        run (rejectFix {| reject_proposedFixId := id; reject_feedback := reason |} u now) w
        = (Threw InputRejected, w))
  /\ failure_code InputRejected = BAD_REQUEST.
Proof.
  split; [|split]; [reflexivity| |reflexivity].
  intros id reason Hempty. unfold rejectFix. cbn [reject_proposedFixId reject_feedback].
  destruct Hempty as [-> | ->]; [|rewrite andb_false_r]; reflexivity.
Qed.


(** X13. When the fix has a sandbox and its execution succeeds, approval
    leaves on the sandbox exactly what the executor did with the id taken
    from the URL, marks the fix APPROVED with the caller's feedback or "Fix
    applied successfully", and appends "Fix applied: <description>". *)
Theorem approve_applies_and_approves input u now w f inc url :
  truthy (proposedFixId input) = true ->
  fst (proposedFix_findUnique (proposedFixId input) w) = Some (f, Some inc) ->
  userId (inc_project inc) = u ->
  status f = PENDING ->
  fragment_sandboxUrl (inc_fragment inc) = Some url ->
  success (fst (executeProposedFix f (Some (split_dot_head url)) w)) = true ->
  exists (updated : ProposedFix) (entry : Message) (w' : World),
    run (approveFix input u now) w
    = (Returned {| reply_success := true; reply_proposedFix := updated;
                   executionError := None |}, w')
    /\ sandboxOps w'
       = sandboxOps (snd (executeProposedFix f (Some (split_dot_head url)) w))
    /\ proposedFixes w' = <[proposedFixId input := updated]> (proposedFixes w)
    /\ status updated = APPROVED
    /\ reviewedBy updated = Some u
    /\ reviewedAt updated = Some now
    /\ feedback updated
       = Some (or_else (approve_feedback input) "Fix applied successfully")
    /\ messages w' = (messages w ++ [entry])%list
    /\ content entry = "✅ Fix applied: " ++ description f
    /\ role entry = ASSISTANT
    /\ msg_type entry = RESULT.
Proof.
  intros Hid Hfound Howner Hstatus Hurl Hok.
  assert (fst (executeProposedFix f (Some (split_dot_head url)) w)
          = {| success := true; exec_error := None |}) as Hr.
  { revert Hok. unfold executeProposedFix, bind.
    destruct (execute_steps _ _ w) as [[e|] w1]; cbn; [discriminate|reflexivity]. }
  destruct (frames_executeProposedFix f (Some (split_dot_head url)) w) as [ops Hw1].
  pose proof (findUnique_row _ _ _ _ Hfound) as Hrow.
  unfold approveFix. rewrite Hid. cbn [negb run].
  rewrite (surjective_pairing (proposedFix_findUnique (proposedFixId input) w)),
    Hfound, findUnique_world, (check_reviewable_pending u f inc Howner Hstatus), Hurl.
  cbn [run].
  rewrite (surjective_pairing (executeProposedFix f (Some (split_dot_head url)) w)),
    Hr, Hw1.
  rewrite (run_approve_record input u now f inc _
             (set_sandboxOps (sandboxOps w ++ ops) w) f Hrow).
  cbn [success exec_error].
  eexists _, _, _. split; [reflexivity|]. cbn.
  repeat (split; [reflexivity|]). reflexivity.
Qed.

(** X14. A review call touches one row and adds at most one conversation
    entry: projects, fragments, error logs and the log of backend calls are
    unchanged, every other proposed fix is unchanged, and the conversation
    is the old one followed by at most one new entry. *)
Theorem review_keeps_the_rest approveInput rejectInput u now w :
  let kept (id : string) (w' : World) :=
    projects w' = projects w
    /\ fragments w' = fragments w
    /\ errorLogs w' = errorLogs w
    /\ agentCalls w' = agentCalls w
    /\ (forall other, other <> id -> proposedFixes w' !! other = proposedFixes w !! other)
    /\ exists new, messages w' = (messages w ++ new)%list /\ length new <= 1 in
  kept (proposedFixId approveInput) (snd (run (approveFix approveInput u now) w))
  /\ kept (reject_proposedFixId rejectInput) (snd (run (rejectFix rejectInput u now) w)).
Proof.
  intros kept.
  assert (forall id, kept id w) as Hsame.
  { intros id. do 4 (split; [reflexivity|]). split; [reflexivity|].
    exists []. rewrite app_nil_r. split; [reflexivity|cbn; lia]. }
  assert (forall id ops f' pid text,
            kept id (after_review (set_sandboxOps (sandboxOps w ++ ops) w) id f' pid text))
    as Hreview.
  { intros id ops f' pid text. do 4 (split; [reflexivity|]). split.
    - intros other Hother. cbn. apply lookup_insert_ne. congruence.
    - eexists [_]. split; [reflexivity|cbn; lia]. }
  split.
  - destruct (run_approveFix_cases approveInput u now w)
      as [[e ->]|(f & inc & r & ops & _ & _ & _ & _ & ->)]; [apply Hsame|apply Hreview].
  - destruct (run_rejectFix_cases rejectInput u now w)
      as [[e ->]|(f & inc & _ & _ & _ & _ & _ & ->)]; [apply Hsame|].
    cbn [snd]. rewrite <- (set_sandboxOps_id w) at 1.
    rewrite <- (app_nil_r (sandboxOps w)) at 1. apply Hreview.
Qed.

(** X15. What a call returns is what the store holds afterwards: after an
    approve that returns, the row of the fix is the returned fix, APPROVED
    when the reply says success and PENDING when it does not; after a reject
    that returns, the row is the returned fix and it is REJECTED. *)
Theorem reply_matches_store approveInput rejectInput u now w :
  (forall reply w',
     run (approveFix approveInput u now) w = (Returned reply, w') ->
     proposedFixes w' !! proposedFixId approveInput = Some (reply_proposedFix reply)
     /\ status (reply_proposedFix reply)
        = (if reply_success reply then APPROVED else PENDING))
  /\ (forall updated w',
        run (rejectFix rejectInput u now) w = (Returned updated, w') ->
        proposedFixes w' !! reject_proposedFixId rejectInput = Some updated
        /\ status updated = REJECTED).
Proof.
  split.
  - intros reply w' Hrun.
    destruct (run_approveFix_cases approveInput u now w)
      as [[e H]|(f & inc & r & ops & _ & _ & _ & _ & H)];
      rewrite H in Hrun; [discriminate Hrun|].
    injection Hrun as <- <-. cbn. split; [apply lookup_insert_eq|reflexivity].
  - intros updated w' Hrun.
    destruct (run_rejectFix_cases rejectInput u now w)
      as [[e H]|(f & inc & _ & _ & _ & _ & _ & H)];
      rewrite H in Hrun; [discriminate Hrun|].
    injection Hrun as <- <-. cbn. split; [apply lookup_insert_eq|reflexivity].
Qed.

Lemma executeProposedFix_payload f f' sandboxId w :
  fixData f' = fixData f ->
  executeProposedFix f' sandboxId w = executeProposedFix f sandboxId w.
Proof. unfold executeProposedFix. intros ->. reflexivity. Qed.

Lemma run_approveFix_with_sandbox input u now w f inc url :
  truthy (proposedFixId input) = true ->
  fst (proposedFix_findUnique (proposedFixId input) w) = Some (f, Some inc) ->
  userId (inc_project inc) = u ->
  status f = PENDING ->
  fragment_sandboxUrl (inc_fragment inc) = Some url ->
  exists ops,
    snd (executeProposedFix f (Some (split_dot_head url)) w)
    = set_sandboxOps (sandboxOps w ++ ops) w
    /\ run (approveFix input u now) w
       = (let r := fst (executeProposedFix f (Some (split_dot_head url)) w) in
          let f' := reviewed f (if success r then APPROVED else PENDING) u now
                      (or_else (approve_feedback input)
                         (approve_feedback_text (success r))) in
          (Returned {| reply_success := success r; reply_proposedFix := f';
                       executionError := exec_error r |},
           after_review (set_sandboxOps (sandboxOps w ++ ops) w) (proposedFixId input) f'
             (projectId (inc_message inc)) (approve_message f r))).
Proof.
  intros Hid Hfound Howner Hstatus Hurl.
  destruct (frames_executeProposedFix f (Some (split_dot_head url)) w) as [ops Hw1].
  pose proof (findUnique_row _ _ _ _ Hfound) as Hrow.
  exists ops. split; [exact Hw1|].
  unfold approveFix. rewrite Hid. cbn [negb run].
  rewrite (surjective_pairing (proposedFix_findUnique (proposedFixId input) w)),
    Hfound, findUnique_world, (check_reviewable_pending u f inc Howner Hstatus), Hurl.
  cbn [run].
  rewrite (surjective_pairing (executeProposedFix f (Some (split_dot_head url)) w)), Hw1.
  exact (run_approve_record input u now f inc _
           (set_sandboxOps (sandboxOps w ++ ops) w) f Hrow).
Qed.

(** X16. An approval whose execution failed can be retried.  In the world it
    leaves, a further approve by the owner is not refused and runs the
    executor again on the same payload (from its first step); a reject is
    accepted as well and marks the fix REJECTED. *)
Theorem failed_approval_can_be_retried id fb u now w f inc url :
  truthy id = true ->
  fst (proposedFix_findUnique id w) = Some (f, Some inc) ->
  userId (inc_project inc) = u ->
  status f = PENDING ->
  fragment_sandboxUrl (inc_fragment inc) = Some url ->
  success (fst (executeProposedFix f (Some (split_dot_head url)) w)) = false ->
  let w1 :=
    snd (run (approveFix {| proposedFixId := id; approve_feedback := fb |} u now) w) in
  (forall fb' now',
     let again :=
       run (approveFix {| proposedFixId := id; approve_feedback := fb' |} u now') w1 in
     returned (fst again) = true
     /\ sandboxOps (snd again)
        = sandboxOps (snd (executeProposedFix f (Some (split_dot_head url)) w1)))
  /\ (forall reason now',
        truthy reason = true ->
        exists updated,
          fst (run (rejectFix {| reject_proposedFixId := id; reject_feedback := reason |}
                      u now') w1)
          = Returned updated
          /\ status updated = REJECTED).
Proof.
  intros Hid Hfound Howner Hstatus Hurl Hfail w1.
  destruct (run_approveFix_with_sandbox
              {| proposedFixId := id; approve_feedback := fb |} u now w f inc url
              Hid Hfound Howner Hstatus Hurl) as (ops & _ & Hrun).
  cbv zeta in Hrun. rewrite Hfail in Hrun. cbn [proposedFixId approve_feedback] in Hrun.
  subst w1. rewrite Hrun. cbn [snd].
  set (f1 := reviewed f PENDING u now (or_else fb (approve_feedback_text false))).
  set (w1 := after_review _ id f1 _ _).
  assert (fst (proposedFix_findUnique id w1) = Some (f1, Some inc)) as Hfound1.
  { eapply (findUnique_stable id w w1 f); try reflexivity; [exact Hfound|].
    cbn. apply lookup_insert_eq. }
  split.
  - intros fb' now'.
    destruct (run_approveFix_with_sandbox
                {| proposedFixId := id; approve_feedback := fb' |} u now' w1 f1 inc url
                Hid Hfound1 Howner eq_refl Hurl) as (ops' & Hexec & Hagain).
    cbv zeta in Hagain. rewrite Hagain. split; [reflexivity|].
    rewrite <- (executeProposedFix_payload f f1 _ w1 eq_refl), Hexec. reflexivity.
  - intros reason now' Hreason.
    rewrite (run_rejectFix_pending id reason u now' w1 f1 inc Hid Hreason Hfound1
               Howner eq_refl).
    eexists. split; reflexivity.
Qed.

Lemma split_dot_head_dotless s : dotless (split_dot_head s) = true.
Proof.
  induction s as [|c r IH]; [reflexivity|]. cbn.
  destruct (Ascii.eqb c ".") eqn:Hc; [reflexivity|]. cbn. rewrite Hc. exact IH.
Qed.

(** X17. The sandbox id taken from a URL is its part before the first dot:
    for a dotless [host], the id of [host.rest] is [host], and of [host]
    alone it is [host] itself; the id never contains a dot. *)
Theorem sandbox_id_is_the_first_label host rest :
  dotless host = true ->
  split_dot_head (host ++ "." ++ rest) = host
  /\ split_dot_head host = host
  /\ forall url, dotless (split_dot_head url) = true.
Proof.
  intros Hhost. split; [|split; [|apply split_dot_head_dotless]].
  - induction host as [|c r IH]; [reflexivity|].
    cbn [dotless] in Hhost. simpl.
    destruct (Ascii.eqb c "."); cbn in Hhost; [discriminate|].
    f_equal. apply IH. exact Hhost.
  - induction host as [|c r IH]; [reflexivity|].
    cbn [dotless] in Hhost. simpl.
    destruct (Ascii.eqb c "."); cbn in Hhost; [discriminate|].
    f_equal. apply IH. exact Hhost.
Qed.

(** X18. A sandbox URL that starts with a dot is truthy but yields the empty
    sandbox id: approving a command, fileChange or multiStep fix then runs
    nothing, reports "Sandbox ID required ..." as the execution error, and
    leaves the fix PENDING. *)
Theorem dot_leading_url_yields_no_sandbox input u now w f inc rest :
  truthy (proposedFixId input) = true ->
  fst (proposedFix_findUnique (proposedFixId input) w) = Some (f, Some inc) ->
  userId (inc_project inc) = u ->
  status f = PENDING ->
  fragment_sandboxUrl (inc_fragment inc) = Some ("." ++ rest) ->
  known_fixType (fixType (fixData f)) = true ->
  exists (updated : ProposedFix) (w' : World),
    run (approveFix input u now) w
    = (Returned {| reply_success := false; reply_proposedFix := updated;
                   executionError :=
                     Some ("Error: Sandbox ID required for "
                           ++ sandbox_purpose (fixType (fixData f))) |}, w')
    /\ status updated = PENDING
    /\ proposedFixes w' !! proposedFixId input = Some updated
    /\ sandboxOps w' = sandboxOps w.
Proof.
  intros Hid Hfound Howner Hstatus Hurl Hknown.
  destruct (run_approveFix_with_sandbox input u now w f inc ("." ++ rest)
              Hid Hfound Howner Hstatus Hurl) as (ops & Hexec & Hrun).
  assert (executeProposedFix f (Some (split_dot_head ("." ++ rest))) w
          = ({| success := false;
                exec_error := Some ("Error: Sandbox ID required for "
                                    ++ sandbox_purpose (fixType (fixData f))) |}, w))
    as Hr.
  { unfold executeProposedFix, execute_steps, with_sandbox, sandbox_purpose, bind. cbn.
    destruct (known_fixType_cases _ Hknown) as [->|[[-> ->]|(-> & -> & ->)]];
      reflexivity. }
  rewrite Hr in Hexec, Hrun. cbn [fst snd] in Hexec, Hrun. cbv zeta in Hrun.
  rewrite Hrun. eexists _, _. split; [reflexivity|]. cbn.
  split; [reflexivity|]. split; [apply lookup_insert_eq|].
  exact (eq_sym (f_equal sandboxOps Hexec)).
Qed.

(** ** The error handler: further properties *)

(** X19. Whatever the backend answers, [handleError] first appends the ERROR
    entry "Error occurred: <error>" to the conversation of the project.  When
    the columns of an error log can be taken from the diagnosis (it is not
    [null], its category and its severity name values of the enums, its
    diagnostic is a string), one error log is created, attached to that
    entry, with these columns and with the error, its context and the
    diagnosis as data.  Otherwise the handler ends in its [catch]: no error
    log and no proposed fix are created, and the generic entry "Something
    went wrong. Please try again." is appended and returned. *)
Theorem failure_is_recorded_when_the_diagnosis_fits error context pid timestamp w :
  let a := analysis_of (analysis_input error context timestamp) in
  let entry := errorMessage_at w error pid in
  let returned := fst (handleError error context pid timestamp w) in
  let w' := snd (handleError error context pid timestamp w) in
  (content entry = "Error occurred: " ++ error
   /\ role entry = ASSISTANT
   /\ msg_type entry = ERROR
   /\ projectId entry = pid
   /\ exists later, messages w' = (messages w ++ entry :: later)%list)
  /\ (forall c s diag,
        errorLog_columns a = Some (c, s, diag) ->
        exists l,
          errorLogs w' = <[log_id l := l]> (errorLogs w)
          /\ messageId l = msg_id entry
          /\ log_category l = c
          /\ log_severity l = s
          /\ log_diagnostic l = diag
          /\ errorData l = JObj [("error", JStr error); ("context", context);
                                 ("analysis", a)])
  /\ (errorLog_columns a = None ->
      errorLogs w' = errorLogs w
      /\ proposedFixes w' = proposedFixes w
      /\ messages w' = (messages w ++ [entry; returned])%list
      /\ content returned = "Something went wrong. Please try again."
      /\ role returned = ASSISTANT
      /\ msg_type returned = ERROR
      /\ projectId returned = pid).
Proof.
  intros a entry returned w'. subst returned w'.
  rewrite handleError_run. cbv zeta. fold a. fold entry.
  destruct (errorLog_columns a) as [[[c s] diag]|].
  - split; [do 4 (split; [reflexivity|])|split; [|discriminate]].
    + destruct (confident a) as [[|]|]; try (eexists; reflexivity).
      destruct (js_truthy _); [|eexists; reflexivity].
      destruct (auto_apply a _) as [[|]|]; [destruct (proposedFix_columns _)..|];
        eexists; reflexivity.
    + intros c' s' diag' [= <- <- <-].
      exists (errorLog_at w error context a c s diag).
      destruct (confident a) as [[|]|];
        [destruct (js_truthy _);
         [destruct (auto_apply a _) as [[|]|]; [destruct (proposedFix_columns _)..|]|]
        |..];
        cbn; repeat (split; [reflexivity|]); reflexivity.
  - split; [do 4 (split; [reflexivity|]); eexists; reflexivity|]. split; [discriminate|].
    intros _. cbn. repeat (split; [reflexivity|]). reflexivity.
Qed.

(** X20. What [handleError] never does: it leaves the projects, the
    fragments and the sandbox alone; it calls the backend for the diagnosis
    first and then at most once, for the fix; it creates at most one error
    log.  Either it returns the error entry, and then it created at most one
    proposed fix and added, after the error entry, at most one entry, an
    approval request; or it ended in its [catch], and then it created no
    proposed fix and added, after the error entry, the generic ERROR entry it
    returns. *)
Theorem handleError_footprint error context pid timestamp w :
  let entry := errorMessage_at w error pid in
  let returned := fst (handleError error context pid timestamp w) in
  let w' := snd (handleError error context pid timestamp w) in
  projects w' = projects w
  /\ fragments w' = fragments w
  /\ sandboxOps w' = sandboxOps w
  /\ (exists calls,
        agentCalls w'
        = (agentCalls w ++ analysis_call (analysis_input error context timestamp) :: calls)%list
        /\ length calls <= 1
        /\ Forall (fun c => agent c = "fix-generator") calls)
  /\ (errorLogs w' = errorLogs w
      \/ exists l, errorLogs w' = <[log_id l := l]> (errorLogs w))
  /\ ((returned = entry
       /\ (proposedFixes w' = proposedFixes w
           \/ exists f, proposedFixes w' = <[fix_id f := f]> (proposedFixes w))
       /\ exists later,
            messages w' = (messages w ++ entry :: later)%list
            /\ length later <= 1
            /\ Forall (fun m => msg_type m = APPROVAL_REQUEST) later)
      \/ (content returned = "Something went wrong. Please try again."
          /\ msg_type returned = ERROR
          /\ proposedFixes w' = proposedFixes w
          /\ messages w' = (messages w ++ [entry; returned])%list)).
Proof.
  intros entry returned w'. subst returned w'.
  rewrite handleError_run. cbv zeta. fold entry.
  set (a := analysis_of (analysis_input error context timestamp)).
  set (p := draft_of a (fix_input error context)).
  assert (forall n calls logs,
            length calls <= 1 ->
            Forall (fun c => agent c = "fix-generator") calls ->
            (logs = errorLogs w \/ exists l, logs = <[log_id l := l]> (errorLogs w)) ->
            let r := (fallbackMessage_at w n pid,
                      handled w [entry; fallbackMessage_at w n pid] logs (proposedFixes w)
                        (S n)
                        (analysis_call (analysis_input error context timestamp) :: calls)) in
            projects (snd r) = projects w
            /\ fragments (snd r) = fragments w
            /\ sandboxOps (snd r) = sandboxOps w
            /\ (exists calls0,
                  agentCalls (snd r)
                  = (agentCalls w
                     ++ analysis_call (analysis_input error context timestamp) :: calls0)%list
                  /\ length calls0 <= 1
                  /\ Forall (fun c => agent c = "fix-generator") calls0)
            /\ (errorLogs (snd r) = errorLogs w
                \/ exists l, errorLogs (snd r) = <[log_id l := l]> (errorLogs w))
            /\ ((fst r = entry
                 /\ (proposedFixes (snd r) = proposedFixes w
                     \/ exists f, proposedFixes (snd r) = <[fix_id f := f]> (proposedFixes w))
                 /\ exists later,
                      messages (snd r) = (messages w ++ entry :: later)%list
                      /\ length later <= 1
                      /\ Forall (fun m => msg_type m = APPROVAL_REQUEST) later)
                \/ (content (fst r) = "Something went wrong. Please try again."
                    /\ msg_type (fst r) = ERROR
                    /\ proposedFixes (snd r) = proposedFixes w
                    /\ messages (snd r) = (messages w ++ [entry; fst r])%list))) as Hcaught.
  { intros n calls logs Hlen Hcalls Hlogs r. subst r. cbn.
    do 3 (split; [reflexivity|]).
    split; [exists calls; auto|].
    split; [exact Hlogs|].
    right. repeat (split; [reflexivity|]). reflexivity. }
  assert (forall (fixes : gmap string ProposedFix) n calls logs later,
            length calls <= 1 ->
            Forall (fun c => agent c = "fix-generator") calls ->
            (logs = errorLogs w \/ exists l, logs = <[log_id l := l]> (errorLogs w)) ->
            (fixes = proposedFixes w
             \/ exists f, fixes = <[fix_id f := f]> (proposedFixes w)) ->
            length later <= 1 ->
            Forall (fun m => msg_type m = APPROVAL_REQUEST) later ->
            let r := (entry,
                      handled w (entry :: later) logs fixes n
                        (analysis_call (analysis_input error context timestamp) :: calls)) in
            projects (snd r) = projects w
            /\ fragments (snd r) = fragments w
            /\ sandboxOps (snd r) = sandboxOps w
            /\ (exists calls0,
                  agentCalls (snd r)
                  = (agentCalls w
                     ++ analysis_call (analysis_input error context timestamp) :: calls0)%list
                  /\ length calls0 <= 1
                  /\ Forall (fun c => agent c = "fix-generator") calls0)
            /\ (errorLogs (snd r) = errorLogs w
                \/ exists l, errorLogs (snd r) = <[log_id l := l]> (errorLogs w))
            /\ ((fst r = entry
                 /\ (proposedFixes (snd r) = proposedFixes w
                     \/ exists f, proposedFixes (snd r) = <[fix_id f := f]> (proposedFixes w))
                 /\ exists later0,
                      messages (snd r) = (messages w ++ entry :: later0)%list
                      /\ length later0 <= 1
                      /\ Forall (fun m => msg_type m = APPROVAL_REQUEST) later0)
                \/ (content (fst r) = "Something went wrong. Please try again."
                    /\ msg_type (fst r) = ERROR
                    /\ proposedFixes (snd r) = proposedFixes w
                    /\ messages (snd r) = (messages w ++ [entry; fst r])%list))) as Hfine.
  { intros fixes n calls logs later Hlen Hcalls Hlogs Hfixes Hlater Hreq r. subst r. cbn.
    do 3 (split; [reflexivity|]).
    split; [exists calls; auto|].
    split; [exact Hlogs|].
    left. split; [reflexivity|]. split; [exact Hfixes|].
    exists later. auto. }
  assert (length (@nil AgentCall) <= 1) as Hnone by (cbn; lia).
  assert (forall c : AgentCall, length [c] <= 1) as Hone by (intros c; cbn; lia).
  assert (length (@nil Message) <= 1) as Hnone' by (cbn; lia).
  assert (forall m : Message, length [m] <= 1) as Hone' by (intros m; cbn; lia).
  destruct (errorLog_columns a) as [[[c s] diag]|].
  - assert (<[cuid (S (nextId w)) := errorLog_at w error context a c s diag]> (errorLogs w)
            = errorLogs w
            \/ exists l, <[cuid (S (nextId w)) := errorLog_at w error context a c s diag]>
                           (errorLogs w)
                         = <[log_id l := l]> (errorLogs w)) as Hlogs.
    { right. exists (errorLog_at w error context a c s diag). reflexivity. }
    destruct (confident a) as [[|]|].
    + assert (Forall (fun c => agent c = "fix-generator") [fix_call a (fix_input error context)])
        as Hcall by (constructor; [reflexivity|constructor]).
      destruct (js_truthy _).
      * destruct (auto_apply a p) as [[|]|];
          [destruct (proposedFix_columns p) as [draft|]..|].
        -- apply (Hfine _ 3 _ _ []); auto.
           right. exists (proposedFix_at w draft AUTO_FIXED). reflexivity.
        -- apply (Hcaught 2); auto.
        -- apply (Hfine _ 4 _ _ [request_at w pid draft]); auto;
             try solve [constructor; [reflexivity|constructor]].
           right. exists (proposedFix_at w draft PENDING). reflexivity.
        -- apply (Hcaught 2); auto.
        -- apply (Hcaught 2); auto.
      * apply (Hfine _ 2 _ _ []); auto.
    + apply (Hfine _ 2 [] _ []); auto.
    + apply (Hcaught 2 []); auto.
  - apply (Hcaught 1 []); auto.
Qed.

(** X21. On the auto-apply path no approval request is created: when the
    severity is LOW and the draft's confidence exceeds 0.8, the fix is
    stored as AUTO_FIXED and the only new conversation entry is the error
    entry. *)
Theorem auto_fixed_has_no_approval_request error context pid timestamp w d draft :
  let a := analysis_of (analysis_input error context timestamp) in
  let w' := snd (handleError error context pid timestamp w) in
  is_diagnosis a d ->
  canAutoFix d && gt (confidence d) c0_7 = true ->
  is_draft (draft_of a (fix_input error context)) draft ->
  is_LOW (severity d) && gt (draft_confidence draft) c0_8 = true ->
  messages w' = (messages w ++ [fst (handleError error context pid timestamp w)])%list
  /\ exists f,
       proposedFixes w' = <[fix_id f := f]> (proposedFixes w)
       /\ status f = AUTO_FIXED
       /\ reviewedBy f = None /\ reviewedAt f = None /\ feedback f = None.
Proof.
  intros a w' Hd Hgate Hdraft Hpolicy. subst w'.
  rewrite (handleError_drafted _ _ _ _ _ d draft Hd Hgate Hdraft). rewrite Hpolicy.
  cbn [fst snd messages proposedFixes handled]. split; [reflexivity|].
  exists (proposedFix_at w draft AUTO_FIXED). cbn. repeat (split; [reflexivity|]).
  reflexivity.
Qed.

(** X22. When fix generation yields a falsy value ([null] because the
    backend rejects or its output does not parse, or a falsy value that was
    parsed), the failure is still recorded but no proposed fix and no
    approval request are created; the backend was called twice, for the
    diagnosis and for the fix. *)
Theorem no_draft_no_fix error context pid timestamp w d :
  let a := analysis_of (analysis_input error context timestamp) in
  let w' := snd (handleError error context pid timestamp w) in
  is_diagnosis a d ->
  canAutoFix d && gt (confidence d) c0_7 = true ->
  js_truthy (Some (draft_value (draft_of a (fix_input error context)))) = false ->
  proposedFixes w' = proposedFixes w
  /\ messages w' = (messages w ++ [fst (handleError error context pid timestamp w)])%list
  /\ map agent (agentCalls w')
     = (map agent (agentCalls w) ++ ["error-analyzer"; "fix-generator"])%list.
Proof.
  intros a w' Hd Hgate Hdraft. subst w'.
  rewrite (handleError_no_draft _ _ _ _ _ d Hd Hgate Hdraft).
  cbn [fst snd messages proposedFixes agentCalls handled].
  split; [reflexivity|]. split; [reflexivity|].
  rewrite map_app. reflexivity.
Qed.

(** X23. The two thresholds are strict, and a NaN confidence never passes: a
    diagnosis whose confidence is exactly 0.7, or NaN, gets no proposed fix;
    a draft whose confidence is exactly 0.8, or NaN, is stored PENDING, even
    at severity LOW. *)
Theorem thresholds_are_strict error context pid timestamp w d :
  let a := analysis_of (analysis_input error context timestamp) in
  let w' := snd (handleError error context pid timestamp w) in
  is_diagnosis a d ->
  (confidence d = c0_7 \/ confidence d = S754_nan ->
   proposedFixes w' = proposedFixes w)
  /\ (forall draft,
        canAutoFix d && gt (confidence d) c0_7 = true ->
        is_draft (draft_of a (fix_input error context)) draft ->
        draft_confidence draft = c0_8 \/ draft_confidence draft = S754_nan ->
        exists f, proposedFixes w' = <[fix_id f := f]> (proposedFixes w)
                  /\ status f = PENDING).
Proof.
  intros a w' Hd. subst w'. split.
  - intros Hconf.
    assert (canAutoFix d && gt (confidence d) c0_7 = false) as Hgate.
    { destruct Hconf as [-> | ->]; apply andb_false_r. }
    rewrite (handleError_declined _ _ _ _ _ d Hd Hgate). reflexivity.
  - intros draft Hgate Hdraft Hconf.
    assert (is_LOW (severity d) && gt (draft_confidence draft) c0_8 = false) as Hpolicy.
    { destruct Hconf as [-> | ->]; apply andb_false_r. }
    rewrite (handleError_drafted _ _ _ _ _ d draft Hd Hgate Hdraft). rewrite Hpolicy.
    exists (proposedFix_at w draft PENDING). split; reflexivity.
Qed.


(** ** The queries: properties *)

Lemma approval_row_spec w pid uid f a :
  approval_row w pid uid f = Some a
  <-> approval_fix a = f
      /\ errorLogs w !! errorLogId f = Some (approval_errorLog a)
      /\ List.find (fun m => String.eqb (msg_id m) (messageId (approval_errorLog a)))
           (messages w) = Some (approval_message a)
      /\ projectId (approval_message a) = pid
      /\ exists p, projects w !! pid = Some p /\ userId p = uid.
Proof.
  unfold approval_row. split.
  - destruct (errorLogs w !! errorLogId f) as [l|]; [|discriminate].
    destruct (List.find _ (messages w)) as [m|] eqn:Hm; [|discriminate].
    destruct (String.eqb (projectId m) pid) eqn:Hpid; [|discriminate].
    apply String.eqb_eq in Hpid.
    destruct (projects w !! projectId m) as [p|] eqn:Hp; [|discriminate].
    destruct (String.eqb (userId p) uid) eqn:Huid; [|discriminate].
    apply String.eqb_eq in Huid. intros [= <-]. cbn. rewrite <- Hpid.
    repeat (split; [first [reflexivity|assumption]|]). exists p. auto.
  - destruct a as [fa la ma]. cbn. intros (-> & -> & -> & <- & p & -> & <-).
    rewrite !String.eqb_refl. reflexivity.
Qed.

Lemma where_approvals_spec keep pid uid w a :
  a ∈ where_approvals keep pid uid w
  <-> keep (approval_fix a) = true /\ approval_of w pid uid a.
Proof.
  unfold where_approvals, approval_of. rewrite list_elem_of_omap. split.
  - intros ([id f] & Hin & Hrow). apply elem_of_map_to_list in Hin. cbn in Hrow.
    destruct (keep f) eqn:Hkeep; [|discriminate].
    apply approval_row_spec in Hrow as (<- & Hl & Hm & Hpid & Hp) .
    split; [exact Hkeep|]. split; [eauto|]. auto.
  - intros (Hkeep & (id & Hid) & Hl & Hm & Hpid & Hp).
    exists (id, approval_fix a). split; [apply elem_of_map_to_list; exact Hid|].
    cbn. rewrite Hkeep. apply approval_row_spec. auto.
Qed.

Lemma insert_newest_perm createdAt a l :
  Permutation (insert_newest createdAt a l) (a :: l).
Proof.
  induction l as [|b rest IH]; cbn; [reflexivity|].
  destruct (created createdAt b <=? created createdAt a)%Z; [reflexivity|].
  rewrite IH. apply perm_swap.
Qed.

Lemma newest_first_perm createdAt l : Permutation (newest_first createdAt l) l.
Proof.
  induction l as [|a rest IH]; cbn; [reflexivity|].
  rewrite insert_newest_perm, IH. reflexivity.
Qed.

Lemma insert_newest_sorted createdAt a l :
  StronglySorted (newer_or_same createdAt) l ->
  StronglySorted (newer_or_same createdAt) (insert_newest createdAt a l).
Proof.
  induction 1 as [|b rest Hrest IH Hb]; cbn.
  - repeat constructor.
  - destruct (created createdAt b <=? created createdAt a)%Z eqn:Hle.
    + apply Z.leb_le in Hle. constructor; [constructor; assumption|].
      constructor; [exact Hle|].
      eapply Forall_impl; [exact Hb|]. unfold newer_or_same. intros; lia.
    + apply Z.leb_gt in Hle. constructor; [exact IH|].
      rewrite (insert_newest_perm createdAt a rest).
      constructor; [unfold newer_or_same; lia|exact Hb].
Qed.

Lemma newest_first_sorted createdAt l :
  StronglySorted (newer_or_same createdAt) (newest_first createdAt l).
Proof.
  induction l as [|a rest IH]; cbn; [constructor|].
  apply insert_newest_sorted, IH.
Qed.


Lemma insert_newest_head createdAt a l :
  Forall (fun b => (created createdAt b <= created createdAt a)%Z) l ->
  insert_newest createdAt a l = a :: l.
Proof.
  destruct 1 as [|b rest Hb _]; cbn; [reflexivity|].
  apply Z.leb_le in Hb. rewrite Hb. reflexivity.
Qed.

Lemma Forall_filter_keeps {A} (P : A -> Prop) (p : A -> bool) (l : list A) :
  Forall P l -> Forall P (List.filter p l).
Proof.
  induction 1 as [|x l Hx _ IH]; cbn; [constructor|].
  destruct (p x); [constructor; assumption|assumption].
Qed.

(** Filtering a sorted list commutes with inserting into it. *)
Lemma filter_insert_newest createdAt (p : Approval -> bool) a l :
  StronglySorted (newer_or_same createdAt) l ->
  List.filter p (insert_newest createdAt a l)
  = if p a then insert_newest createdAt a (List.filter p l) else List.filter p l.
Proof.
  induction 1 as [|b rest Hrest IH Hb]; cbn.
  - destruct (p a); reflexivity.
  - destruct (created createdAt b <=? created createdAt a)%Z eqn:Hle; cbn.
    + destruct (p b) eqn:Hpb; cbn.
      * rewrite Hle. reflexivity.
      * destruct (p a); [|reflexivity].
        symmetry. apply insert_newest_head, Forall_filter_keeps.
        apply Z.leb_le in Hle.
        eapply Forall_impl; [exact Hb|]. unfold newer_or_same. intros; lia.
    + rewrite IH. destruct (p b) eqn:Hpb, (p a); cbn; rewrite ?Hle; reflexivity.
Qed.

Lemma newest_first_filter createdAt (p : Approval -> bool) l :
  newest_first createdAt (List.filter p l) = List.filter p (newest_first createdAt l).
Proof.
  induction l as [|a rest IH]; [reflexivity|].
  change (newest_first createdAt (a :: rest))
    with (insert_newest createdAt a (newest_first createdAt rest)).
  rewrite (filter_insert_newest createdAt p a _ (newest_first_sorted createdAt rest)).
  cbn [List.filter]. destruct (p a); [|exact IH].
  change (newest_first createdAt (a :: List.filter p rest))
    with (insert_newest createdAt a (newest_first createdAt (List.filter p rest))).
  rewrite IH. reflexivity.
Qed.

Lemma where_approvals_keep keep pid uid w :
  where_approvals keep pid uid w
  = List.filter (fun a => keep (approval_fix a)) (where_approvals (fun _ => true) pid uid w).
Proof.
  unfold where_approvals. induction (map_to_list (proposedFixes w)) as [|row rows IH];
    [reflexivity|].
  cbn. destruct (approval_row w pid uid (snd row)) as [a|] eqn:Hrow.
  - apply approval_row_spec in Hrow as [Hfix _]. cbn. rewrite Hfix.
    destruct (keep (snd row)); rewrite IH; reflexivity.
  - destruct (keep (snd row)); exact IH.
Qed.

(** X25. The pending list is the pending part of the history: what
    [getPendingApprovals] returns is what [getAllApprovals] returns, with
    the rows that are not PENDING left out and the order kept. *)
Theorem pending_is_the_pending_part_of_all createdAt pid uid w :
  truthy pid = true ->
  exists pending history,
    getPendingApprovals createdAt pid uid w = Returned pending
    /\ getAllApprovals createdAt pid uid w = Returned history
    /\ pending = List.filter (fun a => is_PENDING (approval_fix a)) history
    /\ forall a, a ∈ pending <-> a ∈ history /\ status (approval_fix a) = PENDING.
Proof.
  intros Hpid. unfold getPendingApprovals, getAllApprovals. rewrite Hpid.
  eexists _, _. split; [reflexivity|]. split; [reflexivity|].
  assert (newest_first createdAt (where_approvals is_PENDING pid uid w)
          = List.filter (fun a => is_PENDING (approval_fix a))
              (newest_first createdAt (where_approvals (fun _ => true) pid uid w))) as Heq.
  { rewrite (where_approvals_keep is_PENDING). apply newest_first_filter. }
  split; [exact Heq|].
  intros a. rewrite Heq, !list_elem_of_In, filter_In.
  unfold is_PENDING. destruct (status (approval_fix a)); cbn;
    split; intros [Hin H]; split; try exact Hin; congruence.
Qed.

Lemma where_errorLogs_spec pid uid w l :
  l ∈ where_errorLogs pid uid w ->
  exists p, projects w !! pid = Some p /\ userId p = uid.
Proof.
  unfold where_errorLogs. rewrite list_elem_of_omap.
  intros ([id l0] & _ & Hrow). cbn in Hrow.
  destruct (List.find _ (messages w)) as [m|]; [|discriminate].
  destruct (String.eqb (projectId m) pid) eqn:Hpid; [|discriminate].
  apply String.eqb_eq in Hpid. rewrite Hpid in Hrow.
  destruct (projects w !! pid) as [p|]; [|discriminate].
  destruct (String.eqb (userId p) uid) eqn:Huid; [|discriminate].
  apply String.eqb_eq in Huid. eauto.
Qed.

Lemma list_without_elements {A} (l : list A) : (forall x, x ∉ l) -> l = [].
Proof.
  destruct l as [|x l]; [reflexivity|]. intros H. destruct (H x). left.
Qed.

(** X26. The three queries are scoped to the caller: for a project that does
    not exist or belongs to someone else, the two lists are empty and the
    statistics have no group, whatever the store holds. *)
Theorem queries_hide_foreign_projects createdAt pid uid w :
  truthy pid = true ->
  (forall p, projects w !! pid = Some p -> userId p <> uid) ->
  getPendingApprovals createdAt pid uid w = Returned []
  /\ getAllApprovals createdAt pid uid w = Returned []
  /\ getErrorStats pid uid w
     = Returned {| errorsByCategory := []; fixesByStatus := [] |}.
Proof.
  intros Hpid Hforeign.
  assert (forall keep, where_approvals keep pid uid w = []) as Hrows.
  { intros keep. apply list_without_elements. intros a Ha.
    apply where_approvals_spec in Ha as (_ & _ & _ & _ & _ & p & Hp & Hu).
    exact (Hforeign p Hp Hu). }
  assert (where_errorLogs pid uid w = []) as Hlogs.
  { apply list_without_elements. intros l Hl.
    apply where_errorLogs_spec in Hl as (p & Hp & Hu). exact (Hforeign p Hp Hu). }
  unfold getPendingApprovals, getAllApprovals, getErrorStats.
  rewrite Hpid, !Hrows, Hlogs. repeat split; reflexivity.
Qed.

Lemma find_app_same {A} (p : A -> bool) (l l' : list A) (x : A) :
  List.find p l = Some x -> forall y, List.find p (l ++ l') = Some y <-> y = x.
Proof.
  intros Hx y. rewrite (find_app_found p l l' x Hx). split; congruence.
Qed.

(** The rows that pass the [where] clause after a review wrote [f'] over the
    row [f] of [id]: the former rows of the other fixes, and the row of [id]
    with [f'] in place of [f]. *)
Lemma where_after_review keep pid uid w id f f' ops pid' text a :
  consistent w ->
  proposedFixes w !! id = Some f ->
  errorLogId f' = errorLogId f ->
  a ∈ where_approvals keep pid uid
        (after_review (set_sandboxOps (sandboxOps w ++ ops) w) id f' pid' text)
  <-> (a ∈ where_approvals keep pid uid w /\ fix_id (approval_fix a) <> id)
      \/ (keep f' = true /\ approval_fix a = f'
          /\ {| approval_fix := f; approval_errorLog := approval_errorLog a;
                approval_message := approval_message a |}
             ∈ where_approvals (fun _ => true) pid uid w).
Proof.
  intros Hw Hrow Hlog. rewrite !where_approvals_spec. unfold approval_of.
  cbn [after_review proposedFixes errorLogs messages projects set_messages set_nextId
         set_proposedFixes set_sandboxOps approval_fix approval_errorLog approval_message].
  assert (forall fa la k,
            proposedFixes w !! k = Some fa ->
            errorLogs w !! errorLogId fa = Some la ->
            forall ma new,
              List.find (fun m => String.eqb (msg_id m) (messageId la)) (messages w ++ new)
              = Some ma
              <-> List.find (fun m => String.eqb (msg_id m) (messageId la)) (messages w)
                  = Some ma) as Hfind.
  { intros fa la k Hk Hla ma new.
    destruct (Hw k fa Hk) as (_ & l & m & Hl & Hm).
    rewrite Hla in Hl. injection Hl as <-.
    rewrite (find_app_same _ _ new _ Hm). rewrite Hm. split; congruence. }
  split.
  - intros (Hkeep & (k & Hk) & Hl & Hm & Hpid & Hp).
    destruct (decide (k = id)) as [->|Hne].
    + rewrite lookup_insert_eq in Hk. injection Hk as Hk.
      right. split; [rewrite Hk; exact Hkeep|]. split; [auto|].
      rewrite <- Hk, Hlog in Hl.
      split; [reflexivity|]. split; [eauto|]. split; [exact Hl|].
      split; [|auto]. apply (Hfind f _ id Hrow Hl) in Hm. exact Hm.
    + rewrite lookup_insert_ne in Hk by congruence.
      left. split.
      * split; [exact Hkeep|]. split; [eauto|]. split; [exact Hl|].
        split; [|auto]. apply (Hfind _ _ k Hk Hl) in Hm. exact Hm.
      * destruct (Hw k _ Hk) as [-> _]. exact Hne.
  - intros [[(Hkeep & (k & Hk) & Hl & Hm & Hpid & Hp) Hne]
           |(Hkeep & Hfix & _ & _ & Hl & Hm & Hpid & Hp)].
    + split; [exact Hkeep|]. split.
      * exists k. rewrite lookup_insert_ne; [exact Hk|].
        destruct (Hw k _ Hk) as [<- _]. congruence.
      * split; [exact Hl|]. split; [|auto]. apply (Hfind _ _ k Hk Hl). exact Hm.
    + rewrite Hfix. split; [exact Hkeep|]. split.
      * exists id. apply lookup_insert_eq.
      * rewrite Hlog. split; [exact Hl|]. split; [|auto].
        apply (Hfind f _ id Hrow Hl). exact Hm.
Qed.

Lemma after_review_no_ops w id f' pid text :
  after_review w id f' pid text
  = after_review (set_sandboxOps (sandboxOps w ++ []) w) id f' pid text.
Proof. rewrite app_nil_r, set_sandboxOps_id. reflexivity. Qed.

(** X27. A decision removes the fix from the pending list and nothing else:
    in a store that respects the keys of the schema, after a reject that
    returns, or an approve that returns with success, the pending approvals
    of a project are the former ones without the fix that was decided. *)
Theorem decided_fix_leaves_the_pending_list createdAt pid uid u now w :
  consistent w ->
  truthy pid = true ->
  let pending (w0 : World) :=
    match getPendingApprovals createdAt pid uid w0 with
    | Returned rows => rows
    | Threw _ => []
    end in
  (forall input updated w',
     run (rejectFix input u now) w = (Returned updated, w') ->
     forall a, a ∈ pending w'
               <-> a ∈ pending w /\ fix_id (approval_fix a) <> reject_proposedFixId input)
  /\ (forall input reply w',
        run (approveFix input u now) w = (Returned reply, w') ->
        reply_success reply = true ->
        forall a, a ∈ pending w'
                  <-> a ∈ pending w /\ fix_id (approval_fix a) <> proposedFixId input).
Proof.
  intros Hw Hpid pending. subst pending. cbv beta.
  unfold getPendingApprovals. rewrite Hpid. cbn [negb].
  split.
  - intros input updated w' Hrun a.
    destruct (run_rejectFix_cases input u now w)
      as [[e H]|(f & inc & _ & _ & Hfound & _ & _ & H)];
      rewrite H in Hrun; [discriminate Hrun|].
    injection Hrun as _ <-.
    rewrite !newest_first_perm, after_review_no_ops.
    erewrite (where_after_review is_PENDING pid uid w _ f);
      [|exact Hw|exact (findUnique_row _ _ _ _ Hfound)|reflexivity].
    split; [intros [H1|(Hkeep & _)]; [exact H1|discriminate Hkeep]|auto].
  - intros input reply w' Hrun Hok a.
    destruct (run_approveFix_cases input u now w)
      as [[e H]|(f & inc & r & ops & _ & Hfound & _ & _ & H)];
      rewrite H in Hrun; [discriminate Hrun|].
    injection Hrun as <- <-. cbn [reply_success] in Hok.
    rewrite !newest_first_perm.
    erewrite (where_after_review is_PENDING pid uid w _ f);
      [|exact Hw|exact (findUnique_row _ _ _ _ Hfound)|reflexivity].
    rewrite Hok.
    split; [intros [H1|(Hkeep & _)]; [exact H1|discriminate Hkeep]|auto].
Qed.

(** X28. A decided fix stays in the history with its new status, and a fix
    whose approval failed stays in the pending list: in a store that
    respects the keys of the schema, after a review call that returns, the
    history of a project lists the same fixes as before, the reviewed one
    with the row that the call returned. *)
Theorem reviewed_fix_stays_in_the_history createdAt pid uid u now w :
  consistent w ->
  truthy pid = true ->
  let history (w0 : World) :=
    match getAllApprovals createdAt pid uid w0 with
    | Returned rows => rows
    | Threw _ => []
    end in
  let replaced (id : string) (f' : ProposedFix) (w' : World) :=
    forall a,
      a ∈ history w'
      <-> (a ∈ history w /\ fix_id (approval_fix a) <> id)
          \/ (approval_fix a = f'
              /\ exists a0, a0 ∈ history w
                            /\ proposedFixes w !! id = Some (approval_fix a0)
                            /\ approval_errorLog a0 = approval_errorLog a
                            /\ approval_message a0 = approval_message a) in
  (forall input updated w',
     run (rejectFix input u now) w = (Returned updated, w') ->
     replaced (reject_proposedFixId input) updated w')
  /\ (forall input reply w',
        run (approveFix input u now) w = (Returned reply, w') ->
        replaced (proposedFixId input) (reply_proposedFix reply) w').
Proof.
  intros Hw Hpid history replaced. subst history replaced. cbv beta.
  unfold getAllApprovals. rewrite Hpid. cbn [negb].
  assert (forall id f f' ops pid' text,
            proposedFixes w !! id = Some f ->
            errorLogId f' = errorLogId f ->
            forall a,
              a ∈ newest_first createdAt
                    (where_approvals (fun _ => true) pid uid
                       (after_review (set_sandboxOps (sandboxOps w ++ ops) w) id f' pid' text))
              <-> (a ∈ newest_first createdAt (where_approvals (fun _ => true) pid uid w)
                   /\ fix_id (approval_fix a) <> id)
                  \/ (approval_fix a = f'
                      /\ exists a0,
                           a0 ∈ newest_first createdAt
                                  (where_approvals (fun _ => true) pid uid w)
                           /\ proposedFixes w !! id = Some (approval_fix a0)
                           /\ approval_errorLog a0 = approval_errorLog a
                           /\ approval_message a0 = approval_message a)) as Hmove.
  { intros id f f' ops pid' text Hrow Hlog a.
    rewrite !newest_first_perm.
    rewrite (where_after_review (fun _ => true) pid uid w id f f' ops pid' text a Hw Hrow Hlog).
    split; (intros [H|H]; [left; exact H|right]).
    - destruct H as (_ & Hfix & Hin). split; [exact Hfix|].
      eexists. rewrite newest_first_perm. split; [exact Hin|]. cbn. auto.
    - destruct H as (Hfix & [f0 l0 m0] & Hin & Hrow0 & Hl & Hm).
      rewrite newest_first_perm in Hin. cbn in Hrow0, Hl, Hm.
      split; [reflexivity|]. split; [exact Hfix|].
      rewrite Hrow in Hrow0. injection Hrow0 as <-. subst l0 m0. exact Hin. }
  split.
  - intros input updated w' Hrun.
    destruct (run_rejectFix_cases input u now w)
      as [[e H]|(f & inc & _ & _ & Hfound & _ & _ & H)];
      rewrite H in Hrun; [discriminate Hrun|].
    injection Hrun as <- <-. rewrite after_review_no_ops.
    apply (Hmove _ f); [exact (findUnique_row _ _ _ _ Hfound)|reflexivity].
  - intros input reply w' Hrun.
    destruct (run_approveFix_cases input u now w)
      as [[e H]|(f & inc & r & ops & _ & Hfound & _ & _ & H)];
      rewrite H in Hrun; [discriminate Hrun|].
    injection Hrun as <- <-. cbn [reply_proposedFix].
    apply (Hmove _ f); [exact (findUnique_row _ _ _ _ Hfound)|reflexivity].
Qed.

Lemma shown_count_groupBy rows st :
  shown_count st (groupBy_status rows)
  = length (List.filter (fun a => status_eqb (status (approval_fix a)) st) rows).
Proof.
  unfold shown_count, groupBy_status. cbn [map].
  set (count := fun st => length (List.filter
                                    (fun a => status_eqb (status (approval_fix a)) st) rows)).
  change (length (List.filter (fun a => status_eqb (status (approval_fix a)) st) rows))
    with (count st).
  change (length (List.filter (fun a => status_eqb (status (approval_fix a)) PENDING) rows))
    with (count PENDING).
  change (length (List.filter (fun a => status_eqb (status (approval_fix a)) APPROVED) rows))
    with (count APPROVED).
  change (length (List.filter (fun a => status_eqb (status (approval_fix a)) REJECTED) rows))
    with (count REJECTED).
  change (length (List.filter (fun a => status_eqb (status (approval_fix a)) AUTO_FIXED) rows))
    with (count AUTO_FIXED).
  clearbody count. cbn [List.filter snd].
  destruct (Nat.eqb_spec (count PENDING) 0) as [HP|HP],
           (Nat.eqb_spec (count APPROVED) 0) as [HA|HA],
           (Nat.eqb_spec (count REJECTED) 0) as [HR|HR],
           (Nat.eqb_spec (count AUTO_FIXED) 0) as [HF|HF];
    destruct st; cbn; congruence.
Qed.

Lemma filter_length_perm {A} (p : A -> bool) (l l' : list A) :
  Permutation l l' -> length (List.filter p l) = length (List.filter p l').
Proof.
  induction 1 as [|x l l' _ IH|x y l|l l' l'' _ IH1 _ IH2]; cbn.
  - reflexivity.
  - destruct (p x); cbn; rewrite IH; reflexivity.
  - destruct (p x), (p y); reflexivity.
  - rewrite IH1. exact IH2.
Qed.

(** X29. The figures of the approvals section agree with the lists: for every
    status, the count that the section reads from [getErrorStats] (0 when the
    status has no group) is the number of rows with that status in
    [getAllApprovals]; for PENDING it is the length of
    [getPendingApprovals]. *)
Theorem shown_counts_match_the_lists createdAt pid uid w :
  truthy pid = true ->
  exists stats history pending,
    getErrorStats pid uid w = Returned stats
    /\ getAllApprovals createdAt pid uid w = Returned history
    /\ getPendingApprovals createdAt pid uid w = Returned pending
    /\ (forall st,
          shown_count st (fixesByStatus stats)
          = length (List.filter (fun a => status_eqb (status (approval_fix a)) st) history))
    /\ shown_count PENDING (fixesByStatus stats) = length pending
    /\ Forall (fun g => snd g <> 0) (fixesByStatus stats).
Proof.
  intros Hpid. unfold getErrorStats, getAllApprovals, getPendingApprovals. rewrite Hpid.
  eexists _, _, _. do 3 (split; [reflexivity|]). cbn [fixesByStatus].
  assert (forall st,
            shown_count st (groupBy_status (where_approvals (fun _ => true) pid uid w))
            = length (List.filter (fun a => status_eqb (status (approval_fix a)) st)
                        (newest_first createdAt (where_approvals (fun _ => true) pid uid w))))
    as Hcount.
  { intros st. rewrite shown_count_groupBy.
    apply filter_length_perm. symmetry. apply newest_first_perm. }
  split; [exact Hcount|]. split.
  - rewrite Hcount, (where_approvals_keep is_PENDING), newest_first_filter.
    f_equal. apply List.filter_ext. intros a. unfold is_PENDING.
    destruct (status (approval_fix a)); reflexivity.
  - unfold groupBy_status. apply Forall_forall. intros g Hg.
    apply list_elem_of_In, filter_In in Hg as [_ Hg].
    destruct (Nat.eqb_spec (snd g) 0); [discriminate|assumption].
Qed.

(** X30. The history handed to the agent is the last five messages of the
    project, oldest first, each as a text message with role "assistant" or
    "user": when the project has at most five messages it is all of them,
    and it never has more than five. *)
Theorem previous_messages_are_the_last_five pid w :
  previousMessages pid w
  = map format_message
      (skipn (length (project_messages pid w) - 5) (project_messages pid w))
  /\ length (previousMessages pid w) = Nat.min 5 (length (project_messages pid w))
  /\ (length (project_messages pid w) <= 5 ->
      previousMessages pid w = map format_message (project_messages pid w)).
Proof.
  assert (previousMessages pid w
          = map format_message
              (skipn (length (project_messages pid w) - 5) (project_messages pid w)))
    as Heq.
  { unfold previousMessages. fold (project_messages pid w).
    rewrite <- map_rev, firstn_rev, rev_involutive. reflexivity. }
  split; [exact Heq|]. split.
  - rewrite Heq, length_map, length_skipn. lia.
  - intros Hshort. rewrite Heq.
    replace (length (project_messages pid w) - 5) with 0 by lia. reflexivity.
Qed.

End Properties.

(** ** Examples

    The theorems at the sample data. *)

(** C3. A diagnosis of severity LOW and a draft of confidence 0.85: the fix
    is stored as AUTO_FIXED, yet its command is never run on the sandbox; the
    only conversation entry is the error message (no approval request). *)
Theorem auto_fixed_fix_is_not_executed :
  let w' :=
    snd (handleError (env := Sample.answering Sample.diagnosis Sample.c0_85)
           "Error: build failed" JNull "proj_1" "2025-01-01T00:00:00.000Z"
           Sample.empty_world) in
  (exists f, proposedFixes w' !! "id_2" = Some f
             /\ status f = AUTO_FIXED
             /\ commands (fixData f) = Some ["npm install"])
  /\ sandboxOps w' = []
  /\ map msg_type (messages w') = [ERROR].
Proof.
  cbv zeta. split; [|split]; [|vm_compute; reflexivity..].
  eexists. split; [vm_compute; reflexivity|]. split; reflexivity.
Qed.

Lemma created_fix_status_witness :
  exists f,
    proposedFixes
      (snd (handleError (env := Sample.answering Sample.diagnosis Sample.c0_85)
              "Error: build failed" JNull "proj_1" "2025-01-01T00:00:00.000Z"
              Sample.empty_world))
    = {[ fix_id f := f ]}
    /\ status f = AUTO_FIXED.
Proof.
  destruct (created_fix_status (env := Sample.answering Sample.diagnosis Sample.c0_85)
              "Error: build failed" JNull "proj_1" "2025-01-01T00:00:00.000Z"
              Sample.empty_world Sample.diagnosis (Sample.draft Sample.c0_85))
    as (f & Hf & _ & _ & _ & _ & Hauto & _); [repeat split; reflexivity..|].
  exists f. split; [exact Hf|]. apply Hauto. split; reflexivity.
Defined.

Lemma no_fix_without_confident_diagnosis_witness :
  proposedFixes
    (snd (handleError (env := Sample.answering Sample.hesitant Sample.c0_85)
            "Error: build failed" JNull "proj_1" "2025-01-01T00:00:00.000Z"
            Sample.empty_world))
  = ∅
  /\ proposedFixes
       (snd (handleError (env := Sample.saying (JObj [("canAutoFix", JBool false)]) JNull)
               "Error: build failed" JNull "proj_1" "2025-01-01T00:00:00.000Z"
               Sample.empty_world))
     = ∅.
Proof.
  split.
  - apply (proj1 (no_fix_without_confident_diagnosis
                    (env := Sample.answering Sample.hesitant Sample.c0_85)
                    "Error: build failed" JNull "proj_1" "2025-01-01T00:00:00.000Z"
                    Sample.empty_world) Sample.hesitant).
    + repeat split; reflexivity.
    + right. reflexivity.
  - apply (proj2 (no_fix_without_confident_diagnosis
                    (env := Sample.saying (JObj [("canAutoFix", JBool false)]) JNull)
                    "Error: build failed" JNull "proj_1" "2025-01-01T00:00:00.000Z"
                    Sample.empty_world)).
    left. reflexivity.
Defined.

Lemma analysis_failure_fallback_witness :
  fst (analyzeError (env := Sample.unreachable)
         (analysis_input "Error: build failed" JNull "2025-01-01T00:00:00.000Z")
         Sample.empty_world)
  = fallbackAnalysis.
Proof.
  apply (analysis_failure_fallback (env := Sample.unreachable)
           "Error: build failed" JNull "proj_1" "2025-01-01T00:00:00.000Z"
           Sample.empty_world).
  vm_compute. exact I.
Defined.

Lemma pending_fix_has_approval_request_witness :
  exists request,
    map msg_type
      (messages
         (snd (handleError (env := Sample.answering Sample.diagnosis Sample.c0_5)
                 "Error: build failed" JNull "proj_1" "2025-01-01T00:00:00.000Z"
                 Sample.empty_world)))
    = [ERROR; msg_type request]
    /\ msg_type request = APPROVAL_REQUEST.
Proof.
  destruct (pending_fix_has_approval_request
              (env := Sample.answering Sample.diagnosis Sample.c0_5)
              "Error: build failed" JNull "proj_1" "2025-01-01T00:00:00.000Z"
              Sample.empty_world Sample.diagnosis (Sample.draft Sample.c0_5))
    as (f & l & request & _ & _ & _ & _ & Hmsgs & Htype & _);
    [repeat split; reflexivity..|].
  exists request. split; [|exact Htype].
  rewrite Hmsgs. reflexivity.
Defined.

Lemma multiStep_commands_before_files_witness :
  let failing :=
    executeProposedFix (env := Sample.reviewing "npm run gen")
      (Sample.proposed Sample.scaffold PENDING) (Some "sbx1")
      (Sample.world Sample.scaffold PENDING (Some "sbx1.e2b.dev")) in
  let passing :=
    executeProposedFix (env := Sample.reviewing "npm audit")
      (Sample.proposed Sample.scaffold PENDING) (Some "sbx1")
      (Sample.world Sample.scaffold PENDING (Some "sbx1.e2b.dev")) in
  fst failing = {| success := false; exec_error := Some "Error: exit status 1" |}
  /\ sandboxOps (snd failing) = [OpRun "sbx1" "mkdir -p lib"; OpRun "sbx1" "npm run gen"]
  /\ fst passing = {| success := true; exec_error := None |}
  /\ sandboxOps (snd passing)
     = [OpRun "sbx1" "mkdir -p lib"; OpRun "sbx1" "npm run gen"; OpRun "sbx1" "npm test";
        OpWrite "sbx1" "lib/a.ts" "export {}"].
Proof.
  destruct (multiStep_commands_before_files (env := Sample.reviewing "npm run gen")
              (Sample.proposed Sample.scaffold PENDING) (Some "sbx1")
              (Sample.world Sample.scaffold PENDING (Some "sbx1.e2b.dev"))
              ["mkdir -p lib"; "npm run gen"; "npm test"]
              [ {| path := "lib/a.ts"; file_content := "export {}" |} ])
    as (_ & Hfault & _); [reflexivity..|].
  destruct (Hfault "sbx1" ["mkdir -p lib"] "npm run gen" ["npm test"] "Error: exit status 1")
    as [Hr Hw]; [reflexivity..|].
  destruct (multiStep_commands_before_files (env := Sample.reviewing "npm audit")
              (Sample.proposed Sample.scaffold PENDING) (Some "sbx1")
              (Sample.world Sample.scaffold PENDING (Some "sbx1.e2b.dev"))
              ["mkdir -p lib"; "npm run gen"; "npm test"]
              [ {| path := "lib/a.ts"; file_content := "export {}" |} ])
    as (_ & _ & Hreach); [reflexivity..|].
  destruct (Hreach "sbx1") as (Hiff & Hall & _); [reflexivity..|].
  destruct Hall as [Hr' Hw']; [apply Hiff; split; reflexivity|].
  cbv zeta. rewrite Hr, Hw, Hr', Hw'. repeat split; reflexivity.
Defined.

(** C5 fails as stated: approving a REJECTED fix is refused with BAD_REQUEST,
    not with CONFLICT. *)
Lemma approve_rejected_fix_not_CONFLICT :
  ~ exists e,
      fst (run (approveFix (env := Sample.reviewing "") Sample.approve "user_1" 1000)
             (Sample.world Sample.install REJECTED None))
      = Threw e
      /\ failure_code e = CONFLICT.
Proof.
  intros (e & He & Hcode). vm_compute in He. injection He as <-. discriminate Hcode.
Qed.

Lemma processed_fix_is_refused_witness :
  let w := Sample.world Sample.install REJECTED None in
  run (approveFix (env := Sample.reviewing "") Sample.approve "user_1" 1000) w
  = (Threw (TRPCError BAD_REQUEST "Fix already processed"), w)
  /\ run (rejectFix (env := Sample.reviewing "") Sample.reject "user_1" 1000) w
     = (Threw (TRPCError BAD_REQUEST "Fix already processed"), w).
Proof.
  apply (processed_fix_is_refused (env := Sample.reviewing "") "fix_1" "user_1"
           (Sample.world Sample.install REJECTED None)
           (Sample.proposed Sample.install REJECTED) (Sample.included None)).
  - reflexivity.
  - vm_compute. reflexivity.
  - reflexivity.
  - discriminate.
  - reflexivity.
Defined.

Lemma failed_execution_keeps_fix_pending_witness :
  exists e updated w',
    run (approveFix (env := Sample.reviewing "npm run gen") Sample.approve "user_1" 1000)
      (Sample.world Sample.scaffold PENDING (Some "sbx1.e2b.dev"))
    = (Returned {| reply_success := false; reply_proposedFix := updated;
                   executionError := Some e |}, w')
    /\ status updated = PENDING
    /\ feedback updated = Some "Fix failed to apply".
Proof.
  destruct (failed_execution_keeps_fix_pending (env := Sample.reviewing "npm run gen")
              Sample.approve "user_1" 1000
              (Sample.world Sample.scaffold PENDING (Some "sbx1.e2b.dev"))
              (Sample.proposed Sample.scaffold PENDING)
              (Sample.included (Some "sbx1.e2b.dev")) "sbx1.e2b.dev")
    as (e & updated & entry & w' & Hrun & _ & _ & Hstatus & _ & _ & _ & Hfb & _);
    [reflexivity| vm_compute; reflexivity | reflexivity.. |].
  exists e, updated, w'. split; [exact Hrun|]. split; [exact Hstatus|].
  apply Hfb. reflexivity.
Defined.

Lemma approval_without_sandbox_succeeds_witness :
  exists updated w',
    run (approveFix (env := Sample.reviewing "") Sample.approve "user_1" 1000)
      (Sample.world Sample.install PENDING None)
    = (Returned {| reply_success := true; reply_proposedFix := updated;
                   executionError := None |}, w')
    /\ status updated = APPROVED
    /\ sandboxOps w' = [].
Proof.
  destruct (approval_without_sandbox_succeeds (env := Sample.reviewing "")
              Sample.approve "user_1" 1000
              (Sample.world Sample.install PENDING None)
              (Sample.proposed Sample.install PENDING) (Sample.included None))
    as (updated & entry & w' & Hrun & Hops & _ & Hstatus & _);
    [reflexivity| vm_compute; reflexivity | reflexivity | reflexivity
    | left; reflexivity |].
  exists updated, w'. split; [exact Hrun|]. split; [exact Hstatus|exact Hops].
Defined.

(** C1 fails as stated: when the approve and the reject of one PENDING fix
    interleave (both read the fix before either writes it), both calls
    return, none is refused, and the reject overwrites the approval. *)
Lemma interleaved_calls_both_succeed :
  let state :=
    interleave [true; false; true; true; false; false]
      (approveFix (env := Sample.reviewing "") Sample.approve "user_1" 1000)
      (rejectFix (env := Sample.reviewing "") Sample.reject "user_1" 1001)
      (Sample.world Sample.install PENDING None) in
  exists approved rejected,
    finished state = Some (approved, rejected)
    /\ returned approved = true
    /\ returned rejected = true
    /\ ~ single_shot approved rejected
    /\ status <$> (proposedFixes (snd state) !! "fix_1") = Some REJECTED.
Proof.
  cbv zeta. eexists _, _.
  split; [vm_compute; reflexivity|].
  split; [reflexivity|]. split; [reflexivity|].
  split; [intros []|vm_compute; reflexivity].
Qed.

Lemma decision_is_single_shot_in_sequence_witness :
  let w1 :=
    snd (run (rejectFix (env := Sample.reviewing "") Sample.reject "user_1" 1001)
           (Sample.world Sample.install PENDING None)) in
  run (approveFix (env := Sample.reviewing "") Sample.approve "user_1" 1002) w1
  = (Threw (TRPCError BAD_REQUEST "Fix already processed"), w1).
Proof.
  destruct (decision_is_single_shot_in_sequence (env := Sample.reviewing "")
              "fix_1" "user_1" (Sample.world Sample.install PENDING None)
              (Sample.proposed Sample.install PENDING) (Sample.included None))
    as [Hreject _]; [reflexivity| vm_compute; reflexivity | reflexivity | reflexivity |].
  destruct (Hreject "Not needed" 1001%Z) as [_ Hrefuses]; [reflexivity|].
  destruct (Hrefuses None "Not needed" 1002%Z) as [Happrove _]; [reflexivity|].
  exact Happrove.
Defined.

(** ** Further examples *)

Lemma executor_requires_sandbox_witness :
  executeProposedFix (env := Sample.reviewing "")
    (Sample.proposed Sample.install PENDING) None Sample.empty_world
  = ({| success := false;
        exec_error := Some "Error: Sandbox ID required for command execution" |},
     Sample.empty_world).
Proof.
  apply (executor_requires_sandbox (env := Sample.reviewing "")
           (Sample.proposed Sample.install PENDING) None Sample.empty_world);
    reflexivity.
Defined.

Lemma executor_reports_unreachable_sandbox_witness :
  executeProposedFix (env := Scenario.offline)
    (Sample.proposed Sample.scaffold PENDING) (Some "sbx1") Sample.empty_world
  = ({| success := false; exec_error := Some "Error: sandbox not found" |},
     Sample.empty_world).
Proof.
  apply (executor_reports_unreachable_sandbox (env := Scenario.offline)
           (Sample.proposed Sample.scaffold PENDING) "sbx1" "Error: sandbox not found"
           Sample.empty_world); reflexivity.
Defined.

Lemma unknown_fix_type_is_a_silent_success_witness :
  executeProposedFix (env := Sample.reviewing "")
    (Sample.proposed Scenario.mystery PENDING) (Some "sbx1") Sample.empty_world
  = ({| success := true; exec_error := None |}, Sample.empty_world).
Proof.
  apply (unknown_fix_type_is_a_silent_success (env := Sample.reviewing "")
           (Sample.proposed Scenario.mystery PENDING) (Some "sbx1") Sample.empty_world).
  reflexivity.
Defined.

Lemma command_fix_stops_at_first_failure_witness :
  let result :=
    executeProposedFix (env := Sample.reviewing "npm install")
      (Sample.proposed Sample.install PENDING) (Some "sbx1") Sample.empty_world in
  fst result = {| success := false; exec_error := Some "Error: exit status 1" |}
  /\ sandboxOps (snd result) = [OpRun "sbx1" "npm install"].
Proof.
  destruct (command_fix_stops_at_first_failure (env := Sample.reviewing "npm install")
              (Sample.proposed Sample.install PENDING) "sbx1" Sample.empty_world
              ["npm install"])
    as (_ & _ & Hfault); [reflexivity..|].
  destruct (Hfault [] "npm install" [] "Error: exit status 1") as [Hr Hw];
    [reflexivity..|].
  cbv zeta. rewrite Hr, Hw. split; reflexivity.
Defined.

Lemma fileChange_fix_stops_at_first_failure_witness :
  success
    (fst (executeProposedFix (env := Sample.reviewing "")
            (Sample.proposed Scenario.write_all PENDING) (Some "sbx1")
            Sample.empty_world))
  = true.
Proof.
  apply (fileChange_fix_stops_at_first_failure (env := Sample.reviewing "")
           (Sample.proposed Scenario.write_all PENDING) "sbx1" Sample.empty_world
           [ {| path := "a.ts"; file_content := "export const a = 1" |};
             {| path := "b.ts"; file_content := "export const b = 2" |} ]);
    reflexivity.
Defined.

Lemma multiStep_members_are_optional_witness :
  executeProposedFix (env := Sample.reviewing "")
    (with_fixData (Sample.proposed Sample.install PENDING)
       {| fixType := "multiStep"; commands := None; files := None |})
    (Some "sbx1") Sample.empty_world
  = ({| success := true; exec_error := None |}, Sample.empty_world).
Proof.
  apply (multiStep_members_are_optional (env := Sample.reviewing "")
           (Sample.proposed Sample.install PENDING) "sbx1" Sample.empty_world);
    reflexivity.
Defined.

Lemma refused_call_changes_nothing_witness :
  snd (run (approveFix (env := Sample.reviewing "") Sample.approve "user_2" 1000)
         (Sample.world Sample.install PENDING None))
  = Sample.world Sample.install PENDING None.
Proof.
  eapply (proj1 (refused_call_changes_nothing (env := Sample.reviewing "")
                   Sample.approve Sample.reject "user_2" 1000
                   (Sample.world Sample.install PENDING None))).
  vm_compute. reflexivity.
Defined.

Lemma unknown_fix_is_not_found_witness :
  run (approveFix (env := Sample.reviewing "")
         {| proposedFixId := "fix_9"; approve_feedback := None |} "user_1" 1000)
    (Sample.world Sample.install PENDING None)
  = (Threw (TRPCError NOT_FOUND "Proposed fix not found"),
     Sample.world Sample.install PENDING None).
Proof.
  refine (proj1 (unknown_fix_is_not_found (env := Sample.reviewing "") "fix_9" "user_1"
                   (Sample.world Sample.install PENDING None) _ _ None "Not needed"
                   1000%Z _)); reflexivity.
Defined.

Lemma foreign_fix_is_forbidden_witness :
  run (approveFix (env := Sample.reviewing "") Sample.approve "user_2" 1000)
    (Sample.world Sample.install REJECTED None)
  = (Threw (TRPCError FORBIDDEN "Not authorized"),
     Sample.world Sample.install REJECTED None).
Proof.
  refine (proj1 (foreign_fix_is_forbidden (env := Sample.reviewing "") "fix_1" "user_2"
                   (Sample.world Sample.install REJECTED None)
                   (Sample.proposed Sample.install REJECTED) (Sample.included None)
                   _ _ _ None "Not needed" 1000%Z _)).
  - reflexivity.
  - vm_compute. reflexivity.
  - discriminate.
  - reflexivity.
Defined.

Lemma empty_input_is_rejected_witness :
  run (rejectFix (env := Sample.reviewing "")
         {| reject_proposedFixId := "fix_1"; reject_feedback := "" |} "user_1" 1000)
    (Sample.world Sample.install PENDING None)
  = (Threw InputRejected, Sample.world Sample.install PENDING None).
Proof.
  apply (empty_input_is_rejected (env := Sample.reviewing "") "user_1" 1000%Z
           (Sample.world Sample.install PENDING None)).
  right. reflexivity.
Defined.


Lemma approve_applies_and_approves_witness :
  exists updated w',
    run (approveFix (env := Sample.reviewing "") Sample.approve "user_1" 1000)
      (Sample.world Sample.scaffold PENDING (Some "sbx1.e2b.dev"))
    = (Returned {| reply_success := true; reply_proposedFix := updated;
                   executionError := None |}, w')
    /\ status updated = APPROVED
    /\ length (sandboxOps w') = 4.
Proof.
  destruct (approve_applies_and_approves (env := Sample.reviewing "")
              Sample.approve "user_1" 1000
              (Sample.world Sample.scaffold PENDING (Some "sbx1.e2b.dev"))
              (Sample.proposed Sample.scaffold PENDING)
              (Sample.included (Some "sbx1.e2b.dev")) "sbx1.e2b.dev")
    as (updated & entry & w' & Hrun & Hops & _ & Hstatus & _);
    [reflexivity | vm_compute; reflexivity | reflexivity.. |].
  exists updated, w'. split; [exact Hrun|]. split; [exact Hstatus|].
  rewrite Hops. reflexivity.
Defined.

Lemma review_keeps_the_rest_witness :
  proposedFixes
    (snd (run (approveFix (env := Sample.reviewing "") Sample.approve "user_1" 1000)
            Scenario.world)) !! "fix_2"
  = proposedFixes Scenario.world !! "fix_2".
Proof.
  destruct (review_keeps_the_rest (env := Sample.reviewing "")
              Sample.approve Sample.reject "user_1" 1000 Scenario.world)
    as [(_ & _ & _ & _ & Hother & _) _].
  apply Hother. discriminate.
Defined.

Lemma reply_matches_store_witness :
  exists updated w',
    run (rejectFix (env := Sample.reviewing "") Sample.reject "user_1" 1000)
      (Sample.world Sample.install PENDING None)
    = (Returned updated, w')
    /\ proposedFixes w' !! "fix_1" = Some updated
    /\ status updated = REJECTED.
Proof.
  eexists _, _. split; [vm_compute; reflexivity|].
  eapply (proj2 (reply_matches_store (env := Sample.reviewing "")
                   Sample.approve Sample.reject "user_1" 1000
                   (Sample.world Sample.install PENDING None))).
  vm_compute. reflexivity.
Defined.

Lemma failed_approval_can_be_retried_witness :
  let w1 :=
    snd (run (approveFix (env := Sample.reviewing "npm run gen") Sample.approve
                "user_1" 1000)
           (Sample.world Sample.scaffold PENDING (Some "sbx1.e2b.dev"))) in
  returned
    (fst (run (approveFix (env := Sample.reviewing "npm run gen") Sample.approve
                 "user_1" 2000) w1))
  = true.
Proof.
  destruct (failed_approval_can_be_retried (env := Sample.reviewing "npm run gen")
              "fix_1" None "user_1" 1000%Z
              (Sample.world Sample.scaffold PENDING (Some "sbx1.e2b.dev"))
              (Sample.proposed Sample.scaffold PENDING)
              (Sample.included (Some "sbx1.e2b.dev")) "sbx1.e2b.dev")
    as [Hagain _];
    [reflexivity | vm_compute; reflexivity | reflexivity | reflexivity | reflexivity
    | reflexivity |].
  exact (proj1 (Hagain None 2000%Z)).
Defined.

Lemma sandbox_id_is_the_first_label_witness :
  split_dot_head "sbx1.e2b.dev" = "sbx1".
Proof.
  apply (sandbox_id_is_the_first_label "sbx1" "e2b.dev"). reflexivity.
Defined.

Lemma dot_leading_url_yields_no_sandbox_witness :
  exists updated w',
    run (approveFix (env := Sample.reviewing "") Sample.approve "user_1" 1000)
      (Sample.world Sample.install PENDING (Some ".e2b.dev"))
    = (Returned {| reply_success := false; reply_proposedFix := updated;
                   executionError :=
                     Some "Error: Sandbox ID required for command execution" |}, w')
    /\ status updated = PENDING
    /\ sandboxOps w' = [].
Proof.
  destruct (dot_leading_url_yields_no_sandbox (env := Sample.reviewing "")
              Sample.approve "user_1" 1000
              (Sample.world Sample.install PENDING (Some ".e2b.dev"))
              (Sample.proposed Sample.install PENDING)
              (Sample.included (Some ".e2b.dev")) "e2b.dev")
    as (updated & w' & Hrun & Hstatus & _ & Hops);
    [reflexivity | vm_compute; reflexivity | reflexivity.. |].
  exists updated, w'. split; [exact Hrun|]. split; [exact Hstatus|exact Hops].
Defined.

Lemma auto_fixed_has_no_approval_request_witness :
  map msg_type
    (messages
       (snd (handleError (env := Sample.answering Sample.diagnosis Sample.c0_85)
               "Error: build failed" JNull "proj_1" "2025-01-01T00:00:00.000Z"
               Sample.empty_world)))
  = [ERROR].
Proof.
  destruct (auto_fixed_has_no_approval_request
              (env := Sample.answering Sample.diagnosis Sample.c0_85)
              "Error: build failed" JNull "proj_1" "2025-01-01T00:00:00.000Z"
              Sample.empty_world Sample.diagnosis (Sample.draft Sample.c0_85))
    as [Hmsgs _]; [repeat split; reflexivity..|].
  rewrite Hmsgs. reflexivity.
Defined.

Lemma no_draft_no_fix_witness :
  proposedFixes
    (snd (handleError (env := Scenario.without_draft)
            "Error: build failed" JNull "proj_1" "2025-01-01T00:00:00.000Z"
            Sample.empty_world))
  = ∅.
Proof.
  apply (no_draft_no_fix (env := Scenario.without_draft)
           "Error: build failed" JNull "proj_1" "2025-01-01T00:00:00.000Z"
           Sample.empty_world Sample.diagnosis); repeat split; reflexivity.
Defined.

Lemma thresholds_are_strict_witness :
  proposedFixes
    (snd (handleError (env := Sample.answering Sample.hesitant Sample.c0_85)
            "Error: build failed" JNull "proj_1" "2025-01-01T00:00:00.000Z"
            Sample.empty_world))
  = ∅.
Proof.
  apply (thresholds_are_strict (env := Sample.answering Sample.hesitant Sample.c0_85)
           "Error: build failed" JNull "proj_1" "2025-01-01T00:00:00.000Z"
           Sample.empty_world Sample.hesitant).
  - repeat split; reflexivity.
  - left. reflexivity.
Defined.

(** A backend that answers [null]: the handler ends in its [catch] and
    records nothing.  A backend whose draft is the empty object: the failure
    is recorded, although the handler ends in its [catch]. *)
Lemma failure_is_recorded_when_the_diagnosis_fits_witness :
  let unfit :=
    handleError (env := Sample.saying JNull JNull)
      "Error: build failed" JNull "proj_1" "2025-01-01T00:00:00.000Z"
      Sample.empty_world in
  let fit :=
    handleError (env := Sample.saying (diagnosis_json Sample.diagnosis) (JObj []))
      "Error: build failed" JNull "proj_1" "2025-01-01T00:00:00.000Z"
      Sample.empty_world in
  (content (fst unfit) = "Something went wrong. Please try again."
   /\ errorLogs (snd unfit) = ∅
   /\ proposedFixes (snd unfit) = ∅)
  /\ exists l,
       errorLogs (snd fit) = {[ log_id l := l ]}
       /\ log_category l = SYNTAX
       /\ log_severity l = LOW.
Proof.
  cbv zeta. split.
  - destruct (failure_is_recorded_when_the_diagnosis_fits (env := Sample.saying JNull JNull)
                "Error: build failed" JNull "proj_1" "2025-01-01T00:00:00.000Z"
                Sample.empty_world)
      as (_ & _ & Hcatch).
    destruct Hcatch as (Hlogs & Hfixes & _ & Hcontent & _); [reflexivity|].
    split; [exact Hcontent|]. split; [exact Hlogs|exact Hfixes].
  - destruct (failure_is_recorded_when_the_diagnosis_fits
                (env := Sample.saying (diagnosis_json Sample.diagnosis) (JObj []))
                "Error: build failed" JNull "proj_1" "2025-01-01T00:00:00.000Z"
                Sample.empty_world)
      as (_ & Hfit & _).
    destruct (Hfit SYNTAX LOW "Unexpected token") as (l & Hlogs & _ & Hc & Hs & _);
      [reflexivity|].
    exists l. split; [exact Hlogs|]. split; [exact Hc|exact Hs].
Defined.


Lemma pending_is_the_pending_part_of_all_witness :
  exists pending history,
    getPendingApprovals Scenario.createdAt "proj_1" "user_1" Scenario.world
    = Returned pending
    /\ getAllApprovals Scenario.createdAt "proj_1" "user_1" Scenario.world
       = Returned history
    /\ pending = List.filter (fun a => is_PENDING (approval_fix a)) history.
Proof.
  destruct (pending_is_the_pending_part_of_all Scenario.createdAt "proj_1" "user_1"
              Scenario.world) as (pending & history & H1 & H2 & H3 & _); [reflexivity|].
  exists pending, history. auto.
Defined.

Lemma queries_hide_foreign_projects_witness :
  getAllApprovals Scenario.createdAt "proj_1" "user_2" Scenario.world = Returned [].
Proof.
  apply (queries_hide_foreign_projects Scenario.createdAt "proj_1" "user_2" Scenario.world).
  - reflexivity.
  - intros p Hp. vm_compute in Hp. injection Hp as <-. discriminate.
Defined.

Lemma sample_world_consistent data st url : consistent (Sample.world data st url).
Proof.
  intros id f Hf. unfold Sample.world in Hf. cbn [proposedFixes] in Hf.
  apply lookup_singleton_Some in Hf as [<- <-].
  split; [reflexivity|]. exists Sample.log, Sample.failure. split; reflexivity.
Qed.

Lemma decided_fix_leaves_the_pending_list_witness :
  Scenario.row Sample.install PENDING
  ∉ match getPendingApprovals Scenario.createdAt "proj_1" "user_1"
            (snd (run (rejectFix (env := Sample.reviewing "") Sample.reject "user_1" 1000)
                    (Sample.world Sample.install PENDING None))) with
    | Returned rows => rows
    | Threw _ => []
    end.
Proof.
  intros Hin.
  destruct (decided_fix_leaves_the_pending_list (env := Sample.reviewing "")
              Scenario.createdAt "proj_1" "user_1" "user_1" 1000%Z
              (Sample.world Sample.install PENDING None)
              (sample_world_consistent _ _ _) eq_refl) as [Hreject _].
  cbv beta in Hreject.
  eapply (Hreject Sample.reject) in Hin as [_ Hne]; [apply Hne; reflexivity|].
  vm_compute. reflexivity.
Defined.

Lemma reviewed_fix_stays_in_the_history_witness :
  exists a,
    a ∈ match getAllApprovals Scenario.createdAt "proj_1" "user_1"
                (snd (run (rejectFix (env := Sample.reviewing "") Sample.reject
                             "user_1" 1000)
                        (Sample.world Sample.install PENDING None))) with
        | Returned rows => rows
        | Threw _ => []
        end
    /\ status (approval_fix a) = REJECTED
    /\ approval_errorLog a = Sample.log.
Proof.
  destruct (reviewed_fix_stays_in_the_history (env := Sample.reviewing "")
              Scenario.createdAt "proj_1" "user_1" "user_1" 1000%Z
              (Sample.world Sample.install PENDING None)
              (sample_world_consistent _ _ _) eq_refl) as [Hreject _].
  cbv beta in Hreject.
  exists {| approval_fix :=
              reviewed (Sample.proposed Sample.install PENDING) REJECTED "user_1" 1000
                "Not needed";
            approval_errorLog := Sample.log; approval_message := Sample.failure |}.
  split; [|split; reflexivity].
  eapply (Hreject Sample.reject); [vm_compute; reflexivity|].
  right. split; [reflexivity|].
  exists (Scenario.row Sample.install PENDING).
  split; [vm_compute; left|]. repeat split; reflexivity.
Defined.

Lemma shown_counts_match_the_lists_witness :
  exists stats pending,
    getErrorStats "proj_1" "user_1" Scenario.world = Returned stats
    /\ getPendingApprovals Scenario.createdAt "proj_1" "user_1" Scenario.world
       = Returned pending
    /\ shown_count PENDING (fixesByStatus stats) = length pending.
Proof.
  destruct (shown_counts_match_the_lists Scenario.createdAt "proj_1" "user_1"
              Scenario.world) as (stats & history & pending & H1 & _ & H3 & _ & H5 & _);
    [reflexivity|].
  exists stats, pending. auto.
Defined.

Lemma previous_messages_are_the_last_five_witness :
  previousMessages "proj_1" (Sample.world Sample.install PENDING None)
  = map format_message (project_messages "proj_1" (Sample.world Sample.install PENDING None)).
Proof.
  apply (previous_messages_are_the_last_five "proj_1"
           (Sample.world Sample.install PENDING None)).
  vm_compute. lia.
Defined.
